(** * gstore-cache: the query cache and its entity-kind invalidation index

    A shallow embedding of [lib/queries.js] (modules [Queries] and
    [QueriesStore] below) and of
    the other revision of that file among the sources,
    src/unnamed/part_000, which the tests exercise (module [QueriesGet]).
    JavaScript values are modelled by small inductive types, objects by
    finite maps, promises by an outcome, and the collaborators (cache
    manager, redis client, fetch handler, [primeCache]) by state
    transformers over an arbitrary world; every call that reaches a
    collaborator is recorded in a trace.  Which of two rejections of joined
    promises happened first is not decided by the files: it is a parameter
    ([Race]). *)

From Stdlib Require Import ZArith String.
From stdpp Require Import base option list gmap strings pretty.

Open Scope string_scope.
Open Scope Z_scope.
Open Scope list_scope.

(** ** JavaScript values *)

Module Js.

(** A datastore [Key] object: the native identity of an entity. *)
Record DsKey := MkDsKey { key_kind : string; key_id : Z }.

Inductive JsVal :=
| VUndefined
| VNull
| VBool (b : bool)
| VNum (n : Z)
| VStr (s : string)
| VKey (k : DsKey).

(** [!v] is false exactly on the truthy values; an object is always truthy. *)
Definition truthy (v : JsVal) : bool :=
  match v with
  | VUndefined | VNull => false
  | VBool b => b
  | VNum n => negb (Z.eqb n 0)
  | VStr s => negb (String.eqb s "")
  | VKey _ => true
  end.

(** An entity: an object with string-named properties and one property
    named by the symbol [cache.ds.KEY].  All of them are enumerable, as the
    datastore client creates them by assignment. *)
Record Entity := MkEntity {
  sym_KEY : option JsVal;
  fields : gmap string JsVal
}.

(** [entity[cache.ds.KEY]] and [entity.name]: a missing property reads as
    [undefined]. *)
Definition get_KEY (e : Entity) : JsVal := default VUndefined (sym_KEY e).
Definition get_field (e : Entity) (name : string) : JsVal :=
  default VUndefined (fields e !! name).

(** What the code passes where an entity or an array of entities is
    expected. *)
Inductive Entities :=
| ENone
| EOne (e : Entity)
| EMany (l : list Entity).

(** [arrify]: [null] and [undefined] give the empty array, an array is
    returned as it is, anything else is wrapped. *)
Definition arrify_entities (x : Entities) : list Entity :=
  match x with
  | ENone => []
  | EOne e => [e]
  | EMany l => l
  end.

(** [Array.isArray(x) ? entities : entities[0]] *)
Definition same_shape (x : Entities) (entities : list Entity) : Entities :=
  match x with
  | EMany _ => EMany entities
  | _ => match entities with
         | e :: _ => EOne e
         | [] => ENone
         end
  end.

(** Errors raised by this layer or surfaced by a collaborator. *)
Inductive JsError :=
| Error (msg : string)
| TypeError (msg : string).

(** Completion of a synchronous call. *)
Inductive Completion (A : Type) :=
| Normal (a : A)
| Throw (e : JsError).
Arguments Normal {A} a.
Arguments Throw {A} e.

End Js.
Export Js.

(** ** marshalKeys / unMarshalKeys (lib/queries.js, lines 21-47) *)

Module Marshal.

Definition dsKey_prop : string := "__dsKey__".

(** [Object.assign({}, _entity, { __dsKey__: _entity[cache.ds.KEY] })] *)
Definition marshal_entity (_entity : Entity) : Entity :=
  {| sym_KEY := sym_KEY _entity;
     fields := <[dsKey_prop := get_KEY _entity]> (fields _entity) |}.

Definition marshalKeys (_entities : Entities) : Entities :=
  let entities := arrify_entities _entities in
  let entities := map marshal_entity entities in
  same_shape _entities entities.

(** [if (!_entity.__dsKey__) return _entity;] then the copy with the symbol
    set from the sidecar, and the sidecar deleted. *)
Definition unmarshal_entity (_entity : Entity) : Entity :=
  if negb (truthy (get_field _entity dsKey_prop)) then _entity
  else
    {| sym_KEY := Some (get_field _entity dsKey_prop);
       fields := delete dsKey_prop (fields _entity) |}.

Definition unMarshalKeys (_entities : Entities) : Entities :=
  let entities := arrify_entities _entities in
  let entities := map unmarshal_entity entities in
  same_shape _entities entities.

(** The size of what was passed: the length of an array, one for a single
    entity. *)
Definition shape_size (x : Entities) : option nat :=
  match x with
  | ENone => None
  | EOne _ => Some 1%nat
  | EMany l => Some (length l)
  end.

Definition is_array (x : Entities) : bool :=
  match x with EMany _ => true | _ => false end.

(** An entity whose native identity is the key [k]. *)
Definition has_key (k : DsKey) (e : Entity) : Prop := sym_KEY e = Some (VKey k).

(** Same native identity, and no sidecar property. *)
Definition restored (original result : Entity) : Prop :=
  sym_KEY result = sym_KEY original ∧ fields result !! dsKey_prop = None.

End Marshal.
Export Marshal.


(** ** Options, TTL values, configuration, queries *)

Module Data.

(** A TTL is a number of seconds or, with several stores, a function of the
    store's name ([(data, storeName) => ...]; no function of the code reads
    its first argument).  Calling it may throw. *)
Inductive Ttl :=
| TtlNum (n : Z)
| TtlFn (f : string → Completion (option Z)).

(** The per-call options object: [options.ttl], [options.cache] and
    [options.cacheManager]; [None] is a property that is not set. *)
Record Options := MkOptions {
  opt_ttl : option Ttl;
  opt_cache : option bool;
  opt_cacheManager : option string
}.

(** [{}] *)
Definition no_options : Options :=
  {| opt_ttl := None; opt_cache := None; opt_cacheManager := None |}.

(** [options.ttl = t] and [Object.assign({}, options, { ttl: t })] *)
Definition with_ttl (options : Options) (t : option Ttl) : Options :=
  {| opt_ttl := t; opt_cache := opt_cache options;
     opt_cacheManager := opt_cacheManager options |}.

(** [options.cacheManager = m] *)
Definition with_cacheManager (options : Options) (m : string) : Options :=
  {| opt_ttl := opt_ttl options; opt_cache := opt_cache options;
     opt_cacheManager := Some m |}.

(** One entry of [cache.config.ttl.stores]. *)
Record StoreTtl := MkStoreTtl { st_keys : option Z; st_queries : option Z }.

(** The part of [cache.config] the two files read. *)
Record Config := MkConfig {
  cachePrefix_queries : string;
  stores_length : nat;
  ttl_keys : Z;
  ttl_queries : Z;
  ttl_stores : option (gmap string StoreTtl);
  global : bool
}.

(** A datastore query: the kinds it targets, and what else identifies it. *)
Record Query := MkQuery {
  kinds : list string;
  filters : list (string * string * JsVal);
  orders : list string;
  startCursor : option string
}.

(** [query.kinds[0]] *)
Definition kinds_0 (query : Query) : option string := head (kinds query).

(** The result of a query: the pair [[entities, info]]. *)
Record QueryData := MkQueryData { qd_entities : Entities; qd_meta : JsVal }.

(** What the files import from [./utils] and the runtime; none of it is
    part of the two files.  [getTTL(cache, options, kind)] is given the
    configuration of [cache]. *)
Class Utils := {
  dsQueryToString : Query → string;
  JSON_stringify : QueryData → string;
  getTTL : Config → Options → string → option Ttl
}.

End Data.
Export Data.

(** ** The redis client's commands and replies *)

Module Redis.

Inductive Command :=
| SADD (key member : string)
| SET (key value : string)
| SETEX (key : string) (ttl : Ttl) (value : string)
| SMEMBERS (key : string).

Inductive Reply :=
| RNull
| RInt (n : Z)
| RStatus (s : string)
| RArray (l : list string)
| RError (msg : string).

(** The reply to [SMEMBERS] inside a transaction: [null] or an array. *)
Definition members_reply (members : option (list string)) : Reply :=
  match members with
  | Some l => RArray l
  | None => RNull
  end.

End Redis.
Export Redis.

(** ** Promises, collaborators and the trace of calls *)

Module Async.

(** The state a promise ends in.  [Pending]: it is never settled. *)
Inductive Outcome (A : Type) :=
| Resolved (a : A)
| Rejected (e : JsError)
| Pending.
Arguments Resolved {A} a.
Arguments Rejected {A} e.
Arguments Pending {A}.

(** A call that reached a collaborator. *)
Inductive Event :=
| EGet (key : string) (options : Options)
| EFetch (query : Query)
| ERun (query : Query)
| EPrime (key : string) (value : QueryData) (options : Options)
| EMulti (commands : list Command)
| ESmembers (key : string)
| EDel (keys : list string).

(** A collaborator's operation: it changes the world and settles. *)
Definition Call (W A : Type) : Type := W → Outcome A * W.

(** [redisClient.multi(commands).exec(cb)], [redisClient.smembers(key, cb)]
    and [redisClient.del(keys, cb)]. *)
Record RedisClient (W : Type) := MkRedisClient {
  multi_exec : list Command → Call W (list Reply);
  smembers : string → Call W (option (list string));
  del : list string → Call W Z
}.
Arguments multi_exec {W} _ _ _.
Arguments smembers {W} _ _ _.
Arguments del {W} _ _ _.

(** [cacheManager.get(key, options)]: [None] is [undefined]. *)
Record CacheManager (W : Type) := MkCacheManager {
  cm_get : string → Options → Call W (option QueryData)
}.
Arguments cm_get {W} _ _ _ _.

(** A fetch handler, and [query.run]: called with the query, it returns a
    promise. *)
Definition Handler (W : Type) : Type := Query → Call W QueryData.

(** A computation of this layer: from a world and the trace so far. *)
Definition Async (W A : Type) : Type := W * list Event → Outcome A * (W * list Event).

Definition resolve {W A} (a : A) : Async W A := λ s, (Resolved a, s).
Definition reject {W A} (e : JsError) : Async W A := λ s, (Rejected e, s).
Definition never {W A} : Async W A := λ s, (Pending, s).

(** [p.then(f)] *)
Definition then_ {W A B} (p : Async W A) (f : A → Async W B) : Async W B :=
  λ s, match p s with
       | (Resolved a, s') => f a s'
       | (Rejected e, s') => (Rejected e, s')
       | (Pending, s') => (Pending, s')
       end.

#[global] Instance async_ret {W} : MRet (Async W) := λ A, resolve.
#[global] Instance async_bind {W} : MBind (Async W) := λ A B f p, then_ p f.

(** A synchronous call inside a [then] callback or a promise's executor: an
    exception rejects the promise. *)
Definition completed {W A} (c : Completion A) : Async W A :=
  match c with
  | Normal a => resolve a
  | Throw e => reject e
  end.

(** Calling a collaborator: the call is recorded, then made. *)
Definition perform {W A} (ev : Event) (call : Call W A) : Async W A :=
  λ s, let '(r, w') := call s.1 in (r, (w', s.2 ++ [ev])).

(** A promise whose value is dropped. *)
Definition started {W A} (p : Async W A) : Async W unit :=
  λ s, match p s with
       | (Resolved _, s') => (Resolved tt, s')
       | (Rejected e, s') => (Rejected e, s')
       | (Pending, s') => (Pending, s')
       end.

(** Which of two rejections happened first.  That depends on when the
    collaborators answer, which this layer does not decide:
    [earlier e1 e2] says that the rejection with [e1], of the handler that
    stands first in the array, happened before the one with [e2]. *)
Class Race := earlier : JsError → JsError → bool.

(** How two joined promises settle: a rejection wins, and of two
    rejections the one that happened first. *)
Definition settle_both {race : Race} (r1 r2 : Outcome unit) : Outcome unit :=
  match r1, r2 with
  | Rejected e1, Rejected e2 => Rejected (if earlier e1 e2 then e1 else e2)
  | Rejected e, _ => Rejected e
  | _, Rejected e => Rejected e
  | Resolved _, Resolved _ => Resolved tt
  | _, _ => Pending
  end.

(** [Promise.all(cacheHandlers)]: every handler of the array was started
    when the array was built, in the array's order, whatever the others do. *)
Fixpoint promise_all {W} {race : Race} (cacheHandlers : list (Async W unit)) : Async W unit :=
  match cacheHandlers with
  | [] => resolve tt
  | h :: rest =>
      λ s, let '(r1, s1) := h s in
           let '(r2, s2) := promise_all rest s1 in
           (settle_both r1 r2, s2)
  end.

(** Running a computation from a world, with nothing called yet. *)
Definition run {W A} (p : Async W A) (w : W) : Outcome A * (W * list Event) := p (w, []).
Definition outcome_of {W A} (p : Async W A) (w : W) : Outcome A := (run p w).1.
Definition world_of {W A} (p : Async W A) (w : W) : W := (run p w).2.1.
Definition trace_of {W A} (p : Async W A) (w : W) : list Event := (run p w).2.2.

(** Calls that write to a store. *)
Definition is_write (ev : Event) : bool :=
  match ev with
  | EPrime _ _ _ | EMulti _ | EDel _ => true
  | _ => false
  end.

(** Calls to the redis client. *)
Definition is_redis (ev : Event) : bool :=
  match ev with
  | EMulti _ | ESmembers _ | EDel _ => true
  | _ => false
  end.

Definition is_prime (ev : Event) : bool :=
  match ev with EPrime _ _ _ => true | _ => false end.

Definition is_fetch (ev : Event) : bool :=
  match ev with EFetch _ | ERun _ => true | _ => false end.

End Async.
Export Async.

(** ** lib/queries.js *)

Module Queries.

(** The third argument of [cacheQueryEntityKind] and the argument of
    [cleanQueriesEntityKind]: nothing, one kind, or an array of kinds. *)
Inductive KindArg :=
| KUndefined
| KOne (kind : string)
| KMany (kinds : list string).

(** [arrify] *)
Definition arrify_kinds (x : KindArg) : list string :=
  match x with
  | KUndefined => []
  | KOne kind => [kind]
  | KMany l => l
  end.

(** [query.kinds[0]] passed as an argument. *)
Definition kind_arg (kind : option string) : KindArg :=
  match kind with
  | Some k => KOne k
  | None => KUndefined
  end.

(** The truth value of [options.ttl]. *)
Definition ttl_truthy (t : Ttl) : bool :=
  match t with
  | TtlNum n => negb (Z.eqb n 0)
  | TtlFn _ => true
  end.

(** A query object: what identifies the query, and its [run] method. *)
Record QueryObject (W : Type) := MkQueryObject {
  q_spec :> Query;
  q_run : Call W QueryData
}.
Arguments q_spec {W} _.
Arguments q_run {W} _ _.

(** What the file reads of [cache], the argument of [module.exports]. *)
Record Cache (W : Type) := MkCache {
  config : Config;
  redisClient : option (RedisClient W);
  cacheManager : CacheManager W;
  cacheManagerNoRedis : option string;
  primeCache : string → QueryData → Options → Call W QueryData
}.
Arguments config {W} _.
Arguments redisClient {W} _.
Arguments cacheManager {W} _.
Arguments cacheManagerNoRedis {W} _.
Arguments primeCache {W} _ _ _ _ _.

(** Spreading a reply into an array: an array gives its elements, a string
    its characters, anything else throws. *)
Definition spread (members : Reply) : option (list string) :=
  match members with
  | RArray l => Some l
  | RStatus s => Some ((λ c, String c EmptyString) <$> String.list_ascii_of_string s)
  | _ => None
  end.

(** [response.reduce((acc, members) => members === null ? acc
    : [...acc, ...members], [])]; [None] when a spread throws. *)
Fixpoint reduce_members (acc : list string) (response : list Reply) : option (list string) :=
  match response with
  | [] => Some acc
  | RNull :: rest => reduce_members acc rest
  | members :: rest =>
      match spread members with
      | Some l => reduce_members (acc ++ l) rest
      | None => None
      end
  end.

(** [Array.from(new Set(l))]: the first occurrence of each element, in
    order. *)
Definition Set_from (l : list string) : list string :=
  fold_left (λ acc x, if decide (x ∈ acc) then acc else acc ++ [x]) l [].

(** [typeof options.ttl === 'function'
      ? Object.assign({}, options, { ttl: options.ttl(null, 'redis') })
      : options] *)
Definition redisOptions_of (options : Options) : Completion Options :=
  match opt_ttl options with
  | Some (TtlFn f) =>
      match f "redis" with
      | Normal v => Normal (with_ttl options (TtlNum <$> v))
      | Throw e => Throw e
      end
  | _ => Normal options
  end.

Section WithCache.
Context {W : Type} {utils : Utils} {race : Race}.

Definition addCachePrefixKeys (cache : Cache W) (key : string) : string :=
  cachePrefix_queries (config cache) +:+ key.

Definition queryToString (cache : Cache W) (key : Query) : string :=
  addCachePrefixKeys cache (dsQueryToString key).

(** [options.ttl ? ['setex', queryKey, options.ttl, json] : ['set', queryKey, json]] *)
Definition write_command (queryKey : string) (options : Options) (json : string) : Command :=
  match opt_ttl options with
  | Some ttl => if ttl_truthy ttl then SETEX queryKey ttl json else SET queryKey json
  | None => SET queryKey json
  end.

(** Lines 55-77. *)
Definition cacheQueryEntityKind (cache : Cache W) (queryKey : string) (value : QueryData)
    (_entityKind : KindArg) (options : Options) : Async W (list Reply) :=
  match redisClient cache with
  | None => reject (Error "No Redis Client found.")
  | Some client =>
      let entityKind := arrify_kinds _entityKind in
      let keysSetsQueries :=
        map (λ kind, cachePrefix_queries (config cache) +:+ kind) entityKind in
      let commands :=
        map (λ keySet, SADD keySet queryKey) keysSetsQueries
        ++ [write_command queryKey options (JSON_stringify value)] in
      perform (EMulti commands) (multi_exec client commands)
  end.

(** Lines 84-117.  The callback of [exec] runs when the reply arrives, out
    of the promise's executor: an exception in it settles nothing. *)
Definition cleanQueriesEntityKind (cache : Cache W) (_entityKinds : KindArg) : Async W Z :=
  match redisClient cache with
  | None => reject (Error "No Redis Client found.")
  | Some client =>
      let entityKinds := arrify_kinds _entityKinds in
      let setsQueries :=
        map (λ entityKind, cachePrefix_queries (config cache) +:+ entityKind) entityKinds in
      let commands := map SMEMBERS setsQueries in
      response ← perform (EMulti commands) (multi_exec client commands);
      match reduce_members [] response with
      | None => never
      | Some setsMembers =>
          let keysToDelete := Set_from (setsMembers ++ setsQueries) in
          perform (EDel keysToDelete) (del client keysToDelete)
      end
  end.

(** Lines 124-131: the function among the arguments, or [query.run] bound
    to the query; either is called with the query. *)
Definition fetch_call (query : QueryObject W) (args_fetchHandler : option (Handler W))
    : Call W QueryData :=
  match args_fetchHandler with
  | Some handler => handler query
  | None => q_run query
  end.

Definition fetch_event (query : QueryObject W) (args_fetchHandler : option (Handler W)) : Event :=
  match args_fetchHandler with
  | Some _ => EFetch query
  | None => ERun query
  end.

(** Lines 132-133: the options object among the arguments, or [{}], with
    its TTL set from [getTTL]. *)
Definition call_options (cache : Cache W) (args_options : option Options) : Options :=
  let options := default no_options args_options in
  with_ttl options (getTTL (config cache) options "queries").

(** The value registered in redis: [[marshalKeys(resultFetched[0]), resultFetched[1]]]. *)
Definition marshalled (resultFetched : QueryData) : QueryData :=
  {| qd_entities := marshalKeys (qd_entities resultFetched);
     qd_meta := qd_meta resultFetched |}.

(** Lines 123-184.  [args_options] is the options object among the
    arguments, [args_fetchHandler] the function among them. *)
Definition wrap (cache : Cache W) (query : QueryObject W)
    (args_options : option Options) (args_fetchHandler : option (Handler W))
    : Async W QueryData :=
  let fetchHandler : Async W QueryData :=
    perform (fetch_event query args_fetchHandler) (fetch_call query args_fetchHandler) in
  let options := call_options cache args_options in
  let queryKey := queryToString cache query in
  resultCached ← perform (EGet queryKey options) (cm_get (cacheManager cache) queryKey options);
  match resultCached with
  | None =>
      resultFetched ← fetchHandler;
      match redisClient cache with
      | Some _ =>
          redisOptions ← completed (redisOptions_of options);
          let registered :=
            started (cacheQueryEntityKind cache queryKey (marshalled resultFetched)
                       (kind_arg (kinds_0 query)) redisOptions) in
          let cacheHandlers :=
            match cacheManagerNoRedis cache with
            | Some noRedis =>
                let options := with_cacheManager options noRedis in
                [registered;
                 started (perform (EPrime queryKey resultFetched options)
                            (primeCache cache queryKey resultFetched options))]
            | None => [registered]
            end in
          _ ← promise_all cacheHandlers;
          resolve resultFetched
      | None =>
          perform (EPrime queryKey resultFetched options)
            (primeCache cache queryKey resultFetched options)
      end
  | Some cached => resolve cached
  end.

End WithCache.

End Queries.

(** ** The revision of the file in src/unnamed/part_000 *)

Module QueriesGet.

Record Cache (W : Type) := MkCache {
  config : Config;
  redisClient : option (RedisClient W);
  cacheManager : option (CacheManager W);
  primeCache : string → QueryData → Options → Call W QueryData
}.
Arguments config {W} _.
Arguments redisClient {W} _.
Arguments cacheManager {W} _.
Arguments primeCache {W} _ _ _ _ _.

(** [prefix + kind], where [kind] may be [undefined]. *)
Definition concat_kind (prefix : string) (kind : option string) : string :=
  prefix +:+ default "undefined" kind.

(** Lines 57-62: the TTL of a query [get]. *)
Definition get_ttl (cfg : Config) : Ttl :=
  if decide (1 < stores_length cfg)%nat then
    TtlFn (λ storeName,
      match ttl_stores cfg with
      | None => Throw (TypeError "Cannot read property of undefined")
      | Some stores =>
          match stores !! storeName with
          | None => Throw (TypeError "Cannot read property 'queries' of undefined")
          | Some store => Normal (st_queries store)
          end
      end)
  else TtlNum (ttl_queries cfg).

(** [ttl === -1] *)
Definition is_never_cache (ttl : Ttl) : bool :=
  match ttl with
  | TtlNum n => Z.eqb n (-1)
  | TtlFn _ => false
  end.

(** Lines 65-70, after [!cache.cacheManager]. *)
Definition cache_disabled (cfg : Config) (ttl : Ttl) (options : Options) : bool :=
  is_never_cache ttl
  || bool_decide (opt_cache options = Some false)
  || (negb (global cfg) && negb (bool_decide (opt_cache options = Some true))).

(** Lines 84-87: [stores && stores.redis && stores.redis.queries]. *)
Definition ttlQueries (cfg : Config) : option Z :=
  stores ← ttl_stores cfg;
  redis ← stores !! "redis";
  st_queries redis.

Section WithCache.
Context {W : Type} {utils : Utils}.

Definition addCachePrefixKeys (cache : Cache W) (key : string) : string :=
  cachePrefix_queries (config cache) +:+ key.

Definition keyToString (cache : Cache W) (key : Query) : string :=
  addCachePrefixKeys cache (dsQueryToString key).

(** Lines 20-31.  Without a client the executor throws on
    [cache.redisClient.multi], which rejects the promise. *)
Definition cacheQueryEntityKind (cache : Cache W) (queryKey : string) (value : QueryData)
    (entityKind : list (option string)) : Async W (list Reply) :=
  let setsQueries := map (concat_kind (cachePrefix_queries (config cache))) entityKind in
  match redisClient cache with
  | None => reject (TypeError "Cannot read property 'multi' of undefined")
  | Some client =>
      let commands :=
        map (λ set, SADD set queryKey) setsQueries ++ [SET queryKey (JSON_stringify value)] in
      perform (EMulti commands) (multi_exec client commands)
  end.

(** Lines 33-48. *)
Definition cleanQueriesEntityKind (cache : Cache W) (entityKind : string) : Async W Z :=
  let setQueries := cachePrefix_queries (config cache) +:+ entityKind in
  match redisClient cache with
  | None => reject (TypeError "Cannot read property 'smembers' of undefined")
  | Some client =>
      _members ← perform (ESmembers setQueries) (smembers client setQueries);
      let members := default [] _members in
      perform (EDel (members ++ [setQueries])) (del client (members ++ [setQueries]))
  end.

(** Lines 55-63: the options object among the arguments, or [{}], with its
    TTL set. *)
Definition call_options (cache : Cache W) (args_options : option Options) : Options :=
  let options := default no_options args_options in
  with_ttl options (Some (get_ttl (config cache))).

(** Lines 53-101.  [!cache.cacheManager] is the first test of line 66. *)
Definition get (cache : Cache W) (query : Query)
    (args_options : option Options) (fetchHandler : Handler W) : Async W QueryData :=
  let ttl := get_ttl (config cache) in
  let options := call_options cache args_options in
  match cacheManager cache with
  | None => perform (EFetch query) (fetchHandler query)
  | Some manager =>
      if cache_disabled (config cache) ttl options then
        perform (EFetch query) (fetchHandler query)
      else
        let queryKey := keyToString cache query in
        cacheResult ← perform (EGet queryKey options) (cm_get manager queryKey options);
        match cacheResult with
        | None =>
            fetchResult ← perform (EFetch query) (fetchHandler query);
            if bool_decide (is_Some (redisClient cache))
               && bool_decide (ttlQueries (config cache) = Some 0)
            then
              _ ← cacheQueryEntityKind cache queryKey fetchResult [kinds_0 query];
              resolve fetchResult
            else
              perform (EPrime queryKey fetchResult options)
                (primeCache cache queryKey fetchResult options)
        | Some cached => resolve cached
        end
  end.

End WithCache.

End QueriesGet.

(** ** Reference collaborators

    An in-memory redis database, a memory store behind the generic cache
    manager, and the helpers of [./utils].  The theorems below hold for
    every collaborator; these are the ones they are run against. *)

Module Mem.

(** A redis value: a string, or a set (its members in insertion order). *)
Inductive RedisVal :=
| RString (s : string)
| RSet (members : list string).

Definition wrong_type : string :=
  "WRONGTYPE Operation against a key holding the wrong kind of value".

(** One command, as redis documents it.  Expiry itself is not modelled:
    [SETEX] stores the value when the TTL is a positive integer. *)
Definition exec_command (db : gmap string RedisVal) (c : Command)
    : gmap string RedisVal * Reply :=
  match c with
  | SADD key member =>
      match db !! key with
      | None => (<[key := RSet [member]]> db, RInt 1)
      | Some (RSet members) =>
          if decide (member ∈ members) then (db, RInt 0)
          else (<[key := RSet (members ++ [member])]> db, RInt 1)
      | Some (RString _) => (db, RError wrong_type)
      end
  | SET key value => (<[key := RString value]> db, RStatus "OK")
  | SETEX key ttl value =>
      match ttl with
      | TtlNum n =>
          if Z.ltb 0 n then (<[key := RString value]> db, RStatus "OK")
          else (db, RError "ERR invalid expire time in setex")
      | TtlFn _ => (db, RError "ERR value is not an integer or out of range")
      end
  | SMEMBERS key =>
      match db !! key with
      | None => (db, RArray [])
      | Some (RSet members) => (db, RArray members)
      | Some (RString _) => (db, RError wrong_type)
      end
  end.

(** A transaction: the commands in order, nothing in between. *)
Fixpoint exec_commands (db : gmap string RedisVal) (cs : list Command)
    : gmap string RedisVal * list Reply :=
  match cs with
  | [] => (db, [])
  | c :: rest =>
      let '(db1, r) := exec_command db c in
      let '(db2, rs) := exec_commands db1 rest in
      (db2, r :: rs)
  end.

(** [DEL]: the number of keys that were removed. *)
Fixpoint del_keys (db : gmap string RedisVal) (keys : list string)
    : gmap string RedisVal * Z :=
  match keys with
  | [] => (db, 0)
  | key :: rest =>
      let '(db', n) := del_keys (delete key db) rest in
      (db', match db !! key with Some _ => n + 1 | None => n end)
  end.

(** [key] is a member of the set stored under [set]. *)
Definition member_of (db : gmap string RedisVal) (set key : string) : Prop :=
  ∃ members, db !! set = Some (RSet members) ∧ key ∈ members.

(** The write of the payload changes nothing but the cache key. *)
Definition writes_only (key : string) (c : Command) : Prop :=
  ∀ (db : gmap string RedisVal) (other : string),
    other ≠ key → (exec_command db c).1 !! other = db !! other.

Record World := MkWorld {
  redis_db : gmap string RedisVal;
  cm_store : gmap string QueryData
}.

Definition with_db (w : World) (db : gmap string RedisVal) : World :=
  {| redis_db := db; cm_store := cm_store w |}.

Definition mem_redis : RedisClient World :=
  {| multi_exec := λ commands w,
       let '(db, replies) := exec_commands (redis_db w) commands in
       (Resolved replies, with_db w db);
     smembers := λ key w,
       match redis_db w !! key with
       | None => (Resolved (Some []), w)
       | Some (RSet members) => (Resolved (Some members), w)
       | Some (RString _) => (Rejected (Error wrong_type), w)
       end;
     del := λ keys w,
       let '(db, n) := del_keys (redis_db w) keys in
       (Resolved n, with_db w db) |}.

Definition mem_manager : CacheManager World :=
  {| cm_get := λ key _ w, (Resolved (cm_store w !! key), w) |}.

Definition mem_prime (key : string) (value : QueryData) (_ : Options) : Call World QueryData :=
  λ w, (Resolved value, {| redis_db := redis_db w; cm_store := <[key := value]> (cm_store w) |}).

(** Handlers that answer with a value, or fail. *)
Definition answering (data : QueryData) : Handler World := λ _ w, (Resolved data, w).
Definition failing (e : JsError) : Handler World := λ _ w, (Rejected e, w).

(** How a filter's value is written in a cache key. *)
Definition show_val (v : JsVal) : string :=
  match v with
  | VUndefined => "undefined"
  | VNull => "null"
  | VBool b => if b then "true" else "false"
  | VNum n => pretty n
  | VStr s => s
  | VKey k => key_kind k +:+ ":" +:+ pretty (key_id k)
  end.

(** Modelled from the spec: [utils.datastore.dsQueryToString] is not among
    the sources.  Section 4.1: the string incorporates the entity-kind name,
    every filter (field, operator, value), the ordering clauses and the
    pagination cursor, in a stable order. *)
Definition dsQueryToString_ref (q : Query) : string :=
  String.concat "," (kinds q) +:+ "|"
  +:+ String.concat "," ((λ f, f.1.1 +:+ f.1.2 +:+ show_val f.2) <$> filters q) +:+ "|"
  +:+ String.concat "," (orders q) +:+ "|"
  +:+ default "" (startCursor q).

(** Modelled from the spec: [utils.ttl.getTTL] is not among the sources.
    Section 4.2, precedence highest first: the per-call TTL, the negative
    "never cache" value of the operation kind, with several stores the
    per-store resolver, and the global TTL of the operation kind. *)
Definition getTTL_ref (cfg : Config) (options : Options) (kind : string) : option Ttl :=
  let global_ttl := if String.eqb kind "keys" then ttl_keys cfg else ttl_queries cfg in
  match opt_ttl options with
  | Some t => Some t
  | None =>
      if Z.ltb global_ttl 0 then Some (TtlNum global_ttl)
      else if decide (1 < stores_length cfg)%nat then
        Some (TtlFn (λ storeName,
          match ttl_stores cfg ≫= (λ stores, stores !! storeName) with
          | None => Throw (TypeError "Cannot read property of undefined")
          | Some store =>
              Normal (if String.eqb kind "keys" then st_keys store else st_queries store)
          end))
      else Some (TtlNum global_ttl)
  end.

(** A stand-in for [JSON.stringify] on a query's result: the entities'
    native keys and the number of their properties, which is all the runs
    below tell results apart by. *)
Definition stringify_entity (e : Entity) : string :=
  match sym_KEY e with
  | Some (VKey k) => key_kind k
  | _ => "entity"
  end.

Definition JSON_stringify_ref (value : QueryData) : string :=
  "[" +:+ String.concat "," (stringify_entity <$> arrify_entities (qd_entities value)) +:+ "]".

#[global] Instance utils_ref : Utils :=
  {| dsQueryToString := dsQueryToString_ref;
     JSON_stringify := JSON_stringify_ref;
     getTTL := getTTL_ref |}.

(** Joined handlers whose rejections happen in the order of the array. *)
#[global] Instance array_order : Race := λ _ _, true.

End Mem.

(** ** The configurations the statements are run on *)

Module Scenario.
Import Mem.

(** One store; [ttl] is both the global TTL of queries and the redis
    store's. *)
Definition one_store (ttl : Z) : Config :=
  {| cachePrefix_queries := "gcq:";
     stores_length := 1;
     ttl_keys := 600;
     ttl_queries := ttl;
     ttl_stores := Some {[ "redis" := {| st_keys := Some 600; st_queries := Some ttl |} ]};
     global := true |}.

(** A memory store and a redis store, as in the test of the dynamic TTL. *)
Definition two_stores : Config :=
  {| cachePrefix_queries := "gcq:";
     stores_length := 2;
     ttl_keys := 600;
     ttl_queries := 5;
     ttl_stores := Some {[ "memory" := {| st_keys := None; st_queries := Some 1357 |};
                           "redis" := {| st_keys := None; st_queries := Some 2468 |} ]};
     global := true |}.

Definition global_off : Config :=
  {| cachePrefix_queries := "gcq:";
     stores_length := 1;
     ttl_keys := 600;
     ttl_queries := 5;
     ttl_stores := None;
     global := false |}.

Definition acme : Entity :=
  {| sym_KEY := Some (VKey (MkDsKey "Company" 1));
     fields := {[ "name" := VStr "Acme" ]} |}.

Definition globex : Entity :=
  {| sym_KEY := Some (VKey (MkDsKey "Company" 2));
     fields := {[ "name" := VStr "Globex" ]} |}.

Definition companies : QueryData :=
  {| qd_entities := EMany [acme; globex]; qd_meta := VStr "NO_MORE_RESULTS" |}.

Definition stale : QueryData :=
  {| qd_entities := EMany [acme]; qd_meta := VStr "NO_MORE_RESULTS" |}.

Definition by_name : Query :=
  {| kinds := ["Company"];
     filters := [("name", "=", VStr "Acme")];
     orders := [];
     startCursor := None |}.

(** A query over two kinds. *)
Definition two_kinds : Query :=
  {| kinds := ["Company"; "User"];
     filters := [];
     orders := ["name"];
     startCursor := None |}.

Definition object_of (q : Query) : Queries.QueryObject World :=
  {| Queries.q_spec := q; Queries.q_run := answering companies q |}.

Definition empty_world : World := {| redis_db := ∅; cm_store := ∅ |}.

(** A world where the result of [by_name] is cached. *)
Definition cached_world : World :=
  {| redis_db := ∅; cm_store := {[ "gcq:Company|name=Acme||" := stale ]} |}.

(** A world where two queries were registered under the kind [Company]. *)
Definition indexed_world : World :=
  {| redis_db := {[ "gcq:Company" := RSet ["gcq:Company|name=Acme||"; "gcq:Company|||"];
                    "gcq:Company|name=Acme||" := RString "[Company]";
                    "gcq:Company|||" := RString "[Company,Company]" ]};
     cm_store := ∅ |}.

Definition with_redis (cfg : Config) : Queries.Cache World :=
  {| Queries.config := cfg;
     Queries.redisClient := Some mem_redis;
     Queries.cacheManager := mem_manager;
     Queries.cacheManagerNoRedis := None;
     Queries.primeCache := mem_prime |}.

Definition with_redis_and_memory (cfg : Config) : Queries.Cache World :=
  {| Queries.config := cfg;
     Queries.redisClient := Some mem_redis;
     Queries.cacheManager := mem_manager;
     Queries.cacheManagerNoRedis := Some "memory";
     Queries.primeCache := mem_prime |}.

Definition without_redis (cfg : Config) : Queries.Cache World :=
  {| Queries.config := cfg;
     Queries.redisClient := None;
     Queries.cacheManager := mem_manager;
     Queries.cacheManagerNoRedis := None;
     Queries.primeCache := mem_prime |}.

Definition get_with_redis (cfg : Config) : QueriesGet.Cache World :=
  {| QueriesGet.config := cfg;
     QueriesGet.redisClient := Some mem_redis;
     QueriesGet.cacheManager := Some mem_manager;
     QueriesGet.primeCache := mem_prime |}.

Definition get_without_redis (cfg : Config) : QueriesGet.Cache World :=
  {| QueriesGet.config := cfg;
     QueriesGet.redisClient := None;
     QueriesGet.cacheManager := Some mem_manager;
     QueriesGet.primeCache := mem_prime |}.

End Scenario.

(** ** More configurations *)

Module Cases.
Import Mem Scenario.

(** A redis client that has lost its connection. *)
Definition broken_redis : RedisClient World :=
  {| multi_exec := λ _ w, (Rejected (Error "Connection is closed."), w);
     smembers := λ _ w, (Rejected (Error "Connection is closed."), w);
     del := λ _ w, (Rejected (Error "Connection is closed."), w) |}.

Definition with_broken_redis (cfg : Config) : Queries.Cache World :=
  {| Queries.config := cfg;
     Queries.redisClient := Some broken_redis;
     Queries.cacheManager := mem_manager;
     Queries.cacheManagerNoRedis := None;
     Queries.primeCache := mem_prime |}.

(** A [primeCache] that fails. *)
Definition failing_prime (key : string) (value : QueryData) (_ : Options)
    : Call World QueryData :=
  λ w, (Rejected (Error "prime failed"), w).

(** A redis client that has lost its connection and a cache manager
    without redis whose writes fail. *)
Definition with_broken_stores (cfg : Config) : Queries.Cache World :=
  {| Queries.config := cfg;
     Queries.redisClient := Some broken_redis;
     Queries.cacheManager := mem_manager;
     Queries.cacheManagerNoRedis := Some "memory";
     Queries.primeCache := failing_prime |}.

(** Joined handlers where the later of two rejections in the array happens
    first. *)
Definition reverse_order : Race := λ _ _, false.

(** A world where the key of the set of [Company] holds a string. *)
Definition clashing_world : World :=
  {| redis_db := {[ "gcq:Company" := RString "[Company]" ]}; cm_store := ∅ |}.

(** An entity read back from a store that keeps no symbol: the key is in
    the sidecar only. *)
Definition acme_stored : Entity :=
  {| sym_KEY := None;
     fields := {[ "name" := VStr "Acme"; "__dsKey__" := VKey (MkDsKey "Company" 1) ]} |}.

(** An entity that has a [__dsKey__] property of its own. *)
Definition acme_own_sidecar : Entity :=
  {| sym_KEY := Some (VKey (MkDsKey "Company" 1));
     fields := {[ "name" := VStr "Acme"; "__dsKey__" := VStr "mine" ]} |}.

(** A query that names no kind. *)
Definition no_kind : Query :=
  {| kinds := []; filters := []; orders := []; startCursor := None |}.

(** Two stores, and a per-store table without the redis store. *)
Definition two_stores_no_redis_ttl : Config :=
  {| cachePrefix_queries := "gcq:";
     stores_length := 2;
     ttl_keys := 600;
     ttl_queries := 5;
     ttl_stores := Some {[ "memory" := {| st_keys := None; st_queries := Some 1357 |} ]};
     global := true |}.

(** Two stores, every TTL of queries -1. *)
Definition two_stores_never : Config :=
  {| cachePrefix_queries := "gcq:";
     stores_length := 2;
     ttl_keys := 600;
     ttl_queries := -1;
     ttl_stores := Some {[ "memory" := {| st_keys := None; st_queries := Some (-1) |};
                           "redis" := {| st_keys := None; st_queries := Some (-1) |} ]};
     global := true |}.

End Cases.

(** ** lib/queries.js: [set], [mset], [get], [mget] and [del] *)

Module QueriesStore.

(** What these functions call on [cache] itself: [cache.get(key)],
    [cache.mget(...keys)], [cache.set(key, value, options)],
    [cache.mset(...keysValues, options)] and [cache.del(keys)]; none of
    them is part of the file.  [undefined] is [None].  [R] is what
    [cache.set] resolves with and [D] what [cache.del] resolves with; what
    [cache.mset] resolves with is dropped by its caller. *)
Record Store (W R D : Type) := MkStore {
  cache_get : string → Call W (option QueryData);
  cache_mget : list string → Call W (option (list (option QueryData)));
  cache_set : string → QueryData → Options → Call W R;
  cache_mset : list (string * QueryData) → Options → Call W unit;
  cache_del : list string → Call W D
}.
Arguments cache_get {W R D} _ _ _.
Arguments cache_mget {W R D} _ _ _.
Arguments cache_set {W R D} _ _ _ _ _.
Arguments cache_mset {W R D} _ _ _ _.
Arguments cache_del {W R D} _ _ _.

(** A call made by these functions: one on [cache] itself, or one of the
    calls made below them, on the redis client or [primeCache]. *)
Inductive StoreEvent :=
| EIndexed (ev : Event)
| ECacheGet (key : string)
| ECacheMget (keys : list string)
| ECacheSet (key : string) (value : QueryData) (options : Options)
| ECacheMset (keysValues : list (string * QueryData)) (options : Options)
| ECacheDel (keys : list string).

(** A promise of this layer: from a world, how it settles, the world it
    leaves and the calls made. *)
Definition Run (W A : Type) : Type := W → Outcome A * (W * list StoreEvent).

(** One call on [cache]. *)
Definition call {W A} (ev : StoreEvent) (c : Call W A) : Run W A :=
  λ w, let '(r, w') := c w in (r, (w', [ev])).

(** A promise made by the functions of the index. *)
Definition indexed {W A} (p : Async W A) : Run W A :=
  λ w, let '(r, (w', trace)) := run p w in (r, (w', map EIndexed trace)).

(** [p.then(a => f(a))] for a callback that neither calls a collaborator nor
    throws. *)
Definition then_value {W A B} (p : Run W A) (f : A → B) : Run W B :=
  λ w, let '(r, s) := p w in
       (match r with
        | Resolved a => Resolved (f a)
        | Rejected e => Rejected e
        | Pending => Pending
        end, s).

(** How a promise of this layer settles from a world, the world it leaves,
    and the calls it makes. *)
Definition outcome_in {W A} (p : Run W A) (w : W) : Outcome A := (p w).1.
Definition world_in {W A} (p : Run W A) (w : W) : W := (p w).2.1.
Definition calls_in {W A} (p : Run W A) (w : W) : list StoreEvent := (p w).2.2.

(** What [mset] resolves with: the value of [cache.set], or an array of
    query results. *)
Inductive SetResult (R : Type) :=
| SetValue (r : R)
| SetValues (l : list QueryData).
Arguments SetValue {R} r.
Arguments SetValues {R} l.

(** What [mget] resolves with: [undefined], one pair, an array of pairs
    or, for [GetShifted first], the pair [[first, undefined]]. *)
Inductive GetResult :=
| GetUndefined
| GetOne (r : QueryData)
| GetShifted (first : JsVal)
| GetMany (l : list QueryData).

(** [[unMarshalKeys(r[0]), r[1]]] *)
Definition unmarshalled (r : QueryData) : QueryData :=
  {| qd_entities := unMarshalKeys (qd_entities r); qd_meta := qd_meta r |}.

Section WithCache.
Context {W R D : Type} {utils : Utils} {race : Race}.

(** Lines 215-238. *)
Definition setWithKind (cache : Queries.Cache W) (query : Query) (queryData : QueryData)
    (_options redisOptions : Options) : Async W (list QueryData) :=
  let queryKey := Queries.queryToString cache query in
  let registered :=
    started (Queries.cacheQueryEntityKind cache queryKey (Queries.marshalled queryData)
               (Queries.kind_arg (kinds_0 query)) redisOptions) in
  let cacheHandlers :=
    match Queries.cacheManagerNoRedis cache with
    | Some noRedis =>
        let options := with_cacheManager _options noRedis in
        [registered;
         started (perform (EPrime queryKey queryData options)
                    (Queries.primeCache cache queryKey queryData options))]
    | None => [registered]
    end in
  _ ← promise_all cacheHandlers;
  resolve [queryData].

(** Lines 251-272, the body of the loop: the handlers pushed for one pair. *)
Definition handlers_of (cache : Queries.Cache W) (_options redisOptions : Options)
    (keyValue : Query * QueryData) : list (Async W unit) :=
  let query := keyValue.1 in
  let queryKey := Queries.queryToString cache query in
  let queryData := keyValue.2 in
  let value := Queries.marshalled queryData in
  started (Queries.cacheQueryEntityKind cache queryKey value
             (Queries.kind_arg (kinds_0 query)) redisOptions)
  :: match Queries.cacheManagerNoRedis cache with
     | Some noRedis =>
         let options := with_cacheManager _options noRedis in
         [started (perform (EPrime queryKey value options)
                     (Queries.primeCache cache queryKey value options))]
     | None => []
     end.

(** Lines 240-275.  [keysValues] alternates queries and their data; it is
    given here as the list of the pairs. *)
Definition msetWithKind (cache : Queries.Cache W) (keysValues : list (Query * QueryData))
    (_options redisOptions : Options) : Async W (list QueryData) :=
  let response := map snd keysValues in
  let cacheHandlers := flat_map (handlers_of cache _options redisOptions) keysValues in
  _ ← promise_all cacheHandlers;
  resolve response.

(** Lines 277-315.  The arguments are the pairs and, when their number is
    odd, the options object that ends them.  The TTL function is called in
    the body of [mset], before any promise exists: what it throws, [mset]
    throws. *)
Definition mset (cache : Queries.Cache W) (store : Store W R D)
    (keysValues : list (Query * QueryData)) (args_options : option Options)
    : Completion (Run W (SetResult R)) :=
  let options :=
    with_ttl no_options
      (getTTL (Queries.config cache) (default no_options args_options) "queries") in
  match Queries.redisClient cache with
  | Some _ =>
      match Queries.redisOptions_of options with
      | Throw e => Throw e
      | Normal redisOptions =>
          match keysValues with
          | [(query, queryData)] =>
              Normal (then_value
                        (indexed (setWithKind cache query queryData options redisOptions))
                        SetValues)
          | _ =>
              Normal (then_value
                        (indexed (msetWithKind cache keysValues options redisOptions))
                        SetValues)
          end
      end
  | None =>
      let args := map (λ kv, (Queries.queryToString cache kv.1, kv.2)) keysValues in
      match args with
      | [(key, value)] =>
          Normal (then_value
                    (call (ECacheSet key value options) (cache_set store key value options))
                    SetValue)
      | _ =>
          Normal (then_value
                    (call (ECacheMset args options) (cache_mset store args options))
                    (λ _, SetValues (map snd args)))
      end
  end.

(** Lines 190-204, [onResponse] after [cache.get]: [_response] is the
    cached pair, and the filter runs over its two slots; in the first slot
    [ENone] is [undefined].  When the first slot is not [undefined] it
    stays first, and a second slot that is [undefined] is dropped by the
    filter and read again as [undefined] by [response[1]].  When the first
    slot is [undefined] the filter drops it: nothing is left when the
    second is [undefined] too, and otherwise the second slot comes first,
    goes through [unMarshalKeys] ([arrify(null)[0]] is [undefined]; any
    other value has no [__dsKey__] and is returned as it is), and
    [response[1]] is [undefined]. *)
Definition onResponse_one (_response : option QueryData) : GetResult :=
  match _response with
  | None => GetUndefined
  | Some r =>
      match qd_entities r with
      | ENone =>
          match qd_meta r with
          | VUndefined => GetMany []
          | VNull => GetShifted VUndefined
          | meta => GetShifted meta
          end
      | _ => GetOne (unmarshalled r)
      end
  end.

(** Lines 190-204, [onResponse] after [cache.mget] of several keys: the
    array of what each key holds. *)
Definition onResponse_many (_response : option (list (option QueryData))) : GetResult :=
  match _response with
  | None => GetUndefined
  | Some _response =>
      let response := omap id _response in
      GetMany (map unmarshalled response)
  end.

(** Lines 186-211, called with at least one key: [_keys] is
    [key :: more]. *)
Definition mget (cache : Queries.Cache W) (store : Store W R D) (key : Query)
    (more : list Query) : Run W GetResult :=
  let keys := map (Queries.queryToString cache) (key :: more) in
  match more with
  | [] =>
      then_value
        (call (ECacheGet (Queries.queryToString cache key))
           (cache_get store (Queries.queryToString cache key)))
        onResponse_one
  | _ => then_value (call (ECacheMget keys) (cache_mget store keys)) onResponse_many
  end.

(** Line 319. *)
Definition del (cache : Queries.Cache W) (store : Store W R D) (keys : list Query)
    : Run W D :=
  call (ECacheDel (map (Queries.queryToString cache) keys))
    (cache_del store (map (Queries.queryToString cache) keys)).

End WithCache.

End QueriesStore.

(** ** A memory store behind [cache] *)

Module MemStore.
Import Mem Scenario Cases QueriesStore.

Definition with_cm (w : World) (store : gmap string QueryData) : World :=
  {| redis_db := redis_db w; cm_store := store |}.

(** [cache.set] resolves with the value it stored, [cache.del] with
    nothing. *)
Definition mem_store : Store World QueryData unit :=
  {| cache_get := λ key w, (Resolved (cm_store w !! key), w);
     cache_mget := λ keys w, (Resolved (Some (map (λ key, cm_store w !! key) keys)), w);
     cache_set := λ key value _ w, (Resolved value, with_cm w (<[key := value]> (cm_store w)));
     cache_mset := λ keysValues _ w,
       (Resolved tt,
        with_cm w (foldl (λ store kv, <[kv.1 := kv.2]> store) (cm_store w) keysValues));
     cache_del := λ keys w,
       (Resolved tt, with_cm w (foldl (λ store key, delete key store) (cm_store w) keys)) |}.

(** A result as redis gives it back: the key of each entity is in the
    sidecar. *)
Definition stored_companies : QueryData :=
  {| qd_entities := EMany [acme_stored]; qd_meta := VStr "NO_MORE_RESULTS" |}.

(** A result with an entity that has a [__dsKey__] property of its own. *)
Definition own_sidecar : QueryData :=
  {| qd_entities := EMany [acme_own_sidecar]; qd_meta := VStr "NO_MORE_RESULTS" |}.

(** A world where the memory store holds such a result for [by_name]. *)
Definition stored_world : World :=
  {| redis_db := ∅; cm_store := {[ "gcq:Company|name=Acme||" := stored_companies ]} |}.

Definition all_companies : Query :=
  {| kinds := ["Company"]; filters := []; orders := []; startCursor := None |}.

End MemStore.

(** * Properties *)

(** ** Proof tools *)

(** Unfolding a computation down to the calls of the collaborators. *)
Ltac async_unfold :=
  unfold outcome_of, world_of, trace_of, run, mbind, async_bind, then_,
    perform, started, completed, resolve, reject, never;
  simpl.

(** Closing a statement about a run by an instance of a theorem: both are
    evaluated. *)
Ltac by_instance P :=
  let H := fresh "H" in
  pose proof P as H; vm_compute in H; vm_compute; exact H.

(** ** marshalKeys and unMarshalKeys *)

Section MarshalFacts.

Lemma marshal_entity_sidecar (e : Entity) :
  get_field (marshal_entity e) dsKey_prop = get_KEY e.
Proof.
  unfold get_field, marshal_entity; simpl.
  by rewrite lookup_insert_eq.
Qed.

Lemma unmarshal_marshal_entity (e : Entity) (k : DsKey) :
  has_key k e → restored e (unmarshal_entity (marshal_entity e)).
Proof.
  unfold has_key, restored, unmarshal_entity. intros Hk.
  rewrite marshal_entity_sidecar.
  unfold get_KEY. rewrite !Hk. simpl.
  split; [done|]. apply lookup_delete_eq.
Qed.

Lemma unmarshal_entity_no_sidecar (e : Entity) :
  fields e !! dsKey_prop = None → unmarshal_entity e = e.
Proof.
  intros Hnone. unfold unmarshal_entity, get_field. by rewrite Hnone.
Qed.

(** When the entity had no sidecar property of its own, the round trip gives
    the entity back exactly. *)
Lemma unmarshal_marshal_entity_id (e : Entity) (k : DsKey) :
  has_key k e → fields e !! dsKey_prop = None →
  unmarshal_entity (marshal_entity e) = e.
Proof.
  unfold has_key, unmarshal_entity. intros Hk Hnone.
  rewrite marshal_entity_sidecar. unfold get_KEY. rewrite !Hk. simpl.
  destruct e as [sk fs]; simpl in *. subst sk. f_equal.
  rewrite delete_insert_eq. by apply delete_id.
Qed.

Lemma restored_all (l : list Entity) :
  Forall (λ e, ∃ k, has_key k e) l →
  Forall2 restored l (map unmarshal_entity (map marshal_entity l)).
Proof.
  induction 1 as [|e l [k Hk] _ IH]; simpl; constructor; eauto using unmarshal_marshal_entity.
Qed.

Lemma unmarshal_all_no_sidecar (l : list Entity) :
  Forall (λ e, fields e !! dsKey_prop = None) l → map unmarshal_entity l = l.
Proof.
  induction 1 as [|e l He _ IH]; simpl; [done|].
  by rewrite unmarshal_entity_no_sidecar, IH.
Qed.

End MarshalFacts.

Section MarshalRoundTrip.

(** C10. For an entity, or an array of entities, each carrying a native
    datastore key: [unMarshalKeys (marshalKeys x)] has the shape of [x] (an
    array of the same length for an array, one entity for one entity), each
    entity of it has the native key of the original and no [__dsKey__]
    property; [marshalKeys] and [unMarshalKeys] each keep the shape and the
    size of what they are given; and [unMarshalKeys] returns unchanged an
    entity, or an array of entities, without a [__dsKey__] property. *)
Theorem marshal_unmarshal_roundtrip :
  (∀ (e : Entity) (k : DsKey), has_key k e →
     ∃ e', unMarshalKeys (marshalKeys (EOne e)) = EOne e' ∧ restored e e')
  ∧ (∀ l : list Entity, Forall (λ e, ∃ k, has_key k e) l →
       ∃ l', unMarshalKeys (marshalKeys (EMany l)) = EMany l'
             ∧ length l' = length l ∧ Forall2 restored l l')
  ∧ (∀ x : Entities,
       is_array (marshalKeys x) = is_array x
       ∧ shape_size (marshalKeys x) = shape_size x
       ∧ is_array (unMarshalKeys x) = is_array x
       ∧ shape_size (unMarshalKeys x) = shape_size x)
  ∧ (∀ e : Entity, fields e !! dsKey_prop = None → unMarshalKeys (EOne e) = EOne e)
  ∧ (∀ l : list Entity, Forall (λ e, fields e !! dsKey_prop = None) l →
       unMarshalKeys (EMany l) = EMany l).
Proof.
  repeat split.
  - intros e k Hk. eexists; split; [reflexivity|].
    by apply (unmarshal_marshal_entity e k).
  - intros l Hl. exists (map unmarshal_entity (map marshal_entity l)).
    split; [reflexivity|]. split.
    + by rewrite !length_map.
    + by apply restored_all.
  - by destruct x.
  - destruct x as [|e|l]; simpl; [done..|]. by rewrite length_map.
  - by destruct x.
  - destruct x as [|e|l]; simpl; [done..|]. by rewrite length_map.
  - intros e He. unfold unMarshalKeys; simpl. by rewrite unmarshal_entity_no_sidecar.
  - intros l Hl. unfold unMarshalKeys; simpl. by rewrite unmarshal_all_no_sidecar.
Qed.

Lemma marshal_unmarshal_roundtrip_witness :
  (has_key (MkDsKey "Company" 1) Scenario.acme
   ∧ ∃ e', unMarshalKeys (marshalKeys (EOne Scenario.acme)) = EOne e'
           ∧ restored Scenario.acme e')
  ∧ (Forall (λ e, ∃ k, has_key k e) [Scenario.acme; Scenario.globex]
     ∧ ∃ l', unMarshalKeys (marshalKeys (EMany [Scenario.acme; Scenario.globex])) = EMany l'
             ∧ length l' = 2%nat
             ∧ Forall2 restored [Scenario.acme; Scenario.globex] l')
  ∧ (fields Scenario.acme !! dsKey_prop = None
     ∧ unMarshalKeys (EOne Scenario.acme) = EOne Scenario.acme).
Proof.
  assert (Forall (λ e, ∃ k, has_key k e) [Scenario.acme; Scenario.globex]) as Hkeys.
  { repeat constructor; eexists; reflexivity. }
  assert (fields Scenario.acme !! dsKey_prop = None) as Hplain by (vm_compute; reflexivity).
  split; [|split].
  - split; [reflexivity|].
    exact (proj1 marshal_unmarshal_roundtrip Scenario.acme (MkDsKey "Company" 1) eq_refl).
  - split; [exact Hkeys|].
    exact (proj1 (proj2 marshal_unmarshal_roundtrip) _ Hkeys).
  - split; [exact Hplain|].
    exact (proj1 (proj2 (proj2 (proj2 marshal_unmarshal_roundtrip))) Scenario.acme Hplain).
Defined.

End MarshalRoundTrip.

(** ** The entity-kind invalidation index (lib/queries.js) *)

Section Index.
Context {W : Type} {utils : Utils} {race : Race}.

Lemma Set_from_acc (l acc : list string) :
  NoDup acc →
  let r := fold_left (λ acc x, if decide (x ∈ acc) then acc else acc ++ [x]) l acc in
  NoDup r ∧ ∀ x, x ∈ r ↔ x ∈ acc ∨ x ∈ l.
Proof.
  revert acc. induction l as [|y l IH]; intros acc Hacc; simpl.
  - split; [done|]. intros x. rewrite elem_of_nil. tauto.
  - destruct (decide (y ∈ acc)) as [Hin|Hout].
    + destruct (IH acc Hacc) as [Hnd Hmem]. split; [done|].
      intros x. rewrite Hmem, elem_of_cons.
      split; [tauto|]. intros [?|[->|?]]; tauto.
    + assert (NoDup (acc ++ [y])) as Hacc'.
      { apply NoDup_app. split; [done|]. split.
        - intros x Hx Hy. apply list_elem_of_singleton in Hy. by subst.
        - apply NoDup_singleton. }
      destruct (IH _ Hacc') as [Hnd Hmem]. split; [done|].
      intros x. rewrite Hmem, elem_of_app, list_elem_of_singleton, elem_of_cons. tauto.
Qed.

Lemma Set_from_NoDup (l : list string) : NoDup (Queries.Set_from l).
Proof. apply (Set_from_acc l []). constructor. Qed.

Lemma Set_from_elem (l : list string) (x : string) : x ∈ Queries.Set_from l ↔ x ∈ l.
Proof.
  unfold Queries.Set_from.
  destruct (Set_from_acc l [] (NoDup_nil_2)) as [_ Hmem].
  rewrite Hmem, elem_of_nil. tauto.
Qed.

(** The members of all the sets read, in the order of the replies. *)
Lemma reduce_members_replies (members : list (option (list string))) (acc : list string) :
  Queries.reduce_members acc (map members_reply members)
  = Some (acc ++ mjoin (omap id members)).
Proof.
  revert acc. induction members as [|[ms|] members IH]; intros acc; simpl.
  - by rewrite app_nil_r.
  - rewrite IH. by rewrite <- app_assoc.
  - apply IH.
Qed.

(** The write of the payload: [set] without a TTL or with the TTL zero,
    [setex] with any other TTL. *)
Lemma write_command_cases (queryKey : string) (options : Options) (json : string) :
  Queries.write_command queryKey options json
  = match opt_ttl options with
    | None | Some (TtlNum 0) => SET queryKey json
    | Some ttl => SETEX queryKey ttl json
    end.
Proof.
  unfold Queries.write_command. by destruct (opt_ttl options) as [[[|p|p]|f]|].
Qed.

(** C7, as the code has it.  Without a redis client, in lib/queries.js
    [cacheQueryEntityKind] and [cleanQueriesEntityKind] reject with the
    error "No Redis Client found.".  The revision of part_000 has no test
    of the client: there the executor of [cacheQueryEntityKind] throws when
    it reads [multi] of [cache.redisClient], and the promise is rejected
    with that [TypeError]; likewise [cleanQueriesEntityKind], on
    [smembers].  In every case no command is issued: the world and the
    trace are left as they were. *)
Theorem no_redis_client_rejects :
  (∀ (cache : Queries.Cache W) (queryKey : string) (value : QueryData)
     (kinds : Queries.KindArg) (options : Options) (s : W * list Event),
     Queries.redisClient cache = None →
     Queries.cacheQueryEntityKind cache queryKey value kinds options s
     = (Rejected (Error "No Redis Client found."), s)
     ∧ Queries.cleanQueriesEntityKind cache kinds s
       = (Rejected (Error "No Redis Client found."), s))
  ∧ (∀ (cache : QueriesGet.Cache W) (queryKey : string) (value : QueryData)
       (entityKind : list (option string)) (kind : string) (s : W * list Event),
       QueriesGet.redisClient cache = None →
       (∃ msg, QueriesGet.cacheQueryEntityKind cache queryKey value entityKind s
               = (Rejected (TypeError msg), s))
       ∧ (∃ msg, QueriesGet.cleanQueriesEntityKind cache kind s
                 = (Rejected (TypeError msg), s))).
Proof.
  split.
  - intros cache queryKey value kinds options s Hnone.
    unfold Queries.cacheQueryEntityKind, Queries.cleanQueriesEntityKind.
    rewrite Hnone. done.
  - intros cache queryKey value entityKind kind s Hnone.
    unfold QueriesGet.cacheQueryEntityKind, QueriesGet.cleanQueriesEntityKind.
    rewrite Hnone. split; eexists; reflexivity.
Qed.

(** C3. With a redis client, [cacheQueryEntityKind] issues one call, a
    single [multi] transaction: one [sadd] of the cache key per kind, to the
    set named by the queries prefix and the kind, and then the write of the
    serialized payload under the cache key; [setex] with the TTL of the
    options when it is given and is not zero, the plain [set] when no TTL is
    given or when it is zero, the value that stands for no expiry.  The
    promise settles as the transaction does. *)
Theorem register_query_single_transaction (cache : Queries.Cache W)
    (client : RedisClient W) (queryKey : string) (value : QueryData)
    (entityKinds : list string) (options : Options) (w : W) :
  Queries.redisClient cache = Some client →
  let commands :=
    map (λ kind, SADD (cachePrefix_queries (Queries.config cache) +:+ kind) queryKey) entityKinds
    ++ [match opt_ttl options with
        | None | Some (TtlNum 0) => SET queryKey (JSON_stringify value)
        | Some ttl => SETEX queryKey ttl (JSON_stringify value)
        end] in
  run (Queries.cacheQueryEntityKind cache queryKey value (Queries.KMany entityKinds) options) w
  = ((multi_exec client commands w).1,
     ((multi_exec client commands w).2, [EMulti commands])).
Proof.
  intros Hclient commands.
  unfold run, Queries.cacheQueryEntityKind. rewrite Hclient. simpl.
  rewrite map_map. unfold perform; simpl.
  rewrite write_command_cases. fold commands. by destruct (multi_exec client commands w).
Qed.

(** C2. With a redis client, [cleanQueriesEntityKind] on a list of kinds
    reads the members of every kind's set in one transaction and, when the
    transaction answers with the members of each set (or [null]), issues
    one [del] of keys without repetition that are exactly the members of
    all the sets and the names of the sets; the promise settles as the [del]
    does, so it resolves with the number the store reports. *)
Theorem invalidate_entity_kinds_single_delete (cache : Queries.Cache W)
    (client : RedisClient W) (entityKinds : list string)
    (members : list (option (list string))) (w w1 : W) :
  let sets := map (λ kind, cachePrefix_queries (Queries.config cache) +:+ kind) entityKinds in
  Queries.redisClient cache = Some client →
  multi_exec client (map SMEMBERS sets) w = (Resolved (map members_reply members), w1) →
  ∃ keysToDelete : list string,
    NoDup keysToDelete
    ∧ (∀ key, key ∈ keysToDelete ↔ (∃ ms, Some ms ∈ members ∧ key ∈ ms) ∨ key ∈ sets)
    ∧ run (Queries.cleanQueriesEntityKind cache (Queries.KMany entityKinds)) w
      = ((del client keysToDelete w1).1,
         ((del client keysToDelete w1).2, [EMulti (map SMEMBERS sets); EDel keysToDelete])).
Proof.
  intros sets Hclient Hexec.
  exists (Queries.Set_from (mjoin (omap id members) ++ sets)).
  split; [apply Set_from_NoDup|]. split.
  - intros key. rewrite Set_from_elem, elem_of_app.
    apply or_iff_compat_r.
    rewrite list_elem_of_join. split.
    + intros (ms & Hkey & Hms). apply list_elem_of_omap in Hms as (o & Ho & Hid).
      simpl in Hid. subst o. eauto.
    + intros (ms & Hms & Hkey). exists ms. split; [done|].
      apply list_elem_of_omap. by exists (Some ms).
  - unfold run, Queries.cleanQueriesEntityKind. rewrite Hclient. simpl.
    unfold mbind, async_bind, then_, perform; simpl.
    fold sets. rewrite Hexec, reduce_members_replies. simpl.
    by destruct (del client _ w1).
Qed.

End Index.

Section IndexWitnesses.
Import Mem Scenario.

Lemma no_redis_client_rejects_witness :
  (Queries.redisClient (without_redis (one_store 0)) = None
   ∧ Queries.cacheQueryEntityKind (without_redis (one_store 0)) "gcq:Company|||" companies
       (Queries.KOne "Company") no_options (empty_world, [])
     = (Rejected (Error "No Redis Client found."), (empty_world, []))
   ∧ Queries.cleanQueriesEntityKind (without_redis (one_store 0)) (Queries.KOne "Company")
       (empty_world, [])
     = (Rejected (Error "No Redis Client found."), (empty_world, [])))
  ∧ (QueriesGet.redisClient (get_without_redis (one_store 0)) = None
     ∧ ∃ msg, QueriesGet.cacheQueryEntityKind (get_without_redis (one_store 0))
                "gcq:Company|||" companies [Some "Company"] (empty_world, [])
              = (Rejected (TypeError msg), (empty_world, []))).
Proof.
  split.
  - split; [reflexivity|].
    exact (proj1 (@no_redis_client_rejects World utils_ref) (without_redis (one_store 0))
             "gcq:Company|||" companies (Queries.KOne "Company") no_options
             (empty_world, []) eq_refl).
  - split; [reflexivity|].
    exact (proj1 (proj2 (@no_redis_client_rejects World utils_ref)
                    (get_without_redis (one_store 0)) "gcq:Company|||" companies
                    [Some "Company"] "Company" (empty_world, []) eq_refl)).
Defined.

(** [cacheQueryEntityKind] of part_000 without a redis client: the promise
    is rejected with a [TypeError], not with an error that says that there
    is no redis client. *)
Lemma part000_rejects_with_type_error :
  QueriesGet.redisClient (get_without_redis (one_store 0)) = None
  ∧ QueriesGet.cacheQueryEntityKind (get_without_redis (one_store 0)) "gcq:Company|||"
      companies [Some "Company"] (empty_world, [])
    = (Rejected (TypeError "Cannot read property 'multi' of undefined"), (empty_world, [])).
Proof. split; reflexivity. Qed.

Lemma register_query_single_transaction_witness :
  Queries.redisClient (with_redis (one_store 10)) = Some mem_redis
  ∧ outcome_of (Queries.cacheQueryEntityKind (with_redis (one_store 10)) "gcq:Company|||"
                  companies (Queries.KMany ["Company"; "User"])
                  (with_ttl no_options (Some (TtlNum 10)))) empty_world
    = Resolved [RInt 1; RInt 1; RStatus "OK"]
  ∧ trace_of (Queries.cacheQueryEntityKind (with_redis (one_store 10)) "gcq:Company|||"
                companies (Queries.KMany ["Company"; "User"])
                (with_ttl no_options (Some (TtlNum 10)))) empty_world
    = [EMulti [SADD "gcq:Company" "gcq:Company|||";
               SADD "gcq:User" "gcq:Company|||";
               SETEX "gcq:Company|||" (TtlNum 10) "[Company,Company]"]].
Proof.
  split; [reflexivity|].
  unfold outcome_of, trace_of.
  rewrite (register_query_single_transaction (with_redis (one_store 10)) mem_redis
             "gcq:Company|||" companies ["Company"; "User"]
             (with_ttl no_options (Some (TtlNum 10))) empty_world eq_refl).
  split; vm_compute; reflexivity.
Defined.

Lemma invalidate_entity_kinds_single_delete_witness :
  Queries.redisClient (with_redis (one_store 0)) = Some mem_redis
  ∧ multi_exec mem_redis [SMEMBERS "gcq:Company"; SMEMBERS "gcq:User"] indexed_world
    = (Resolved (map members_reply [Some ["gcq:Company|name=Acme||"; "gcq:Company|||"]; Some []]),
       indexed_world)
  ∧ ∃ keysToDelete : list string,
      NoDup keysToDelete
      ∧ (∀ key, key ∈ keysToDelete
           ↔ (∃ ms, Some ms ∈ [Some ["gcq:Company|name=Acme||"; "gcq:Company|||"]; Some []]
                    ∧ key ∈ ms)
             ∨ key ∈ ["gcq:Company"; "gcq:User"])
      ∧ run (Queries.cleanQueriesEntityKind (with_redis (one_store 0))
               (Queries.KMany ["Company"; "User"])) indexed_world
        = ((del mem_redis keysToDelete indexed_world).1,
           ((del mem_redis keysToDelete indexed_world).2,
            [EMulti [SMEMBERS "gcq:Company"; SMEMBERS "gcq:User"]; EDel keysToDelete])).
Proof.
  split; [reflexivity|]. split; [vm_compute; reflexivity|].
  apply (invalidate_entity_kinds_single_delete (with_redis (one_store 0)) mem_redis
           ["Company"; "User"]
           [Some ["gcq:Company|name=Acme||"; "gcq:Company|||"]; Some []]
           indexed_world indexed_world).
  - reflexivity.
  - vm_compute; reflexivity.
Defined.

(** The run of the witness above: the three keys of the index are deleted,
    the set of the other kind does not exist. *)
Example invalidate_entity_kinds_run :
  run (Queries.cleanQueriesEntityKind (with_redis (one_store 0))
         (Queries.KMany ["Company"; "User"])) indexed_world
  = (Resolved 3,
     (empty_world,
      [EMulti [SMEMBERS "gcq:Company"; SMEMBERS "gcq:User"];
       EDel ["gcq:Company|name=Acme||"; "gcq:Company|||"; "gcq:Company"; "gcq:User"]])).
Proof. vm_compute. reflexivity. Qed.

End IndexWitnesses.

(** ** The cache-or-fetch calls: [wrap] (lib/queries.js) and [get]
    (part_000) *)

Section WrapRuns.
Context {W : Type} {utils : Utils} {race : Race}.
Variables (cache : Queries.Cache W) (query : Queries.QueryObject W).
Variables (args_options : option Options) (args_fetchHandler : option (Handler W)).

Let queryKey : string := Queries.queryToString cache (Queries.q_spec query).
Let options : Options := Queries.call_options cache args_options.
Let fetched : Event := Queries.fetch_event query args_fetchHandler.

Lemma wrap_hit (w w1 : W) (cached : QueryData) :
  cm_get (Queries.cacheManager cache) queryKey options w = (Resolved (Some cached), w1) →
  run (Queries.wrap cache query args_options args_fetchHandler) w
  = (Resolved cached, (w1, [EGet queryKey options])).
Proof.
  intros Hget. unfold Queries.wrap. async_unfold. fold queryKey options.
  by rewrite Hget.
Qed.

Lemma wrap_miss_fetches (w w1 : W) :
  cm_get (Queries.cacheManager cache) queryKey options w = (Resolved None, w1) →
  ∃ rest, trace_of (Queries.wrap cache query args_options args_fetchHandler) w
          = EGet queryKey options :: fetched :: rest
          ∧ Forall (λ ev, is_fetch ev = false) rest.
Proof.
  intros Hget. unfold Queries.wrap. async_unfold. fold queryKey options fetched.
  rewrite Hget; simpl.
  destruct (Queries.fetch_call query args_fetchHandler w1) as [[data|e|] w2]; simpl;
    [|eexists; split; [reflexivity|constructor]..].
  destruct (Queries.redisClient cache) as [client|] eqn:Hclient; simpl.
  - destruct (Queries.redisOptions_of options) as [ro|e]; simpl;
      [|eexists; split; [reflexivity|constructor]].
    unfold Queries.cacheQueryEntityKind. rewrite Hclient. async_unfold.
    destruct (Queries.cacheManagerNoRedis cache) as [noRedis|]; simpl.
    + destruct (multi_exec client _ w2) as [[?|?|] w3]; simpl;
        destruct (Queries.primeCache cache _ _ _ w3) as [[?|?|] w4]; simpl;
        eexists; (split; [reflexivity|repeat constructor]).
    + destruct (multi_exec client _ w2) as [[?|?|] w3]; simpl;
        eexists; (split; [reflexivity|repeat constructor]).
  - destruct (Queries.primeCache cache _ _ _ w2) as [[?|?|] w3]; simpl;
      eexists; (split; [reflexivity|repeat constructor]).
Qed.

Lemma wrap_reads_first (w : W) :
  ∃ rest, trace_of (Queries.wrap cache query args_options args_fetchHandler) w
          = EGet queryKey options :: rest.
Proof.
  destruct (cm_get (Queries.cacheManager cache) queryKey options w)
    as [[[cached|]|e|] w1] eqn:Hget.
  - exists []. unfold trace_of. by rewrite (wrap_hit _ _ _ Hget).
  - destruct (wrap_miss_fetches _ _ Hget) as (rest & Htrace & _). eauto.
  - exists []. unfold Queries.wrap. async_unfold. fold queryKey options. by rewrite Hget.
  - exists []. unfold Queries.wrap. async_unfold. fold queryKey options. by rewrite Hget.
Qed.

Lemma wrap_fetch_rejects (w w1 w2 : W) (e : JsError) :
  cm_get (Queries.cacheManager cache) queryKey options w = (Resolved None, w1) →
  Queries.fetch_call query args_fetchHandler w1 = (Rejected e, w2) →
  run (Queries.wrap cache query args_options args_fetchHandler) w
  = (Rejected e, (w2, [EGet queryKey options; fetched])).
Proof.
  intros Hget Hfetch. unfold Queries.wrap. async_unfold. fold queryKey options fetched.
  rewrite Hget; simpl. by rewrite Hfetch.
Qed.

Lemma wrap_fetch_pending (w w1 w2 : W) :
  cm_get (Queries.cacheManager cache) queryKey options w = (Resolved None, w1) →
  Queries.fetch_call query args_fetchHandler w1 = (Pending, w2) →
  run (Queries.wrap cache query args_options args_fetchHandler) w
  = (Pending, (w2, [EGet queryKey options; fetched])).
Proof.
  intros Hget Hfetch. unfold Queries.wrap. async_unfold. fold queryKey options fetched.
  rewrite Hget; simpl. by rewrite Hfetch.
Qed.

(** Unless the cache read resolves with [undefined], it is the only call. *)
Lemma wrap_reads_only (w : W) :
  (∀ w1, cm_get (Queries.cacheManager cache) queryKey options w ≠ (Resolved None, w1)) →
  trace_of (Queries.wrap cache query args_options args_fetchHandler) w
  = [EGet queryKey options].
Proof.
  intros Hmiss.
  destruct (cm_get (Queries.cacheManager cache) queryKey options w)
    as [[[cached|]|e|] w1] eqn:Hget.
  - unfold trace_of. by rewrite (wrap_hit _ _ _ Hget).
  - by destruct (Hmiss w1).
  - unfold Queries.wrap. async_unfold. fold queryKey options. by rewrite Hget.
  - unfold Queries.wrap. async_unfold. fold queryKey options. by rewrite Hget.
Qed.

(** With a redis client the result is registered in the index, whatever the
    TTL; the generic prime is called only for the manager without redis. *)
Lemma wrap_miss_with_redis (w w1 w2 : W) (client : RedisClient W)
    (resultFetched : QueryData) (redisOptions : Options) :
  cm_get (Queries.cacheManager cache) queryKey options w = (Resolved None, w1) →
  Queries.fetch_call query args_fetchHandler w1 = (Resolved resultFetched, w2) →
  Queries.redisClient cache = Some client →
  Queries.redisOptions_of options = Normal redisOptions →
  trace_of (Queries.wrap cache query args_options args_fetchHandler) w
  = [EGet queryKey options; fetched;
     EMulti (map (λ kind, SADD (cachePrefix_queries (Queries.config cache) +:+ kind) queryKey)
                 (option_list (kinds_0 (Queries.q_spec query)))
             ++ [Queries.write_command queryKey redisOptions
                   (JSON_stringify (Queries.marshalled resultFetched))])]
    ++ match Queries.cacheManagerNoRedis cache with
       | Some noRedis =>
           [EPrime queryKey resultFetched (with_cacheManager options noRedis)]
       | None => []
       end.
Proof.
  intros Hget Hfetch Hclient Hro. unfold Queries.wrap. async_unfold.
  fold queryKey options fetched.
  rewrite Hget; simpl. rewrite Hfetch; simpl. rewrite Hclient, Hro; simpl.
  unfold Queries.cacheQueryEntityKind. rewrite Hclient. async_unfold.
  assert (Queries.arrify_kinds (Queries.kind_arg (kinds_0 (Queries.q_spec query)))
          = option_list (kinds_0 (Queries.q_spec query)))
    as -> by (by destruct (kinds_0 (Queries.q_spec query))).
  rewrite map_map.
  destruct (Queries.cacheManagerNoRedis cache) as [noRedis|]; simpl.
  - destruct (multi_exec client _ w2) as [[?|?|] w3]; simpl;
      by destruct (Queries.primeCache cache _ _ _ w3) as [[?|?|] w4].
  - by destruct (multi_exec client _ w2) as [[?|?|] w3].
Qed.

Lemma wrap_miss_without_redis (w w1 w2 : W) (resultFetched : QueryData) :
  cm_get (Queries.cacheManager cache) queryKey options w = (Resolved None, w1) →
  Queries.fetch_call query args_fetchHandler w1 = (Resolved resultFetched, w2) →
  Queries.redisClient cache = None →
  run (Queries.wrap cache query args_options args_fetchHandler) w
  = ((Queries.primeCache cache queryKey resultFetched options w2).1,
     ((Queries.primeCache cache queryKey resultFetched options w2).2,
      [EGet queryKey options; fetched; EPrime queryKey resultFetched options])).
Proof.
  intros Hget Hfetch Hclient. unfold Queries.wrap. async_unfold.
  fold queryKey options fetched.
  rewrite Hget; simpl. rewrite Hfetch; simpl. rewrite Hclient; simpl.
  by destruct (Queries.primeCache cache _ _ _ w2).
Qed.

End WrapRuns.

Section GetRuns.
Context {W : Type} {utils : Utils} {race : Race}.
Variables (cache : QueriesGet.Cache W) (query : Query).
Variables (args_options : option Options) (fetchHandler : Handler W).

Let queryKey : string := QueriesGet.keyToString cache query.
Let options : Options := QueriesGet.call_options cache args_options.
Let disabled : bool :=
  QueriesGet.cache_disabled (QueriesGet.config cache)
    (QueriesGet.get_ttl (QueriesGet.config cache)) options.

Lemma get_bypass (w : W) :
  QueriesGet.cacheManager cache = None ∨ disabled = true →
  run (QueriesGet.get cache query args_options fetchHandler) w
  = ((fetchHandler query w).1, ((fetchHandler query w).2, [EFetch query])).
Proof.
  intros Hoff. unfold QueriesGet.get. fold options disabled.
  destruct (QueriesGet.cacheManager cache) as [manager|].
  - destruct Hoff as [?|Hoff]; [done|]. rewrite Hoff. async_unfold.
    by destruct (fetchHandler query w).
  - async_unfold. by destruct (fetchHandler query w).
Qed.

Lemma get_hit (manager : CacheManager W) (w w1 : W) (cached : QueryData) :
  QueriesGet.cacheManager cache = Some manager →
  disabled = false →
  cm_get manager queryKey options w = (Resolved (Some cached), w1) →
  run (QueriesGet.get cache query args_options fetchHandler) w
  = (Resolved cached, (w1, [EGet queryKey options])).
Proof.
  intros Hmanager Hon Hget. unfold QueriesGet.get. fold options disabled queryKey.
  rewrite Hmanager, Hon. async_unfold. by rewrite Hget.
Qed.

Lemma get_fetch_rejects (manager : CacheManager W) (w w1 w2 : W) (e : JsError) :
  QueriesGet.cacheManager cache = Some manager →
  disabled = false →
  cm_get manager queryKey options w = (Resolved None, w1) →
  fetchHandler query w1 = (Rejected e, w2) →
  run (QueriesGet.get cache query args_options fetchHandler) w
  = (Rejected e, (w2, [EGet queryKey options; EFetch query])).
Proof.
  intros Hmanager Hon Hget Hfetch. unfold QueriesGet.get. fold options disabled queryKey.
  rewrite Hmanager, Hon. async_unfold. rewrite Hget; simpl. by rewrite Hfetch.
Qed.

Lemma get_fetch_pending (manager : CacheManager W) (w w1 w2 : W) :
  QueriesGet.cacheManager cache = Some manager →
  disabled = false →
  cm_get manager queryKey options w = (Resolved None, w1) →
  fetchHandler query w1 = (Pending, w2) →
  run (QueriesGet.get cache query args_options fetchHandler) w
  = (Pending, (w2, [EGet queryKey options; EFetch query])).
Proof.
  intros Hmanager Hon Hget Hfetch. unfold QueriesGet.get. fold options disabled queryKey.
  rewrite Hmanager, Hon. async_unfold. rewrite Hget; simpl. by rewrite Hfetch.
Qed.

(** The result is registered in the index when there is a redis client and
    the redis TTL of queries is zero. *)
Lemma get_miss_index (manager : CacheManager W) (client : RedisClient W)
    (w w1 w2 : W) (fetchResult : QueryData) :
  QueriesGet.cacheManager cache = Some manager →
  disabled = false →
  cm_get manager queryKey options w = (Resolved None, w1) →
  fetchHandler query w1 = (Resolved fetchResult, w2) →
  QueriesGet.redisClient cache = Some client →
  QueriesGet.ttlQueries (QueriesGet.config cache) = Some 0 →
  let commands :=
    [SADD (QueriesGet.concat_kind (cachePrefix_queries (QueriesGet.config cache)) (kinds_0 query))
       queryKey;
     SET queryKey (JSON_stringify fetchResult)] in
  run (QueriesGet.get cache query args_options fetchHandler) w
  = (match (multi_exec client commands w2).1 with
     | Resolved _ => Resolved fetchResult
     | Rejected e => Rejected e
     | Pending => Pending
     end,
     ((multi_exec client commands w2).2,
      [EGet queryKey options; EFetch query; EMulti commands])).
Proof.
  intros Hmanager Hon Hget Hfetch Hclient Hzero commands.
  unfold QueriesGet.get. fold options disabled queryKey.
  rewrite Hmanager, Hon. async_unfold. rewrite Hget; simpl. rewrite Hfetch; simpl.
  rewrite Hclient, Hzero; simpl.
  unfold QueriesGet.cacheQueryEntityKind. rewrite Hclient. async_unfold.
  fold commands. by destruct (multi_exec client commands w2) as [[?|?|] w3].
Qed.

(** Otherwise it is primed on the generic path. *)
Lemma get_miss_prime (manager : CacheManager W) (w w1 w2 : W) (fetchResult : QueryData) :
  QueriesGet.cacheManager cache = Some manager →
  disabled = false →
  cm_get manager queryKey options w = (Resolved None, w1) →
  fetchHandler query w1 = (Resolved fetchResult, w2) →
  QueriesGet.redisClient cache = None
  ∨ QueriesGet.ttlQueries (QueriesGet.config cache) ≠ Some 0 →
  run (QueriesGet.get cache query args_options fetchHandler) w
  = ((QueriesGet.primeCache cache queryKey fetchResult options w2).1,
     ((QueriesGet.primeCache cache queryKey fetchResult options w2).2,
      [EGet queryKey options; EFetch query; EPrime queryKey fetchResult options])).
Proof.
  intros Hmanager Hon Hget Hfetch Hprime.
  unfold QueriesGet.get. fold options disabled queryKey.
  rewrite Hmanager, Hon. async_unfold. rewrite Hget; simpl. rewrite Hfetch; simpl.
  assert (bool_decide (is_Some (QueriesGet.redisClient cache))
          && bool_decide (QueriesGet.ttlQueries (QueriesGet.config cache) = Some 0) = false)
    as ->.
  { destruct Hprime as [Hnone|Hne]; [rewrite Hnone|].
    - rewrite bool_decide_eq_false_2; [done|]. by intros [? ?].
    - rewrite (bool_decide_eq_false_2 _ Hne). apply andb_false_r. }
  simpl. by destruct (QueriesGet.primeCache cache queryKey fetchResult options w2).
Qed.

Lemma get_miss_fetches (manager : CacheManager W) (w w1 : W) :
  QueriesGet.cacheManager cache = Some manager →
  disabled = false →
  cm_get manager queryKey options w = (Resolved None, w1) →
  ∃ rest, trace_of (QueriesGet.get cache query args_options fetchHandler) w
          = EGet queryKey options :: EFetch query :: rest
          ∧ Forall (λ ev, is_fetch ev = false) rest.
Proof.
  intros Hmanager Hon Hget.
  destruct (fetchHandler query w1) as [[fetchResult|e|] w2] eqn:Hfetch.
  - destruct (QueriesGet.redisClient cache) as [client|] eqn:Hclient.
    + destruct (decide (QueriesGet.ttlQueries (QueriesGet.config cache) = Some 0)) as [Hz|Hnz].
      * unfold trace_of. rewrite (get_miss_index _ _ _ _ _ _ Hmanager Hon Hget Hfetch Hclient Hz).
        eexists; split; [reflexivity|repeat constructor].
      * unfold trace_of.
        rewrite (get_miss_prime _ _ _ _ _ Hmanager Hon Hget Hfetch (or_intror Hnz)).
        eexists; split; [reflexivity|repeat constructor].
    + unfold trace_of.
      rewrite (get_miss_prime _ _ _ _ _ Hmanager Hon Hget Hfetch (or_introl Hclient)).
      eexists; split; [reflexivity|repeat constructor].
  - unfold trace_of. rewrite (get_fetch_rejects _ _ _ _ _ Hmanager Hon Hget Hfetch).
    eexists; split; [reflexivity|constructor].
  - exists []. split; [|constructor].
    unfold QueriesGet.get. fold options disabled queryKey.
    rewrite Hmanager, Hon. async_unfold. rewrite Hget; simpl. by rewrite Hfetch.
Qed.

(** With caching on, the first call is the cache read. *)
Lemma get_reads_first (manager : CacheManager W) (w : W) :
  QueriesGet.cacheManager cache = Some manager →
  disabled = false →
  ∃ rest, trace_of (QueriesGet.get cache query args_options fetchHandler) w
          = EGet queryKey options :: rest.
Proof.
  intros Hmanager Hon.
  destruct (cm_get manager queryKey options w) as [[[cached|]|e|] w1] eqn:Hget.
  - exists []. unfold trace_of. by rewrite (get_hit manager w w1 cached Hmanager Hon Hget).
  - destruct (get_miss_fetches manager w w1 Hmanager Hon Hget) as (rest & Htrace & _). eauto.
  - exists []. unfold QueriesGet.get. fold options disabled queryKey.
    rewrite Hmanager, Hon. async_unfold. by rewrite Hget.
  - exists []. unfold QueriesGet.get. fold options disabled queryKey.
    rewrite Hmanager, Hon. async_unfold. by rewrite Hget.
Qed.

End GetRuns.

Section CacheOrFetch.
Context {W : Type} {utils : Utils} {race : Race}.

(** C5. With caching active ([wrap] always; [get] when it has a cache
    manager and line 65-70 does not turn caching off): when the cache read
    resolves to a value, that value is the result and the read is the only
    call made, so the fetch handler is not invoked; when the cache read
    resolves to [undefined], the fetch handler (for [wrap], the function
    among the arguments or else [query.run]) is called on the query, from
    the world the read left, once: it is the second call and no later call
    is a fetch, and the run goes on from what it answers.  A rejection or a
    promise that stays pending is the result, in the world the handler
    left; a value is what is primed next. *)
Theorem hit_skips_fetch_miss_fetches :
  (∀ (cache : Queries.Cache W) (query : Queries.QueryObject W)
     (args_options : option Options) (args_fetchHandler : option (Handler W))
     (w w1 : W) (cached : QueryData),
     cm_get (Queries.cacheManager cache)
       (Queries.queryToString cache (Queries.q_spec query))
       (Queries.call_options cache args_options) w = (Resolved (Some cached), w1) →
     run (Queries.wrap cache query args_options args_fetchHandler) w
     = (Resolved cached,
        (w1, [EGet (Queries.queryToString cache (Queries.q_spec query))
                (Queries.call_options cache args_options)])))
  ∧ (∀ (cache : Queries.Cache W) (query : Queries.QueryObject W)
       (args_options : option Options) (args_fetchHandler : option (Handler W))
       (w w1 w2 : W) (r : Outcome QueryData),
       let queryKey := Queries.queryToString cache (Queries.q_spec query) in
       let options := Queries.call_options cache args_options in
       let fetched :=
         match args_fetchHandler with
         | Some _ => EFetch (Queries.q_spec query)
         | None => ERun (Queries.q_spec query)
         end in
       cm_get (Queries.cacheManager cache) queryKey options w = (Resolved None, w1) →
       match args_fetchHandler with
       | Some fetchHandler => fetchHandler (Queries.q_spec query) w1
       | None => Queries.q_run query w1
       end = (r, w2) →
       (∃ rest,
          trace_of (Queries.wrap cache query args_options args_fetchHandler) w
          = EGet queryKey options :: fetched :: rest
          ∧ Forall (λ ev, is_fetch ev = false) rest)
       ∧ match r with
         | Resolved resultFetched =>
             (Queries.redisClient cache = None →
              run (Queries.wrap cache query args_options args_fetchHandler) w
              = ((Queries.primeCache cache queryKey resultFetched options w2).1,
                 ((Queries.primeCache cache queryKey resultFetched options w2).2,
                  [EGet queryKey options; fetched;
                   EPrime queryKey resultFetched options])))
             ∧ (∀ (client : RedisClient W) (redisOptions : Options),
                  Queries.redisClient cache = Some client →
                  Queries.redisOptions_of options = Normal redisOptions →
                  ∃ rest,
                    trace_of (Queries.wrap cache query args_options args_fetchHandler) w
                    = EGet queryKey options :: fetched
                      :: EMulti
                           (map (λ kind, SADD (cachePrefix_queries (Queries.config cache)
                                               +:+ kind) queryKey)
                              (option_list (kinds_0 (Queries.q_spec query)))
                            ++ [Queries.write_command queryKey redisOptions
                                  (JSON_stringify (Queries.marshalled resultFetched))])
                      :: rest)
         | Rejected e =>
             run (Queries.wrap cache query args_options args_fetchHandler) w
             = (Rejected e, (w2, [EGet queryKey options; fetched]))
         | Pending =>
             run (Queries.wrap cache query args_options args_fetchHandler) w
             = (Pending, (w2, [EGet queryKey options; fetched]))
         end)
  ∧ (∀ (cache : QueriesGet.Cache W) (query : Query) (args_options : option Options)
       (fetchHandler : Handler W) (manager : CacheManager W) (w w1 : W)
       (cached : QueryData),
       QueriesGet.cacheManager cache = Some manager →
       QueriesGet.cache_disabled (QueriesGet.config cache)
         (QueriesGet.get_ttl (QueriesGet.config cache))
         (QueriesGet.call_options cache args_options) = false →
       cm_get manager (QueriesGet.keyToString cache query)
         (QueriesGet.call_options cache args_options) w = (Resolved (Some cached), w1) →
       run (QueriesGet.get cache query args_options fetchHandler) w
       = (Resolved cached,
          (w1, [EGet (QueriesGet.keyToString cache query)
                  (QueriesGet.call_options cache args_options)])))
  ∧ (∀ (cache : QueriesGet.Cache W) (query : Query) (args_options : option Options)
       (fetchHandler : Handler W) (manager : CacheManager W) (w w1 w2 : W)
       (r : Outcome QueryData),
       let queryKey := QueriesGet.keyToString cache query in
       let options := QueriesGet.call_options cache args_options in
       QueriesGet.cacheManager cache = Some manager →
       QueriesGet.cache_disabled (QueriesGet.config cache)
         (QueriesGet.get_ttl (QueriesGet.config cache)) options = false →
       cm_get manager queryKey options w = (Resolved None, w1) →
       fetchHandler query w1 = (r, w2) →
       (∃ rest,
          trace_of (QueriesGet.get cache query args_options fetchHandler) w
          = EGet queryKey options :: EFetch query :: rest
          ∧ Forall (λ ev, is_fetch ev = false) rest)
       ∧ match r with
         | Resolved fetchResult =>
             (QueriesGet.redisClient cache = None
              ∨ QueriesGet.ttlQueries (QueriesGet.config cache) ≠ Some 0 →
              run (QueriesGet.get cache query args_options fetchHandler) w
              = ((QueriesGet.primeCache cache queryKey fetchResult options w2).1,
                 ((QueriesGet.primeCache cache queryKey fetchResult options w2).2,
                  [EGet queryKey options; EFetch query;
                   EPrime queryKey fetchResult options])))
             ∧ (∀ client : RedisClient W,
                  QueriesGet.redisClient cache = Some client →
                  QueriesGet.ttlQueries (QueriesGet.config cache) = Some 0 →
                  trace_of (QueriesGet.get cache query args_options fetchHandler) w
                  = [EGet queryKey options; EFetch query;
                     EMulti [SADD (QueriesGet.concat_kind
                                     (cachePrefix_queries (QueriesGet.config cache))
                                     (kinds_0 query)) queryKey;
                             SET queryKey (JSON_stringify fetchResult)]])
         | Rejected e =>
             run (QueriesGet.get cache query args_options fetchHandler) w
             = (Rejected e, (w2, [EGet queryKey options; EFetch query]))
         | Pending =>
             run (QueriesGet.get cache query args_options fetchHandler) w
             = (Pending, (w2, [EGet queryKey options; EFetch query]))
         end).
Proof.
  split; [|split; [|split]].
  - intros. by apply wrap_hit.
  - intros cache query args_options args_fetchHandler w w1 w2 r queryKey options fetched
      Hget Hfetch.
    assert (Queries.fetch_call query args_fetchHandler w1 = (r, w2)) as Hcall
      by (by destruct args_fetchHandler).
    clear Hfetch. rename Hcall into Hfetch.
    change fetched with (Queries.fetch_event query args_fetchHandler).
    split; [by eapply wrap_miss_fetches|].
    destruct r as [resultFetched|e|].
    + split.
      * intros Hnone. by apply (wrap_miss_without_redis _ _ _ _ w w1 w2).
      * intros client redisOptions Hclient Hro.
        rewrite (wrap_miss_with_redis _ _ _ _ w w1 w2 client resultFetched redisOptions
                   Hget Hfetch Hclient Hro).
        eexists. reflexivity.
    + by apply (wrap_fetch_rejects _ _ _ _ w w1 w2).
    + by apply (wrap_fetch_pending _ _ _ _ w w1 w2).
  - intros. by eapply get_hit.
  - intros cache query args_options fetchHandler manager w w1 w2 r queryKey options
      Hmanager Hon Hget Hfetch.
    split; [by eapply get_miss_fetches|].
    destruct r as [fetchResult|e|].
    + split.
      * intros Hprime. by apply (get_miss_prime _ _ _ _ manager w w1 w2).
      * intros client Hclient Hzero. unfold trace_of.
        by rewrite (get_miss_index _ _ _ _ manager client w w1 w2 fetchResult
                      Hmanager Hon Hget Hfetch Hclient Hzero).
    + by apply (get_fetch_rejects _ _ _ _ manager w w1 w2).
    + by apply (get_fetch_pending _ _ _ _ manager w w1 w2).
Qed.

(** C8. When the fetch handler rejects after a cache miss, [wrap] and [get]
    reject with the same error, and the calls made are the cache read and
    the fetch, nothing else: no prime and no redis command.  The same holds
    for [get] when caching is off and the fetch is its only call. *)
Theorem fetch_rejection_propagates_unwritten :
  (∀ (cache : Queries.Cache W) (query : Queries.QueryObject W)
     (args_options : option Options) (args_fetchHandler : option (Handler W))
     (w w1 w2 : W) (e : JsError),
     cm_get (Queries.cacheManager cache)
       (Queries.queryToString cache (Queries.q_spec query))
       (Queries.call_options cache args_options) w = (Resolved None, w1) →
     Queries.fetch_call query args_fetchHandler w1 = (Rejected e, w2) →
     run (Queries.wrap cache query args_options args_fetchHandler) w
     = (Rejected e,
        (w2, [EGet (Queries.queryToString cache (Queries.q_spec query))
                (Queries.call_options cache args_options);
              Queries.fetch_event query args_fetchHandler]))
     ∧ filter (λ ev, is_write ev = true)
         (trace_of (Queries.wrap cache query args_options args_fetchHandler) w) = [])
  ∧ (∀ (cache : QueriesGet.Cache W) (query : Query) (args_options : option Options)
       (fetchHandler : Handler W) (manager : CacheManager W) (w w1 w2 : W) (e : JsError),
       QueriesGet.cacheManager cache = Some manager →
       QueriesGet.cache_disabled (QueriesGet.config cache)
         (QueriesGet.get_ttl (QueriesGet.config cache))
         (QueriesGet.call_options cache args_options) = false →
       cm_get manager (QueriesGet.keyToString cache query)
         (QueriesGet.call_options cache args_options) w = (Resolved None, w1) →
       fetchHandler query w1 = (Rejected e, w2) →
       run (QueriesGet.get cache query args_options fetchHandler) w
       = (Rejected e,
          (w2, [EGet (QueriesGet.keyToString cache query)
                  (QueriesGet.call_options cache args_options);
                EFetch query]))
       ∧ filter (λ ev, is_write ev = true)
           (trace_of (QueriesGet.get cache query args_options fetchHandler) w) = [])
  ∧ (∀ (cache : QueriesGet.Cache W) (query : Query) (args_options : option Options)
       (fetchHandler : Handler W) (w w1 : W) (e : JsError),
       QueriesGet.cacheManager cache = None
       ∨ QueriesGet.cache_disabled (QueriesGet.config cache)
           (QueriesGet.get_ttl (QueriesGet.config cache))
           (QueriesGet.call_options cache args_options) = true →
       fetchHandler query w = (Rejected e, w1) →
       run (QueriesGet.get cache query args_options fetchHandler) w
       = (Rejected e, (w1, [EFetch query]))).
Proof.
  split; [|split].
  - intros * Hget Hfetch. unfold trace_of.
    rewrite (wrap_fetch_rejects _ _ _ _ _ _ _ _ Hget Hfetch).
    split; [done|]. by destruct args_fetchHandler.
  - intros * Hmanager Hon Hget Hfetch. unfold trace_of.
    by rewrite (get_fetch_rejects _ _ _ _ _ _ _ _ _ Hmanager Hon Hget Hfetch).
  - intros * Hoff Hfetch.
    rewrite (get_bypass _ _ _ _ _ Hoff). by rewrite Hfetch.
Qed.

End CacheOrFetch.

Section CacheOrFetchWitnesses.
Import Mem Scenario.

Lemma hit_skips_fetch_miss_fetches_witness :
  (cm_get mem_manager "gcq:Company|name=Acme||" (MkOptions (Some (TtlNum 10)) None None)
     cached_world
   = (Resolved (Some stale), cached_world)
   ∧ run (Queries.wrap (with_redis (one_store 10)) (object_of by_name) None
            (Some (answering companies))) cached_world
     = (Resolved stale,
        (cached_world,
         [EGet "gcq:Company|name=Acme||" (MkOptions (Some (TtlNum 10)) None None)])))
  ∧ (cm_get mem_manager "gcq:Company|name=Acme||" (MkOptions (Some (TtlNum 10)) None None)
       empty_world
     = (Resolved None, empty_world)
     ∧ answering companies by_name empty_world = (Resolved companies, empty_world)
     ∧ run (Queries.wrap (without_redis (one_store 10)) (object_of by_name) None
              (Some (answering companies))) empty_world
       = (Resolved companies,
          ({| redis_db := ∅;
              cm_store := {[ "gcq:Company|name=Acme||" := companies ]} |},
           [EGet "gcq:Company|name=Acme||" (MkOptions (Some (TtlNum 10)) None None);
            EFetch by_name;
            EPrime "gcq:Company|name=Acme||" companies
              (MkOptions (Some (TtlNum 10)) None None)])))
  ∧ (QueriesGet.cache_disabled (one_store 10) (QueriesGet.get_ttl (one_store 10))
       (MkOptions (Some (TtlNum 10)) None None) = false
     ∧ run (QueriesGet.get (get_with_redis (one_store 10)) by_name None
              (answering companies)) cached_world
       = (Resolved stale,
          (cached_world,
           [EGet "gcq:Company|name=Acme||" (MkOptions (Some (TtlNum 10)) None None)])))
  ∧ (run (QueriesGet.get (get_with_redis (one_store 10)) by_name None
            (answering companies)) empty_world
     = (Resolved companies,
        ({| redis_db := ∅;
            cm_store := {[ "gcq:Company|name=Acme||" := companies ]} |},
         [EGet "gcq:Company|name=Acme||" (MkOptions (Some (TtlNum 10)) None None);
          EFetch by_name;
          EPrime "gcq:Company|name=Acme||" companies
            (MkOptions (Some (TtlNum 10)) None None)]))).
Proof.
  split; [|split; [|split]].
  - split; [vm_compute; reflexivity|].
    by_instance (proj1 (@hit_skips_fetch_miss_fetches World utils_ref array_order)
                   (with_redis (one_store 10))
                   (object_of by_name) None (Some (answering companies))
                   cached_world cached_world stale ltac:(vm_compute; reflexivity)).
  - split; [vm_compute; reflexivity|]. split; [reflexivity|].
    assert (cm_get (Queries.cacheManager (without_redis (one_store 10)))
              (Queries.queryToString (without_redis (one_store 10)) by_name)
              (Queries.call_options (without_redis (one_store 10)) None) empty_world
            = (Resolved None, empty_world)) as Hget by (vm_compute; reflexivity).
    destruct (proj1 (proj2 (@hit_skips_fetch_miss_fetches World utils_ref array_order))
                (without_redis (one_store 10)) (object_of by_name) None
                (Some (answering companies)) empty_world empty_world empty_world
                (Resolved companies) Hget eq_refl) as [_ [Hprime _]].
    specialize (Hprime eq_refl). vm_compute in Hprime. vm_compute. exact Hprime.
  - split; [vm_compute; reflexivity|].
    by_instance (proj1 (proj2 (proj2 (@hit_skips_fetch_miss_fetches World utils_ref
                                        array_order)))
                   (get_with_redis (one_store 10)) by_name None (answering companies)
                   mem_manager cached_world cached_world stale
                   eq_refl ltac:(vm_compute; reflexivity) ltac:(vm_compute; reflexivity)).
  - assert (QueriesGet.cache_disabled (one_store 10) (QueriesGet.get_ttl (one_store 10))
              (QueriesGet.call_options (get_with_redis (one_store 10)) None) = false)
      as Hon by (vm_compute; reflexivity).
    assert (cm_get mem_manager (QueriesGet.keyToString (get_with_redis (one_store 10)) by_name)
              (QueriesGet.call_options (get_with_redis (one_store 10)) None) empty_world
            = (Resolved None, empty_world)) as Hget by (vm_compute; reflexivity).
    destruct (proj2 (proj2 (proj2 (@hit_skips_fetch_miss_fetches World utils_ref
                                     array_order)))
                (get_with_redis (one_store 10)) by_name None (answering companies)
                mem_manager empty_world empty_world empty_world (Resolved companies)
                eq_refl Hon Hget eq_refl) as [_ [Hprime _]].
    assert (QueriesGet.ttlQueries (one_store 10) ≠ Some 0) as Hpositive
      by (vm_compute; discriminate).
    specialize (Hprime (or_intror Hpositive)). vm_compute in Hprime. vm_compute.
    exact Hprime.
Defined.

Lemma fetch_rejection_propagates_unwritten_witness :
  (cm_get mem_manager "gcq:Company|name=Acme||" (MkOptions (Some (TtlNum 10)) None None)
     empty_world
   = (Resolved None, empty_world)
   ∧ failing (Error "datastore unavailable") by_name empty_world
     = (Rejected (Error "datastore unavailable"), empty_world)
   ∧ run (Queries.wrap (with_redis (one_store 10)) (object_of by_name) None
            (Some (failing (Error "datastore unavailable")))) empty_world
     = (Rejected (Error "datastore unavailable"),
        (empty_world,
         [EGet "gcq:Company|name=Acme||" (MkOptions (Some (TtlNum 10)) None None);
          EFetch by_name])))
  ∧ (run (QueriesGet.get (get_with_redis (one_store 10)) by_name None
            (failing (Error "datastore unavailable"))) empty_world
     = (Rejected (Error "datastore unavailable"),
        (empty_world,
         [EGet "gcq:Company|name=Acme||" (MkOptions (Some (TtlNum 10)) None None);
          EFetch by_name])))
  ∧ (QueriesGet.cache_disabled (one_store (-1)) (QueriesGet.get_ttl (one_store (-1)))
       (MkOptions (Some (TtlNum (-1))) None None) = true
     ∧ run (QueriesGet.get (get_with_redis (one_store (-1))) by_name None
              (failing (Error "datastore unavailable"))) cached_world
       = (Rejected (Error "datastore unavailable"), (cached_world, [EFetch by_name]))).
Proof.
  split; [|split].
  - split; [vm_compute; reflexivity|]. split; [reflexivity|].
    by_instance (proj1 (proj1 (@fetch_rejection_propagates_unwritten World utils_ref array_order)
                          (with_redis (one_store 10)) (object_of by_name) None
                          (Some (failing (Error "datastore unavailable")))
                          empty_world empty_world empty_world (Error "datastore unavailable")
                          ltac:(vm_compute; reflexivity) eq_refl)).
  - by_instance (proj1 (proj1 (proj2 (@fetch_rejection_propagates_unwritten World utils_ref array_order))
                          (get_with_redis (one_store 10)) by_name None
                          (failing (Error "datastore unavailable")) mem_manager
                          empty_world empty_world empty_world (Error "datastore unavailable")
                          eq_refl ltac:(vm_compute; reflexivity)
                          ltac:(vm_compute; reflexivity) eq_refl)).
  - split; [vm_compute; reflexivity|].
    by_instance (proj2 (proj2 (@fetch_rejection_propagates_unwritten World utils_ref array_order))
                   (get_with_redis (one_store (-1))) by_name None
                   (failing (Error "datastore unavailable")) cached_world cached_world
                   (Error "datastore unavailable") (or_intror eq_refl) eq_refl).
Defined.

End CacheOrFetchWitnesses.

(** ** The TTL of a query [get], and the switch that turns caching off *)

Section GetTtl.
Context {W : Type} {utils : Utils} {race : Race}.

(** The switch of lines 65-70 is off when none of its tests holds. *)
Lemma cache_enabled_when (cfg : Config) (args_options : option Options) :
  QueriesGet.is_never_cache (QueriesGet.get_ttl cfg) = false →
  opt_cache (default no_options args_options) ≠ Some false →
  global cfg = true ∨ opt_cache (default no_options args_options) = Some true →
  QueriesGet.cache_disabled cfg (QueriesGet.get_ttl cfg)
    (with_ttl (default no_options args_options) (Some (QueriesGet.get_ttl cfg))) = false.
Proof.
  intros Hnever Hcache Hglobal. unfold QueriesGet.cache_disabled. rewrite Hnever; simpl.
  rewrite (bool_decide_eq_false_2 _ Hcache); simpl.
  destruct Hglobal as [->|Htrue]; [done|].
  rewrite (bool_decide_eq_true_2 _ Htrue). apply andb_false_r.
Qed.

(** C6. [get] with a cache manager and caching on hands the cache manager,
    as the TTL of its options, the TTL it resolved: with exactly one store
    the number configured as the TTL of queries; with more than one store
    a function that, called with the name of a store of the per-store
    table, returns the TTL of queries configured for that store. *)
Theorem get_ttl_number_or_resolver (cache : QueriesGet.Cache W) (query : Query)
    (args_options : option Options) (fetchHandler : Handler W)
    (manager : CacheManager W) (w : W) :
  let cfg := QueriesGet.config cache in
  let given := default no_options args_options in
  QueriesGet.cacheManager cache = Some manager →
  opt_cache given ≠ Some false →
  global cfg = true ∨ opt_cache given = Some true →
  (stores_length cfg = 1%nat →
   ttl_queries cfg ≠ -1 →
   ∃ rest,
     trace_of (QueriesGet.get cache query args_options fetchHandler) w
     = EGet (QueriesGet.keyToString cache query)
         (with_ttl given (Some (TtlNum (ttl_queries cfg)))) :: rest)
  ∧ ((1 < stores_length cfg)%nat →
     ∃ f rest,
       trace_of (QueriesGet.get cache query args_options fetchHandler) w
       = EGet (QueriesGet.keyToString cache query) (with_ttl given (Some (TtlFn f))) :: rest
       ∧ ∀ (stores : gmap string StoreTtl) (storeName : string) (store : StoreTtl),
           ttl_stores cfg = Some stores →
           stores !! storeName = Some store →
           f storeName = Normal (st_queries store)).
Proof.
  intros cfg given Hmanager Hcache Hglobal.
  assert (QueriesGet.is_never_cache (QueriesGet.get_ttl cfg) = false →
          ∃ rest, trace_of (QueriesGet.get cache query args_options fetchHandler) w
                  = EGet (QueriesGet.keyToString cache query)
                      (with_ttl given (Some (QueriesGet.get_ttl cfg))) :: rest) as Hfirst.
  { intros Hnever.
    apply (get_reads_first cache query args_options fetchHandler manager w Hmanager).
    by apply cache_enabled_when. }
  split.
  - intros Hone Hne.
    assert (QueriesGet.get_ttl cfg = TtlNum (ttl_queries cfg)) as Hnum.
    { unfold QueriesGet.get_ttl. rewrite decide_False; [done|].
      rewrite Hone. apply Nat.lt_irrefl. }
    rewrite Hnum in Hfirst. apply Hfirst. simpl. by apply Z.eqb_neq.
  - intros Hmany.
    assert (∃ f, QueriesGet.get_ttl cfg = TtlFn f
                 ∧ ∀ (stores : gmap string StoreTtl) (storeName : string) (store : StoreTtl),
                     ttl_stores cfg = Some stores →
                     stores !! storeName = Some store →
                     f storeName = Normal (st_queries store)) as (f & Hfn & Hf).
    { unfold QueriesGet.get_ttl. rewrite decide_True by done.
      eexists; split; [reflexivity|].
      intros stores storeName store -> Hstore; simpl. by rewrite Hstore. }
    rewrite Hfn in Hfirst. destruct (Hfirst eq_refl) as [rest Htrace]. eauto.
Qed.

Lemma cache_disabled_cases (cfg : Config) (options : Options) :
  QueriesGet.get_ttl cfg = TtlNum (-1)
  ∨ opt_cache options = Some false
  ∨ (global cfg = false ∧ opt_cache options ≠ Some true) →
  QueriesGet.cache_disabled cfg (QueriesGet.get_ttl cfg) options = true.
Proof.
  unfold QueriesGet.cache_disabled.
  intros [Hnever|[Hoff|[Hglobal Hopt]]].
  - by rewrite Hnever.
  - rewrite (bool_decide_eq_true_2 _ Hoff). by rewrite orb_true_r.
  - rewrite Hglobal, (bool_decide_eq_false_2 _ Hopt). by rewrite orb_true_r.
Qed.

(** C4, as the code has it.  [get], of part_000: when the TTL
    it resolves is the number -1, or the options say [cache: false], or
    caching is off globally and the options do not say [cache: true], the
    fetch handler is called on the query and its promise is the result; it
    is the only call made, so the cache is neither read nor written.
    [wrap], of lib/queries.js, has no such switch.  Whatever the TTL, the
    options and the global flag: its first call is the cache read; when
    the read resolves to a value, that value is the result and the read is
    the only call; a call that fetches or writes is made only when the read
    resolved to [undefined]; and after such a miss the fetch handler is
    called and, when it resolves, the call after it is a write. *)
Theorem get_skips_cache_when_disabled :
  (∀ (cache : QueriesGet.Cache W) (query : Query) (args_options : option Options)
     (fetchHandler : Handler W) (w : W),
     QueriesGet.get_ttl (QueriesGet.config cache) = TtlNum (-1)
     ∨ opt_cache (default no_options args_options) = Some false
     ∨ (global (QueriesGet.config cache) = false
        ∧ opt_cache (default no_options args_options) ≠ Some true) →
     run (QueriesGet.get cache query args_options fetchHandler) w
     = ((fetchHandler query w).1, ((fetchHandler query w).2, [EFetch query])))
  ∧ (∀ (cache : Queries.Cache W) (query : Queries.QueryObject W)
       (args_options : option Options) (args_fetchHandler : option (Handler W)) (w : W),
       ∃ rest,
         trace_of (Queries.wrap cache query args_options args_fetchHandler) w
         = EGet (Queries.queryToString cache (Queries.q_spec query))
             (Queries.call_options cache args_options) :: rest)
  ∧ (∀ (cache : Queries.Cache W) (query : Queries.QueryObject W)
       (args_options : option Options) (args_fetchHandler : option (Handler W))
       (w w1 : W) (cached : QueryData),
       cm_get (Queries.cacheManager cache)
         (Queries.queryToString cache (Queries.q_spec query))
         (Queries.call_options cache args_options) w = (Resolved (Some cached), w1) →
       run (Queries.wrap cache query args_options args_fetchHandler) w
       = (Resolved cached,
          (w1, [EGet (Queries.queryToString cache (Queries.q_spec query))
                  (Queries.call_options cache args_options)])))
  ∧ (∀ (cache : Queries.Cache W) (query : Queries.QueryObject W)
       (args_options : option Options) (args_fetchHandler : option (Handler W))
       (w : W) (ev : Event),
       ev ∈ trace_of (Queries.wrap cache query args_options args_fetchHandler) w →
       is_fetch ev = true ∨ is_write ev = true →
       ∃ w1, cm_get (Queries.cacheManager cache)
               (Queries.queryToString cache (Queries.q_spec query))
               (Queries.call_options cache args_options) w = (Resolved None, w1))
  ∧ (∀ (cache : Queries.Cache W) (query : Queries.QueryObject W)
       (args_options : option Options) (args_fetchHandler : option (Handler W))
       (w w1 w2 : W) (resultFetched : QueryData),
       cm_get (Queries.cacheManager cache)
         (Queries.queryToString cache (Queries.q_spec query))
         (Queries.call_options cache args_options) w = (Resolved None, w1) →
       match args_fetchHandler with
       | Some fetchHandler => fetchHandler (Queries.q_spec query) w1
       | None => Queries.q_run query w1
       end = (Resolved resultFetched, w2) →
       Queries.redisClient cache = None
       ∨ (∃ redisOptions,
            Queries.redisOptions_of (Queries.call_options cache args_options)
            = Normal redisOptions) →
       ∃ ev rest,
         trace_of (Queries.wrap cache query args_options args_fetchHandler) w
         = EGet (Queries.queryToString cache (Queries.q_spec query))
             (Queries.call_options cache args_options)
           :: match args_fetchHandler with
              | Some _ => EFetch (Queries.q_spec query)
              | None => ERun (Queries.q_spec query)
              end
           :: ev :: rest
         ∧ is_write ev = true).
Proof.
  split; [|split; [|split; [|split]]].
  - intros * Hoff. apply get_bypass. right.
    by apply cache_disabled_cases.
  - intros. apply wrap_reads_first.
  - intros. by apply wrap_hit.
  - intros cache query args_options args_fetchHandler w ev Hin Hkind.
    destruct (cm_get (Queries.cacheManager cache)
                (Queries.queryToString cache (Queries.q_spec query))
                (Queries.call_options cache args_options) w)
      as [[[cached|]|e|] w1] eqn:Hget; [|by exists w1|..];
      (rewrite wrap_reads_only in Hin by (intros w'; rewrite Hget; discriminate);
       apply list_elem_of_singleton in Hin as ->; by destruct Hkind).
  - intros cache query args_options args_fetchHandler w w1 w2 resultFetched Hget Hfetch Hwrite.
    assert (Queries.fetch_call query args_fetchHandler w1 = (Resolved resultFetched, w2))
      as Hcall by (by destruct args_fetchHandler).
    change (match args_fetchHandler with
            | Some _ => EFetch (Queries.q_spec query)
            | None => ERun (Queries.q_spec query)
            end) with (Queries.fetch_event query args_fetchHandler).
    destruct (Queries.redisClient cache) as [client|] eqn:Hclient.
    + destruct Hwrite as [?|[redisOptions Hro]]; [done|].
      rewrite (wrap_miss_with_redis _ _ _ _ w w1 w2 client resultFetched redisOptions
                 Hget Hcall Hclient Hro).
      eexists; eexists; split; [reflexivity|done].
    + unfold trace_of.
      rewrite (wrap_miss_without_redis _ _ _ _ w w1 w2 resultFetched Hget Hcall Hclient).
      eexists; eexists; split; [reflexivity|done].
Qed.

End GetTtl.

Section GetTtlWitnesses.
Import Mem Scenario.

Lemma get_ttl_number_or_resolver_witness :
  (stores_length (one_store 10) = 1%nat
   ∧ ∃ rest,
       trace_of (QueriesGet.get (get_with_redis (one_store 10)) by_name None
                   (answering companies)) cached_world
       = EGet "gcq:Company|name=Acme||" (MkOptions (Some (TtlNum 10)) None None) :: rest)
  ∧ ((1 < stores_length two_stores)%nat
     ∧ ∃ f rest,
         trace_of (QueriesGet.get (get_with_redis two_stores) by_name None
                     (answering companies)) cached_world
         = EGet "gcq:Company|name=Acme||" (MkOptions (Some (TtlFn f)) None None) :: rest
         ∧ f "memory" = Normal (Some 1357)
         ∧ f "redis" = Normal (Some 2468)).
Proof.
  split.
  - split; [reflexivity|].
    assert (ttl_queries (one_store 10) ≠ -1) as Hne by (vm_compute; discriminate).
    destruct (proj1 (@get_ttl_number_or_resolver World utils_ref
                       (get_with_redis (one_store 10)) by_name None (answering companies)
                       mem_manager cached_world eq_refl ltac:(discriminate)
                       (or_introl eq_refl)) eq_refl Hne) as [rest Htrace].
    exists rest. vm_compute in Htrace. vm_compute. exact Htrace.
  - assert (1 < stores_length two_stores)%nat as Hmany by (vm_compute; reflexivity).
    split; [exact Hmany|].
    destruct (proj2 (@get_ttl_number_or_resolver World utils_ref
                       (get_with_redis two_stores) by_name None (answering companies)
                       mem_manager cached_world eq_refl ltac:(discriminate)
                       (or_introl eq_refl)) Hmany) as (f & rest & Htrace & Hlookup).
    exists f, rest. split; [exact Htrace|]. split.
    + rewrite (Hlookup _ "memory" {| st_keys := None; st_queries := Some 1357 |} eq_refl);
        [reflexivity|vm_compute; reflexivity].
    + rewrite (Hlookup _ "redis" {| st_keys := None; st_queries := Some 2468 |} eq_refl);
        [reflexivity|vm_compute; reflexivity].
Defined.

Lemma get_skips_cache_when_disabled_witness :
  (opt_cache (default no_options (Some (MkOptions None (Some false) None))) = Some false
   ∧ run (QueriesGet.get (get_with_redis (one_store 10)) by_name
            (Some (MkOptions None (Some false) None)) (answering companies)) cached_world
     = (Resolved companies, (cached_world, [EFetch by_name])))
  ∧ (QueriesGet.get_ttl (one_store (-1)) = TtlNum (-1)
     ∧ run (QueriesGet.get (get_with_redis (one_store (-1))) by_name None
              (answering companies)) cached_world
       = (Resolved companies, (cached_world, [EFetch by_name])))
  ∧ ((global global_off = false ∧ opt_cache (default no_options None) ≠ Some true)
     ∧ run (QueriesGet.get (get_with_redis global_off) by_name None
              (answering companies)) cached_world
       = (Resolved companies, (cached_world, [EFetch by_name])))
  ∧ (cm_get mem_manager "gcq:Company|name=Acme||" (MkOptions (Some (TtlNum 5)) None None)
       cached_world
     = (Resolved (Some stale), cached_world)
     ∧ run (Queries.wrap (without_redis global_off) (object_of by_name) None
              (Some (answering companies))) cached_world
       = (Resolved stale,
          (cached_world,
           [EGet "gcq:Company|name=Acme||" (MkOptions (Some (TtlNum 5)) None None)]))).
Proof.
  assert (global global_off = false ∧ opt_cache (default no_options None) ≠ Some true)
    as Hglobal by (split; [reflexivity|discriminate]).
  split; [|split; [|split]].
  - split; [reflexivity|].
    exact (proj1 (@get_skips_cache_when_disabled World utils_ref array_order)
             (get_with_redis (one_store 10)) by_name
             (Some (MkOptions None (Some false) None)) (answering companies) cached_world
             (or_intror (or_introl eq_refl))).
  - split; [reflexivity|].
    exact (proj1 (@get_skips_cache_when_disabled World utils_ref array_order)
             (get_with_redis (one_store (-1))) by_name None (answering companies)
             cached_world (or_introl eq_refl)).
  - split; [exact Hglobal|].
    exact (proj1 (@get_skips_cache_when_disabled World utils_ref array_order)
             (get_with_redis global_off) by_name None (answering companies)
             cached_world (or_intror (or_intror Hglobal))).
  - split; [vm_compute; reflexivity|].
    by_instance (proj1 (proj2 (proj2 (@get_skips_cache_when_disabled World utils_ref
                                        array_order)))
                   (without_redis global_off) (object_of by_name) None
                   (Some (answering companies)) cached_world cached_world stale
                   ltac:(vm_compute; reflexivity)).
Defined.

(** [wrap] with [cache: false], with the TTL -1, and with caching off
    globally: each time the cached value is read and returned, and the
    fetch handler is not called. *)
Lemma wrap_reads_cache_when_disabled :
  run (Queries.wrap (without_redis (one_store 10)) (object_of by_name)
         (Some (MkOptions None (Some false) None)) (Some (answering companies))) cached_world
  = (Resolved stale,
     (cached_world,
      [EGet "gcq:Company|name=Acme||" (MkOptions (Some (TtlNum 10)) (Some false) None)]))
  ∧ run (Queries.wrap (without_redis (one_store (-1))) (object_of by_name)
           None (Some (answering companies))) cached_world
    = (Resolved stale,
       (cached_world,
        [EGet "gcq:Company|name=Acme||" (MkOptions (Some (TtlNum (-1))) None None)]))
  ∧ run (Queries.wrap (without_redis global_off) (object_of by_name)
           None (Some (answering companies))) cached_world
    = (Resolved stale,
       (cached_world,
        [EGet "gcq:Company|name=Acme||" (MkOptions (Some (TtlNum 5)) None None)])).
Proof. repeat split; vm_compute; reflexivity. Qed.

End GetTtlWitnesses.

(** ** How a fetched result is primed *)

Section PrimeRoute.
Context {W : Type} {utils : Utils} {race : Race}.

(** C1, as the code has it.  After a cache miss and a fetch that resolves:
    [get], of part_000, with a redis client and the redis TTL
    of queries equal to zero, makes one more call, the transaction that
    adds the cache key to the set of the query's first kind and sets the
    payload, and does not call [primeCache]; with a positive redis TTL of
    queries its one more call is [primeCache], and no redis command is
    issued.  [wrap], of lib/queries.js, with a redis client registers the
    result through that transaction whatever the TTL: the payload is
    written by [set] when the redis TTL is absent or zero and by [setex]
    otherwise, and [primeCache] is called only for the cache manager
    without redis, when there is one; without a redis client its one more
    call is [primeCache]. *)
Theorem prime_route_after_miss :
  (∀ (cache : QueriesGet.Cache W) (query : Query) (args_options : option Options)
     (fetchHandler : Handler W) (manager : CacheManager W) (client : RedisClient W)
     (w w1 w2 : W) (fetchResult : QueryData),
     QueriesGet.cacheManager cache = Some manager →
     QueriesGet.cache_disabled (QueriesGet.config cache)
       (QueriesGet.get_ttl (QueriesGet.config cache))
       (QueriesGet.call_options cache args_options) = false →
     cm_get manager (QueriesGet.keyToString cache query)
       (QueriesGet.call_options cache args_options) w = (Resolved None, w1) →
     fetchHandler query w1 = (Resolved fetchResult, w2) →
     QueriesGet.redisClient cache = Some client →
     QueriesGet.ttlQueries (QueriesGet.config cache) = Some 0 →
     trace_of (QueriesGet.get cache query args_options fetchHandler) w
     = [EGet (QueriesGet.keyToString cache query) (QueriesGet.call_options cache args_options);
        EFetch query;
        EMulti [SADD (QueriesGet.concat_kind (cachePrefix_queries (QueriesGet.config cache))
                        (kinds_0 query))
                  (QueriesGet.keyToString cache query);
                SET (QueriesGet.keyToString cache query) (JSON_stringify fetchResult)]])
  ∧ (∀ (cache : QueriesGet.Cache W) (query : Query) (args_options : option Options)
       (fetchHandler : Handler W) (manager : CacheManager W)
       (w w1 w2 : W) (fetchResult : QueryData) (ttl : Z),
       QueriesGet.cacheManager cache = Some manager →
       QueriesGet.cache_disabled (QueriesGet.config cache)
         (QueriesGet.get_ttl (QueriesGet.config cache))
         (QueriesGet.call_options cache args_options) = false →
       cm_get manager (QueriesGet.keyToString cache query)
         (QueriesGet.call_options cache args_options) w = (Resolved None, w1) →
       fetchHandler query w1 = (Resolved fetchResult, w2) →
       QueriesGet.ttlQueries (QueriesGet.config cache) = Some ttl →
       0 < ttl →
       trace_of (QueriesGet.get cache query args_options fetchHandler) w
       = [EGet (QueriesGet.keyToString cache query) (QueriesGet.call_options cache args_options);
          EFetch query;
          EPrime (QueriesGet.keyToString cache query) fetchResult
            (QueriesGet.call_options cache args_options)])
  ∧ (∀ (cache : Queries.Cache W) (query : Queries.QueryObject W)
       (args_options : option Options) (args_fetchHandler : option (Handler W))
       (client : RedisClient W) (w w1 w2 : W) (resultFetched : QueryData)
       (redisOptions : Options),
       cm_get (Queries.cacheManager cache)
         (Queries.queryToString cache (Queries.q_spec query))
         (Queries.call_options cache args_options) w = (Resolved None, w1) →
       Queries.fetch_call query args_fetchHandler w1 = (Resolved resultFetched, w2) →
       Queries.redisClient cache = Some client →
       Queries.redisOptions_of (Queries.call_options cache args_options) = Normal redisOptions →
       trace_of (Queries.wrap cache query args_options args_fetchHandler) w
       = [EGet (Queries.queryToString cache (Queries.q_spec query))
            (Queries.call_options cache args_options);
          Queries.fetch_event query args_fetchHandler;
          EMulti (map (λ kind, SADD (cachePrefix_queries (Queries.config cache) +:+ kind)
                                 (Queries.queryToString cache (Queries.q_spec query)))
                      (option_list (kinds_0 (Queries.q_spec query)))
                  ++ [match opt_ttl redisOptions with
                      | None | Some (TtlNum 0) =>
                          SET (Queries.queryToString cache (Queries.q_spec query))
                            (JSON_stringify (Queries.marshalled resultFetched))
                      | Some ttl =>
                          SETEX (Queries.queryToString cache (Queries.q_spec query)) ttl
                            (JSON_stringify (Queries.marshalled resultFetched))
                      end])]
         ++ match Queries.cacheManagerNoRedis cache with
            | Some noRedis =>
                [EPrime (Queries.queryToString cache (Queries.q_spec query)) resultFetched
                   (with_cacheManager (Queries.call_options cache args_options) noRedis)]
            | None => []
            end)
  ∧ (∀ (cache : Queries.Cache W) (query : Queries.QueryObject W)
       (args_options : option Options) (args_fetchHandler : option (Handler W))
       (w w1 w2 : W) (resultFetched : QueryData),
       cm_get (Queries.cacheManager cache)
         (Queries.queryToString cache (Queries.q_spec query))
         (Queries.call_options cache args_options) w = (Resolved None, w1) →
       Queries.fetch_call query args_fetchHandler w1 = (Resolved resultFetched, w2) →
       Queries.redisClient cache = None →
       trace_of (Queries.wrap cache query args_options args_fetchHandler) w
       = [EGet (Queries.queryToString cache (Queries.q_spec query))
            (Queries.call_options cache args_options);
          Queries.fetch_event query args_fetchHandler;
          EPrime (Queries.queryToString cache (Queries.q_spec query)) resultFetched
            (Queries.call_options cache args_options)]).
Proof.
  split; [|split; [|split]].
  - intros * Hmanager Hon Hget Hfetch Hclient Hzero. unfold trace_of.
    by rewrite (get_miss_index _ _ _ _ _ _ _ _ _ _ Hmanager Hon Hget Hfetch Hclient Hzero).
  - intros * Hmanager Hon Hget Hfetch Httl Hpos. unfold trace_of.
    rewrite (get_miss_prime _ _ _ _ _ _ _ _ _ Hmanager Hon Hget Hfetch); [done|].
    right. rewrite Httl. intros [= ->]. by apply Z.lt_irrefl in Hpos.
  - intros * Hget Hfetch Hclient Hro.
    rewrite (wrap_miss_with_redis _ _ _ _ _ _ _ _ _ _ Hget Hfetch Hclient Hro).
    by rewrite write_command_cases.
  - intros * Hget Hfetch Hclient. unfold trace_of.
    by rewrite (wrap_miss_without_redis _ _ _ _ _ _ _ _ Hget Hfetch Hclient).
Qed.

End PrimeRoute.

Section PrimeRouteWitnesses.
Import Mem Scenario.

Lemma prime_route_after_miss_witness :
  (QueriesGet.ttlQueries (one_store 0) = Some 0
   ∧ trace_of (QueriesGet.get (get_with_redis (one_store 0)) by_name None
                 (answering companies)) empty_world
     = [EGet "gcq:Company|name=Acme||" (MkOptions (Some (TtlNum 0)) None None);
        EFetch by_name;
        EMulti [SADD "gcq:Company" "gcq:Company|name=Acme||";
                SET "gcq:Company|name=Acme||" "[Company,Company]"]])
  ∧ (QueriesGet.ttlQueries (one_store 10) = Some 10
     ∧ 0 < 10
     ∧ trace_of (QueriesGet.get (get_with_redis (one_store 10)) by_name None
                   (answering companies)) empty_world
       = [EGet "gcq:Company|name=Acme||" (MkOptions (Some (TtlNum 10)) None None);
          EFetch by_name;
          EPrime "gcq:Company|name=Acme||" companies (MkOptions (Some (TtlNum 10)) None None)])
  ∧ (Queries.redisOptions_of (MkOptions (Some (TtlNum 0)) None None)
     = Normal (MkOptions (Some (TtlNum 0)) None None)
     ∧ trace_of (Queries.wrap (with_redis_and_memory (one_store 0)) (object_of by_name) None
                   (Some (answering companies))) empty_world
       = [EGet "gcq:Company|name=Acme||" (MkOptions (Some (TtlNum 0)) None None);
          EFetch by_name;
          EMulti [SADD "gcq:Company" "gcq:Company|name=Acme||";
                  SET "gcq:Company|name=Acme||" "[Company,Company]"];
          EPrime "gcq:Company|name=Acme||" companies
            (MkOptions (Some (TtlNum 0)) None (Some "memory"))])
  ∧ (Queries.redisClient (without_redis (one_store 10)) = None
     ∧ trace_of (Queries.wrap (without_redis (one_store 10)) (object_of by_name) None
                   (Some (answering companies))) empty_world
       = [EGet "gcq:Company|name=Acme||" (MkOptions (Some (TtlNum 10)) None None);
          EFetch by_name;
          EPrime "gcq:Company|name=Acme||" companies (MkOptions (Some (TtlNum 10)) None None)]).
Proof.
  split; [|split; [|split]].
  - split; [vm_compute; reflexivity|].
    by_instance (proj1 (@prime_route_after_miss World utils_ref array_order)
                   (get_with_redis (one_store 0)) by_name None (answering companies)
                   mem_manager mem_redis empty_world empty_world empty_world companies
                   eq_refl ltac:(vm_compute; reflexivity) ltac:(vm_compute; reflexivity)
                   eq_refl eq_refl ltac:(vm_compute; reflexivity)).
  - split; [vm_compute; reflexivity|]. split; [reflexivity|].
    by_instance (proj1 (proj2 (@prime_route_after_miss World utils_ref array_order))
                   (get_with_redis (one_store 10)) by_name None (answering companies)
                   mem_manager empty_world empty_world empty_world companies 10
                   eq_refl ltac:(vm_compute; reflexivity) ltac:(vm_compute; reflexivity)
                   eq_refl ltac:(vm_compute; reflexivity) eq_refl).
  - split; [reflexivity|].
    by_instance (proj1 (proj2 (proj2 (@prime_route_after_miss World utils_ref array_order)))
                   (with_redis_and_memory (one_store 0)) (object_of by_name) None
                   (Some (answering companies)) mem_redis empty_world empty_world empty_world
                   companies (MkOptions (Some (TtlNum 0)) None None)
                   ltac:(vm_compute; reflexivity) eq_refl eq_refl
                   ltac:(vm_compute; reflexivity)).
  - split; [reflexivity|].
    by_instance (proj2 (proj2 (proj2 (@prime_route_after_miss World utils_ref array_order)))
                   (without_redis (one_store 10)) (object_of by_name) None
                   (Some (answering companies)) empty_world empty_world empty_world
                   companies ltac:(vm_compute; reflexivity) eq_refl eq_refl).
Defined.

(** [wrap] with a redis client and the TTL 10: the cache key is added to the
    entity-kind set, the payload is written with [setex], and [primeCache]
    is not called. *)
Lemma wrap_registers_with_positive_ttl :
  trace_of (Queries.wrap (with_redis (one_store 10)) (object_of by_name) None
              (Some (answering companies))) empty_world
  = [EGet "gcq:Company|name=Acme||" (MkOptions (Some (TtlNum 10)) None None);
     EFetch by_name;
     EMulti [SADD "gcq:Company" "gcq:Company|name=Acme||";
             SETEX "gcq:Company|name=Acme||" (TtlNum 10) "[Company,Company]"]]
  ∧ redis_db (world_of (Queries.wrap (with_redis (one_store 10)) (object_of by_name) None
                          (Some (answering companies))) empty_world)
      !! "gcq:Company"
    = Some (RSet ["gcq:Company|name=Acme||"])
  ∧ filter (λ ev, is_prime ev = true)
      (trace_of (Queries.wrap (with_redis (one_store 10)) (object_of by_name) None
                   (Some (answering companies))) empty_world)
    = [].
Proof. repeat split; vm_compute; reflexivity. Qed.

End PrimeRouteWitnesses.

(** ** Under which kinds a primed query is registered *)

Section RedisFacts.
Import Mem.

Lemma exec_sadd (db : gmap string RedisVal) (set key : string) :
  db !! set = None ∨ (∃ members, db !! set = Some (RSet members)) →
  member_of (exec_command db (SADD set key)).1 set key
  ∧ ∀ other, other ≠ set → (exec_command db (SADD set key)).1 !! other = db !! other.
Proof.
  unfold member_of. intros [Hnone|[members Hset]]; simpl.
  - rewrite Hnone; simpl. split.
    + exists [key]. rewrite lookup_insert_eq. split; [done|]. apply list_elem_of_here.
    + intros other Hother. by rewrite lookup_insert_ne.
  - rewrite Hset. destruct (decide (key ∈ members)) as [Hin|Hout]; simpl.
    + split; [eauto|done].
    + split.
      * exists (members ++ [key]). rewrite lookup_insert_eq. split; [done|].
        apply elem_of_app. right. apply list_elem_of_here.
      * intros other Hother. by rewrite lookup_insert_ne.
Qed.

Lemma set_writes_only (key json : string) : writes_only key (SET key json).
Proof. intros db other Hother; simpl. by rewrite lookup_insert_ne. Qed.

Lemma write_command_writes_only (key : string) (options : Options) (json : string) :
  writes_only key (Queries.write_command key options json).
Proof.
  intros db other Hother. rewrite write_command_cases.
  destruct (opt_ttl options) as [[n|f]|]; [destruct n as [|p|p]|..]; simpl;
    try done; by rewrite lookup_insert_ne.
Qed.

Lemma exec_commands_two (db : gmap string RedisVal) (c1 c2 : Command) :
  (exec_commands db [c1; c2]).1 = (exec_command (exec_command db c1).1 c2).1.
Proof.
  cbn [exec_commands].
  destruct (exec_command db c1) as [db1 r1]; cbn [fst].
  by destruct (exec_command db1 c2).
Qed.

(** The transaction of a registration under one kind: afterwards the cache
    key is a member of the kind's set, and no other set has changed. *)
Lemma exec_registration (db : gmap string RedisVal) (set key : string) (write : Command) :
  writes_only key write →
  db !! set = None ∨ (∃ members, db !! set = Some (RSet members)) →
  set ≠ key →
  member_of (exec_commands db [SADD set key; write]).1 set key
  ∧ ∀ other, other ≠ set → other ≠ key →
      (exec_commands db [SADD set key; write]).1 !! other = db !! other.
Proof.
  intros Hwrite Hfree Hne.
  destruct (exec_sadd db set key Hfree) as [(members & Hset & Hin) Hothers].
  rewrite exec_commands_two.
  split.
  - exists members. by rewrite Hwrite.
  - intros other Hset' Hkey'. rewrite Hwrite by done. by apply Hothers.
Qed.

End RedisFacts.

Section Registration.
Import Mem.
Context {W : Type} {utils : Utils} {race : Race}.

(** C9, as the code has it.  When [wrap] or [get] primes a fetched result
    through the index, the transaction it issues registers the cache key
    under the first kind of the query, [query.kinds[0]], only: run on a
    redis database where the key of that kind's set is free or holds a set,
    and differs from the cache key, it leaves the cache key a member of
    that set, and it changes no other key than the set's and the cache
    key, so the sets of the other kinds of the query are not touched.  That
    transaction is the only call to the redis client. *)
Theorem registered_under_first_kind :
  (∀ (cache : Queries.Cache W) (query : Queries.QueryObject W)
     (args_options : option Options) (args_fetchHandler : option (Handler W))
     (client : RedisClient W) (w w1 w2 : W) (resultFetched : QueryData)
     (redisOptions : Options) (kind : string),
     cm_get (Queries.cacheManager cache)
       (Queries.queryToString cache (Queries.q_spec query))
       (Queries.call_options cache args_options) w = (Resolved None, w1) →
     Queries.fetch_call query args_fetchHandler w1 = (Resolved resultFetched, w2) →
     Queries.redisClient cache = Some client →
     Queries.redisOptions_of (Queries.call_options cache args_options) = Normal redisOptions →
     kinds_0 (Queries.q_spec query) = Some kind →
     ∃ commands,
       filter (λ ev, is_redis ev = true)
         (trace_of (Queries.wrap cache query args_options args_fetchHandler) w)
       = [EMulti commands]
       ∧ ∀ db : gmap string RedisVal,
           db !! (cachePrefix_queries (Queries.config cache) +:+ kind) = None
           ∨ (∃ members, db !! (cachePrefix_queries (Queries.config cache) +:+ kind)
                         = Some (RSet members)) →
           cachePrefix_queries (Queries.config cache) +:+ kind
           ≠ Queries.queryToString cache (Queries.q_spec query) →
           member_of (exec_commands db commands).1
             (cachePrefix_queries (Queries.config cache) +:+ kind)
             (Queries.queryToString cache (Queries.q_spec query))
           ∧ ∀ other,
               other ≠ cachePrefix_queries (Queries.config cache) +:+ kind →
               other ≠ Queries.queryToString cache (Queries.q_spec query) →
               (exec_commands db commands).1 !! other = db !! other)
  ∧ (∀ (cache : QueriesGet.Cache W) (query : Query) (args_options : option Options)
       (fetchHandler : Handler W) (manager : CacheManager W) (client : RedisClient W)
       (w w1 w2 : W) (fetchResult : QueryData) (kind : string),
       QueriesGet.cacheManager cache = Some manager →
       QueriesGet.cache_disabled (QueriesGet.config cache)
         (QueriesGet.get_ttl (QueriesGet.config cache))
         (QueriesGet.call_options cache args_options) = false →
       cm_get manager (QueriesGet.keyToString cache query)
         (QueriesGet.call_options cache args_options) w = (Resolved None, w1) →
       fetchHandler query w1 = (Resolved fetchResult, w2) →
       QueriesGet.redisClient cache = Some client →
       QueriesGet.ttlQueries (QueriesGet.config cache) = Some 0 →
       kinds_0 query = Some kind →
       ∃ commands,
         filter (λ ev, is_redis ev = true)
           (trace_of (QueriesGet.get cache query args_options fetchHandler) w)
         = [EMulti commands]
         ∧ ∀ db : gmap string RedisVal,
             db !! (cachePrefix_queries (QueriesGet.config cache) +:+ kind) = None
             ∨ (∃ members, db !! (cachePrefix_queries (QueriesGet.config cache) +:+ kind)
                           = Some (RSet members)) →
             cachePrefix_queries (QueriesGet.config cache) +:+ kind
             ≠ QueriesGet.keyToString cache query →
             member_of (exec_commands db commands).1
               (cachePrefix_queries (QueriesGet.config cache) +:+ kind)
               (QueriesGet.keyToString cache query)
             ∧ ∀ other,
                 other ≠ cachePrefix_queries (QueriesGet.config cache) +:+ kind →
                 other ≠ QueriesGet.keyToString cache query →
                 (exec_commands db commands).1 !! other = db !! other).
Proof.
  split.
  - intros * Hget Hfetch Hclient Hro Hkind.
    rewrite (wrap_miss_with_redis _ _ _ _ _ _ _ _ _ _ Hget Hfetch Hclient Hro).
    rewrite Hkind; simpl. eexists. split.
    + by destruct args_fetchHandler, (Queries.cacheManagerNoRedis cache).
    + intros db Hfree Hne. apply exec_registration; [|done..].
      apply write_command_writes_only.
  - intros * Hmanager Hon Hget Hfetch Hclient Hzero Hkind. unfold trace_of.
    rewrite (get_miss_index _ _ _ _ _ _ _ _ _ _ Hmanager Hon Hget Hfetch Hclient Hzero).
    rewrite Hkind; simpl. eexists. split.
    + reflexivity.
    + intros db Hfree Hne. apply exec_registration; [|done..].
      apply set_writes_only.
Qed.

End Registration.

Section RegistrationWitnesses.
Import Mem Scenario.

Lemma registered_under_first_kind_witness :
  (kinds_0 by_name = Some "Company"
   ∧ ∃ commands,
       filter (λ ev, is_redis ev = true)
         (trace_of (Queries.wrap (with_redis (one_store 0)) (object_of by_name)
                      None (Some (answering companies))) empty_world)
       = [EMulti commands]
       ∧ member_of (exec_commands ∅ commands).1 "gcq:Company" "gcq:Company|name=Acme||")
  ∧ (QueriesGet.ttlQueries (one_store 0) = Some 0
     ∧ ∃ commands,
         filter (λ ev, is_redis ev = true)
           (trace_of (QueriesGet.get (get_with_redis (one_store 0)) by_name None
                        (answering companies)) empty_world)
         = [EMulti commands]
         ∧ member_of (exec_commands ∅ commands).1 "gcq:Company" "gcq:Company|name=Acme||").
Proof.
  split.
  - split; [reflexivity|].
    destruct (proj1 (@registered_under_first_kind World utils_ref array_order)
                (with_redis (one_store 0)) (object_of by_name)
                None (Some (answering companies)) mem_redis empty_world empty_world
                empty_world companies (MkOptions (Some (TtlNum 0)) None None) "Company"
                ltac:(vm_compute; reflexivity) eq_refl eq_refl
                ltac:(vm_compute; reflexivity) eq_refl) as (commands & Hissued & Hdb).
    exists commands. split; [exact Hissued|].
    apply (Hdb ∅).
    + left. reflexivity.
    + intros Heq. vm_compute in Heq. discriminate Heq.
  - split; [vm_compute; reflexivity|].
    destruct (proj2 (@registered_under_first_kind World utils_ref array_order)
                (get_with_redis (one_store 0)) by_name None (answering companies)
                mem_manager mem_redis empty_world empty_world empty_world companies "Company"
                eq_refl ltac:(vm_compute; reflexivity) ltac:(vm_compute; reflexivity)
                eq_refl eq_refl ltac:(vm_compute; reflexivity) eq_refl)
      as (commands & Hissued & Hdb).
    exists commands. split; [exact Hissued|].
    apply (Hdb ∅).
    + left. reflexivity.
    + intros Heq. vm_compute in Heq. discriminate Heq.
Defined.

(** A query over the kinds [Company] and [User], primed through the index
    by [wrap] and by [get]: the cache key is in the set of [Company], and
    there is no set of [User]. *)
Lemma second_kind_not_registered :
  (redis_db (world_of (Queries.wrap (with_redis (one_store 0)) (object_of two_kinds) None
                         (Some (answering companies))) empty_world)
     !! "gcq:Company" = Some (RSet ["gcq:Company,User||name|"])
   ∧ redis_db (world_of (Queries.wrap (with_redis (one_store 0)) (object_of two_kinds) None
                           (Some (answering companies))) empty_world)
       !! "gcq:User" = None)
  ∧ (redis_db (world_of (QueriesGet.get (get_with_redis (one_store 0)) two_kinds None
                           (answering companies)) empty_world)
       !! "gcq:Company" = Some (RSet ["gcq:Company,User||name|"])
     ∧ redis_db (world_of (QueriesGet.get (get_with_redis (one_store 0)) two_kinds None
                             (answering companies)) empty_world)
         !! "gcq:User" = None).
Proof. repeat split; vm_compute; reflexivity. Qed.

End RegistrationWitnesses.

(** ** The index in part_000 *)

Section Part000Index.
Context {W : Type} {utils : Utils} {race : Race}.

(** X1. The revision of part_000 has no test of the redis client: without one, the
    executor of either promise throws when it reads a method of
    [cache.redisClient], so the promise is rejected with that [TypeError];
    no command is issued. *)
Theorem part000_index_without_client (cache : QueriesGet.Cache W)
    (queryKey : string) (value : QueryData) (entityKind : list (option string))
    (kind : string) (s : W * list Event) :
  QueriesGet.redisClient cache = None →
  (∃ msg, QueriesGet.cacheQueryEntityKind cache queryKey value entityKind s
          = (Rejected (TypeError msg), s))
  ∧ (∃ msg, QueriesGet.cleanQueriesEntityKind cache kind s = (Rejected (TypeError msg), s)).
Proof.
  intros Hnone. unfold QueriesGet.cacheQueryEntityKind, QueriesGet.cleanQueriesEntityKind.
  rewrite Hnone. split; eexists; reflexivity.
Qed.

(** X2. [cacheQueryEntityKind] of part_000 takes the kinds as its remaining
    arguments and no TTL: one transaction, an [sadd] per kind and the plain
    [set] of the payload. *)
Theorem part000_register_single_transaction (cache : QueriesGet.Cache W)
    (client : RedisClient W) (queryKey : string) (value : QueryData)
    (entityKind : list string) (w : W) :
  QueriesGet.redisClient cache = Some client →
  let commands :=
    map (λ kind, SADD (cachePrefix_queries (QueriesGet.config cache) +:+ kind) queryKey)
      entityKind
    ++ [SET queryKey (JSON_stringify value)] in
  run (QueriesGet.cacheQueryEntityKind cache queryKey value (Some <$> entityKind)) w
  = ((multi_exec client commands w).1,
     ((multi_exec client commands w).2, [EMulti commands])).
Proof.
  intros Hclient.
  assert (map (λ set, SADD set queryKey)
            (map (QueriesGet.concat_kind (cachePrefix_queries (QueriesGet.config cache)))
               (Some <$> entityKind))
          = map (λ kind, SADD (cachePrefix_queries (QueriesGet.config cache) +:+ kind) queryKey)
              entityKind) as Hsadds.
  { induction entityKind as [|kind rest IH]; simpl; [done|]. f_equal. exact IH. }
  intros commands. unfold QueriesGet.cacheQueryEntityKind. rewrite Hclient.
  async_unfold. rewrite Hsadds. fold commands.
  by destruct (multi_exec client commands w).
Qed.

(** X3. [cleanQueriesEntityKind] of part_000 takes one kind: it reads the
    members of that kind's set, then deletes the members and the set in one
    [del], and settles as the [del] does. *)
Theorem part000_invalidate_one_kind (cache : QueriesGet.Cache W)
    (client : RedisClient W) (entityKind : string) (members : option (list string))
    (w w1 : W) :
  let setQueries := cachePrefix_queries (QueriesGet.config cache) +:+ entityKind in
  QueriesGet.redisClient cache = Some client →
  smembers client setQueries w = (Resolved members, w1) →
  run (QueriesGet.cleanQueriesEntityKind cache entityKind) w
  = ((del client (default [] members ++ [setQueries]) w1).1,
     ((del client (default [] members ++ [setQueries]) w1).2,
      [ESmembers setQueries; EDel (default [] members ++ [setQueries])])).
Proof.
  intros setQueries Hclient Hmembers. unfold QueriesGet.cleanQueriesEntityKind.
  rewrite Hclient. async_unfold. fold setQueries. rewrite Hmembers; simpl.
  by destruct (del client _ w1).
Qed.

End Part000Index.

Section Part000IndexWitnesses.
Import Mem Scenario.

Lemma part000_index_without_client_witness :
  QueriesGet.redisClient (get_without_redis (one_store 0)) = None
  ∧ (∃ msg, QueriesGet.cacheQueryEntityKind (get_without_redis (one_store 0))
              "gcq:Company|||" companies [Some "Company"] (empty_world, [])
            = (Rejected (TypeError msg), (empty_world, [])))
  ∧ (∃ msg, QueriesGet.cleanQueriesEntityKind (get_without_redis (one_store 0)) "Company"
              (empty_world, [])
            = (Rejected (TypeError msg), (empty_world, []))).
Proof.
  split; [reflexivity|].
  exact (part000_index_without_client (get_without_redis (one_store 0)) "gcq:Company|||"
           companies [Some "Company"] "Company" (empty_world, []) eq_refl).
Defined.

Lemma part000_register_single_transaction_witness :
  QueriesGet.redisClient (get_with_redis (one_store 0)) = Some mem_redis
  ∧ trace_of (QueriesGet.cacheQueryEntityKind (get_with_redis (one_store 0)) "gcq:Company|||"
                companies (Some <$> ["User"; "Task"; "Post"])) empty_world
    = [EMulti [SADD "gcq:User" "gcq:Company|||";
               SADD "gcq:Task" "gcq:Company|||";
               SADD "gcq:Post" "gcq:Company|||";
               SET "gcq:Company|||" "[Company,Company]"]].
Proof.
  split; [reflexivity|]. unfold trace_of.
  rewrite (part000_register_single_transaction (get_with_redis (one_store 0)) mem_redis
             "gcq:Company|||" companies ["User"; "Task"; "Post"] empty_world eq_refl).
  vm_compute. reflexivity.
Defined.

Lemma part000_invalidate_one_kind_witness :
  QueriesGet.redisClient (get_with_redis (one_store 0)) = Some mem_redis
  ∧ smembers mem_redis "gcq:Company" indexed_world
    = (Resolved (Some ["gcq:Company|name=Acme||"; "gcq:Company|||"]), indexed_world)
  ∧ run (QueriesGet.cleanQueriesEntityKind (get_with_redis (one_store 0)) "Company")
      indexed_world
    = (Resolved 3,
       (empty_world,
        [ESmembers "gcq:Company";
         EDel ["gcq:Company|name=Acme||"; "gcq:Company|||"; "gcq:Company"]])).
Proof.
  assert (smembers mem_redis "gcq:Company" indexed_world
          = (Resolved (Some ["gcq:Company|name=Acme||"; "gcq:Company|||"]), indexed_world))
    as Hmembers by (vm_compute; reflexivity).
  split; [reflexivity|]. split; [exact Hmembers|].
  rewrite (part000_invalidate_one_kind (get_with_redis (one_store 0)) mem_redis "Company"
             (Some ["gcq:Company|name=Acme||"; "gcq:Company|||"]) indexed_world indexed_world
             eq_refl Hmembers).
  vm_compute. reflexivity.
Defined.

End Part000IndexWitnesses.

(** ** Two more runs *)

Section Runs.
Import Mem Scenario.

(** [wrap] with a memory store and a redis store: the TTL of the options is
    the per-store function, which is called with ['redis'] for the
    transaction. *)
Example wrap_two_stores_run :
  filter (λ ev, is_redis ev = true)
    (trace_of (Queries.wrap (with_redis two_stores) (object_of by_name) None
                 (Some (answering companies))) empty_world)
  = [EMulti [SADD "gcq:Company" "gcq:Company|name=Acme||";
             SETEX "gcq:Company|name=Acme||" (TtlNum 2468) "[Company,Company]"]].
Proof. vm_compute. reflexivity. Qed.

(** After [wrap] has registered a result, [cleanQueriesEntityKind] on the
    kind removes the cached result and the set. *)
Example register_then_invalidate_run :
  let registered :=
    world_of (Queries.wrap (with_redis (one_store 0)) (object_of by_name) None
                (Some (answering companies))) empty_world in
  redis_db registered
  = {[ "gcq:Company" := RSet ["gcq:Company|name=Acme||"];
       "gcq:Company|name=Acme||" := RString "[Company,Company]" ]}
  ∧ run (Queries.cleanQueriesEntityKind (with_redis (one_store 0)) (Queries.KOne "Company"))
      registered
    = (Resolved 2,
       (empty_world,
        [EMulti [SMEMBERS "gcq:Company"];
         EDel ["gcq:Company|name=Acme||"; "gcq:Company"]])).
Proof. split; vm_compute; reflexivity. Qed.

End Runs.

(** * Further properties *)

(** ** More on marshalKeys and unMarshalKeys *)

Section MarshalMore.

Lemma marshal_entity_idem (e : Entity) :
  marshal_entity (marshal_entity e) = marshal_entity e.
Proof.
  unfold marshal_entity, get_KEY; simpl. f_equal. apply insert_insert_eq.
Qed.

Lemma unmarshal_entity_idem (e : Entity) :
  unmarshal_entity (unmarshal_entity e) = unmarshal_entity e.
Proof.
  destruct (truthy (get_field e dsKey_prop)) eqn:Htruthy.
  - apply unmarshal_entity_no_sidecar. unfold unmarshal_entity. rewrite Htruthy; simpl.
    apply lookup_delete_eq.
  - assert (unmarshal_entity e = e) as -> by (unfold unmarshal_entity; by rewrite Htruthy).
    unfold unmarshal_entity. by rewrite Htruthy.
Qed.

(** X4. For an entity or an array of entities that each carry a native key
    and have no [__dsKey__] property of their own, [unMarshalKeys] undoes
    [marshalKeys] exactly; and each of the two transforms applied twice
    gives what it gives applied once. *)
Theorem marshal_roundtrip_exact :
  (∀ x : Entities,
     Forall (λ e, (∃ k, has_key k e) ∧ fields e !! dsKey_prop = None) (arrify_entities x) →
     unMarshalKeys (marshalKeys x) = x)
  ∧ (∀ x : Entities, marshalKeys (marshalKeys x) = marshalKeys x)
  ∧ (∀ x : Entities, unMarshalKeys (unMarshalKeys x) = unMarshalKeys x).
Proof.
  split; [|split].
  - intros x Hx.
    assert (∀ l, Forall (λ e, (∃ k, has_key k e) ∧ fields e !! dsKey_prop = None) l →
                 map unmarshal_entity (map marshal_entity l) = l) as Hall.
    { induction 1 as [|e l [[k Hk] Hplain] _ IH]; simpl; [done|].
      by rewrite (unmarshal_marshal_entity_id e k Hk Hplain), IH. }
    destruct x as [|e|l]; unfold unMarshalKeys, marshalKeys; simpl in *.
    + done.
    + specialize (Hall [e] Hx). simpl in Hall. by injection Hall as ->.
    + by rewrite Hall.
  - intros x. destruct x as [|e|l]; unfold marshalKeys; simpl; [done| |].
    + by rewrite marshal_entity_idem.
    + f_equal. rewrite map_map. apply map_ext. intros e. apply marshal_entity_idem.
  - intros x. destruct x as [|e|l]; unfold unMarshalKeys; simpl; [done| |].
    + by rewrite unmarshal_entity_idem.
    + f_equal. rewrite map_map. apply map_ext. intros e. apply unmarshal_entity_idem.
Qed.

(** X5. [marshalKeys] changes no property of an entity but [__dsKey__],
    which it sets to the native key even when the entity had such a
    property of its own.  [unMarshalKeys] changes no other property either;
    when [__dsKey__] holds a key it makes it the native key, whatever the
    entity carried under the symbol, and removes the property. *)
Theorem marshal_touches_sidecar_only (e : Entity) :
  (∀ name, name ≠ dsKey_prop → get_field (marshal_entity e) name = get_field e name)
  ∧ get_field (marshal_entity e) dsKey_prop = get_KEY e
  ∧ sym_KEY (marshal_entity e) = sym_KEY e
  ∧ (∀ name, name ≠ dsKey_prop → get_field (unmarshal_entity e) name = get_field e name)
  ∧ (∀ k, get_field e dsKey_prop = VKey k →
       sym_KEY (unmarshal_entity e) = Some (VKey k)
       ∧ fields (unmarshal_entity e) !! dsKey_prop = None).
Proof.
  split; [|split; [|split; [|split]]].
  - intros name Hname. unfold get_field, marshal_entity; simpl.
    by rewrite lookup_insert_ne.
  - apply marshal_entity_sidecar.
  - done.
  - intros name Hname. unfold unmarshal_entity.
    destruct (truthy (get_field e dsKey_prop)); simpl; [|done].
    unfold get_field; simpl. by rewrite lookup_delete_ne.
  - intros k Hk. unfold unmarshal_entity. rewrite Hk; simpl.
    split; [done|]. apply lookup_delete_eq.
Qed.

End MarshalMore.

Section MarshalMoreWitnesses.
Import Scenario Cases.

Lemma marshal_roundtrip_exact_witness :
  Forall (λ e, (∃ k, has_key k e) ∧ fields e !! dsKey_prop = None)
    (arrify_entities (EMany [acme; globex]))
  ∧ unMarshalKeys (marshalKeys (EMany [acme; globex])) = EMany [acme; globex].
Proof.
  assert (Forall (λ e, (∃ k, has_key k e) ∧ fields e !! dsKey_prop = None)
            (arrify_entities (EMany [acme; globex]))) as Hall.
  { repeat constructor; try (eexists; reflexivity); vm_compute; reflexivity. }
  split; [exact Hall|].
  exact (proj1 marshal_roundtrip_exact (EMany [acme; globex]) Hall).
Defined.

Lemma marshal_touches_sidecar_only_witness :
  (get_field acme_stored dsKey_prop = VKey (MkDsKey "Company" 1)
   ∧ sym_KEY (unmarshal_entity acme_stored) = Some (VKey (MkDsKey "Company" 1))
   ∧ fields (unmarshal_entity acme_stored) !! dsKey_prop = None)
  ∧ get_field (marshal_entity acme_own_sidecar) dsKey_prop = VKey (MkDsKey "Company" 1).
Proof.
  assert (get_field acme_stored dsKey_prop = VKey (MkDsKey "Company" 1)) as Hside
    by (vm_compute; reflexivity).
  split.
  - split; [exact Hside|].
    exact (proj2 (proj2 (proj2 (proj2 (marshal_touches_sidecar_only acme_stored))))
             (MkDsKey "Company" 1) Hside).
  - exact (proj1 (proj2 (marshal_touches_sidecar_only acme_own_sidecar))).
Defined.

End MarshalMoreWitnesses.

(** ** Failures and composition in the index (lib/queries.js) *)

Section IndexFailures.
Context {W : Type}.

(** A reply that cannot be spread makes the reduction throw, wherever it
    stands among the replies. *)
Lemma reduce_members_throws (response : list Reply) (r : Reply) (acc : list string) :
  r ∈ response → r ≠ RNull → Queries.spread r = None →
  Queries.reduce_members acc response = None.
Proof.
  intros Hin Hnull Hspread. revert acc.
  induction response as [|r' rest IH]; intros acc; [by apply elem_of_nil in Hin|].
  apply elem_of_cons in Hin as [<-|Hin].
  - destruct r; simpl in *; congruence.
  - destruct r'; simpl; try done; try (by apply IH).
Qed.

(** The run of a registration, for any third argument. *)
Lemma cacheQueryEntityKind_run {utils : Utils} (cache : Queries.Cache W)
    (client : RedisClient W) (queryKey : string) (value : QueryData)
    (_entityKind : Queries.KindArg) (options : Options) (w : W) :
  Queries.redisClient cache = Some client →
  let commands :=
    map (λ kind, SADD (cachePrefix_queries (Queries.config cache) +:+ kind) queryKey)
      (Queries.arrify_kinds _entityKind)
    ++ [Queries.write_command queryKey options (JSON_stringify value)] in
  run (Queries.cacheQueryEntityKind cache queryKey value _entityKind options) w
  = ((multi_exec client commands w).1, ((multi_exec client commands w).2, [EMulti commands])).
Proof.
  intros Hclient commands. unfold Queries.cacheQueryEntityKind. rewrite Hclient.
  async_unfold. rewrite map_map. fold commands. by destruct (multi_exec client commands w).
Qed.

(** The run of an invalidation whose transaction answers with replies that
    can be spread. *)
Lemma cleanQueriesEntityKind_run (cache : Queries.Cache W) (client : RedisClient W)
    (_entityKinds : Queries.KindArg) (response : list Reply) (setsMembers : list string)
    (w w1 : W) :
  let sets := map (λ kind, cachePrefix_queries (Queries.config cache) +:+ kind)
                (Queries.arrify_kinds _entityKinds) in
  let keysToDelete := Queries.Set_from (setsMembers ++ sets) in
  Queries.redisClient cache = Some client →
  multi_exec client (map SMEMBERS sets) w = (Resolved response, w1) →
  Queries.reduce_members [] response = Some setsMembers →
  run (Queries.cleanQueriesEntityKind cache _entityKinds) w
  = ((del client keysToDelete w1).1,
     ((del client keysToDelete w1).2, [EMulti (map SMEMBERS sets); EDel keysToDelete])).
Proof.
  intros sets keysToDelete Hclient Hexec Hreduce.
  unfold Queries.cleanQueriesEntityKind. rewrite Hclient.
  async_unfold. fold sets. rewrite Hexec; simpl. rewrite Hreduce; simpl.
  fold keysToDelete. by destruct (del client keysToDelete w1).
Qed.

(** X6. With a redis client, when the transaction that reads the sets is
    rejected, [cleanQueriesEntityKind] rejects with the same error and
    issues no [del].  When the transaction answers but one of its replies
    is an error or a number instead of the members of a set, it issues no
    [del] either, and the promise is never settled. *)
Theorem invalidate_stops_on_failed_read (cache : Queries.Cache W) (client : RedisClient W)
    (_entityKinds : Queries.KindArg) (w w1 : W) :
  let commands :=
    map SMEMBERS (map (λ kind, cachePrefix_queries (Queries.config cache) +:+ kind)
                    (Queries.arrify_kinds _entityKinds)) in
  Queries.redisClient cache = Some client →
  (∀ e, multi_exec client commands w = (Rejected e, w1) →
        run (Queries.cleanQueriesEntityKind cache _entityKinds) w
        = (Rejected e, (w1, [EMulti commands])))
  ∧ (∀ response,
       multi_exec client commands w = (Resolved response, w1) →
       (∃ msg, RError msg ∈ response) ∨ (∃ n, RInt n ∈ response) →
       run (Queries.cleanQueriesEntityKind cache _entityKinds) w
       = (Pending, (w1, [EMulti commands]))).
Proof.
  intros commands Hclient. split.
  - intros e Hexec. unfold Queries.cleanQueriesEntityKind. rewrite Hclient.
    async_unfold. fold commands. by rewrite Hexec.
  - intros response Hexec Hbad.
    assert (Queries.reduce_members [] response = None) as Hthrow.
    { destruct Hbad as [[msg Hin]|[n Hin]];
        by apply (reduce_members_throws _ _ _ Hin). }
    unfold Queries.cleanQueriesEntityKind. rewrite Hclient.
    async_unfold. fold commands. rewrite Hexec; simpl. by rewrite Hthrow.
Qed.

End IndexFailures.

Section IndexRoundTrip.
Import Mem.
Context {utils : Utils}.

Lemma del_keys_lookup (keys : list string) (db : gmap string RedisVal) (key : string) :
  (del_keys db keys).1 !! key = if decide (key ∈ keys) then None else db !! key.
Proof.
  revert db. induction keys as [|k rest IH]; intros db; cbn [del_keys].
  - cbn [fst]. case_decide as Hin; [by apply elem_of_nil in Hin|done].
  - specialize (IH (delete k db)).
    destruct (del_keys (delete k db) rest) as [db' n]; cbn [fst] in *. rewrite IH.
    repeat case_decide; try done.
    + exfalso. auto using list_elem_of_further.
    + match goal with H : key ∈ k :: rest |- _ => apply elem_of_cons in H as [->|?] end;
        [apply lookup_delete_eq|done].
    + apply lookup_delete_ne. intros ->. auto using list_elem_of_here.
Qed.

Lemma del_keys_count_nonneg (keys : list string) (db : gmap string RedisVal) :
  0 ≤ (del_keys db keys).2.
Proof.
  revert db. induction keys as [|k rest IH]; intros db; simpl; [done|].
  specialize (IH (delete k db)).
  destruct (del_keys (delete k db) rest) as [db' n]; simpl in *.
  destruct (db !! k); lia.
Qed.

Lemma del_keys_count_pos (keys : list string) (db : gmap string RedisVal) (key : string) :
  key ∈ keys → is_Some (db !! key) → 1 ≤ (del_keys db keys).2.
Proof.
  revert db. induction keys as [|k rest IH]; intros db Hin Hsome; simpl.
  - by apply elem_of_nil in Hin.
  - pose proof (del_keys_count_nonneg rest (delete k db)) as Hnonneg.
    specialize (IH (delete k db)).
    destruct (del_keys (delete k db) rest) as [db' n]; simpl in *.
    destruct (decide (key = k)) as [->|Hne].
    + destruct Hsome as [v ->]. lia.
    + apply elem_of_cons in Hin as [?|Hin]; [done|].
      assert (1 ≤ n) by (apply IH; [done|by rewrite lookup_delete_ne]).
      destruct (db !! k); lia.
Qed.

(** The members of a kind's set after a registration: the cache key and
    those it had. *)
Lemma exec_registration_members (db : gmap string RedisVal) (set key : string)
    (write : Command) (old : list string) :
  writes_only key write →
  set ≠ key →
  db !! set = None ∧ old = [] ∨ db !! set = Some (RSet old) →
  ∃ members,
    (exec_commands db [SADD set key; write]).1 !! set = Some (RSet members)
    ∧ ∀ m, m ∈ members ↔ m = key ∨ m ∈ old.
Proof.
  intros Hwrite Hne Hset. rewrite exec_commands_two, Hwrite by done.
  destruct Hset as [[Hnone ->]|Hold]; simpl.
  - rewrite Hnone; simpl. exists [key]. rewrite lookup_insert_eq. split; [done|].
    intros m. rewrite list_elem_of_singleton, elem_of_nil. tauto.
  - rewrite Hold. destruct (decide (key ∈ old)) as [Hin|Hout]; simpl.
    + exists old. split; [done|]. intros m. split; [tauto|]. by intros [->|?].
    + exists (old ++ [key]). rewrite lookup_insert_eq. split; [done|].
      intros m. rewrite elem_of_app, list_elem_of_singleton. tauto.
Qed.

(** A registration followed by the invalidation of its kind. *)
Lemma registration_invalidated (cache : Queries.Cache World)
    (queryKey : string) (value : QueryData) (kind : string) (options : Options)
    (old : list string) (w : World) :
  let set := cachePrefix_queries (Queries.config cache) +:+ kind in
  let w1 :=
    world_of (Queries.cacheQueryEntityKind cache queryKey value (Queries.KOne kind) options) w in
  let w2 := world_of (Queries.cleanQueriesEntityKind cache (Queries.KOne kind)) w1 in
  Queries.redisClient cache = Some mem_redis →
  set ≠ queryKey →
  redis_db w !! set = None ∧ old = [] ∨ redis_db w !! set = Some (RSet old) →
  member_of (redis_db w1) set queryKey
  ∧ redis_db w2 !! queryKey = None
  ∧ redis_db w2 !! set = None
  ∧ (∀ m, m ∈ old → redis_db w2 !! m = None)
  ∧ (∀ other, other ≠ set → other ≠ queryKey → other ∉ old →
       redis_db w2 !! other = redis_db w1 !! other)
  ∧ ∃ count, outcome_of (Queries.cleanQueriesEntityKind cache (Queries.KOne kind)) w1
             = Resolved count
             ∧ 1 ≤ count.
Proof.
  intros set w1 w2 Hclient Hne Hset.
  destruct (exec_registration_members (redis_db w) set queryKey
              (Queries.write_command queryKey options (JSON_stringify value)) old
              (write_command_writes_only _ _ _) Hne Hset) as (members & Hmembers & Hin).
  assert (redis_db w1
          = (exec_commands (redis_db w)
               [SADD set queryKey;
                Queries.write_command queryKey options (JSON_stringify value)]).1) as Hw1.
  { subst w1. unfold world_of.
    rewrite (cacheQueryEntityKind_run cache mem_redis _ _ _ _ _ Hclient).
    cbn [Queries.arrify_kinds map app fst snd mem_redis multi_exec]. fold set.
    by destruct (exec_commands _ _). }
  rewrite <- Hw1 in Hmembers.
  assert (redis_db w2
          = (del_keys (redis_db w1) (Queries.Set_from (members ++ [set]))).1
          ∧ outcome_of (Queries.cleanQueriesEntityKind cache (Queries.KOne kind)) w1
            = Resolved (del_keys (redis_db w1) (Queries.Set_from (members ++ [set]))).2)
    as [Hw2 Hcount].
  { subst w2. unfold world_of, outcome_of.
    rewrite (cleanQueriesEntityKind_run cache mem_redis (Queries.KOne kind)
               [RArray members] members w1 w1 Hclient).
    - cbn [Queries.arrify_kinds map app fst snd mem_redis del]. fold set.
      by destruct (del_keys _ _).
    - cbn [Queries.arrify_kinds map mem_redis multi_exec exec_commands exec_command].
      fold set. rewrite Hmembers. cbn. f_equal. by destruct (world_of _ w).
    - done. }
  assert (∀ key, key ∈ Queries.Set_from (members ++ [set]) ↔ key ∈ members ∨ key = set)
    as Hkeys.
  { intros key. by rewrite Set_from_elem, elem_of_app, list_elem_of_singleton. }
  split; [by exists members; split; [|apply Hin; left]|].
  rewrite Hw2. repeat split.
  - rewrite del_keys_lookup, decide_True; [done|]. apply Hkeys. left. apply Hin. by left.
  - rewrite del_keys_lookup, decide_True; [done|]. apply Hkeys. by right.
  - intros m Hm. rewrite del_keys_lookup, decide_True; [done|]. apply Hkeys. left.
    apply Hin. by right.
  - intros other Hset' Hkey' Hold. rewrite del_keys_lookup, decide_False; [done|].
    intros [Hmem| ->]%Hkeys; [|done]. apply Hin in Hmem as [->|?]; done.
  - exists (del_keys (redis_db w1) (Queries.Set_from (members ++ [set]))).2.
    split; [exact Hcount|].
    apply (del_keys_count_pos _ _ set); [apply Hkeys; by right|by rewrite Hmembers].
Qed.

(** X7. On a redis that runs the commands as documented:
    [cacheQueryEntityKind] of a cache key under a kind, followed by
    [cleanQueriesEntityKind] of that kind, leaves neither the cache key nor
    the kind's set nor any key the set held before, resolves with a count
    of at least one, and leaves every other key as the registration left
    it.  The set's key must be free or hold a set, and differ from the
    cache key. *)
Theorem register_then_invalidate (cache : Queries.Cache World)
    (queryKey : string) (value : QueryData) (kind : string) (options : Options)
    (old : list string) (w : World) :
  let set := cachePrefix_queries (Queries.config cache) +:+ kind in
  let w1 :=
    world_of (Queries.cacheQueryEntityKind cache queryKey value (Queries.KOne kind) options) w in
  let w2 := world_of (Queries.cleanQueriesEntityKind cache (Queries.KOne kind)) w1 in
  Queries.redisClient cache = Some mem_redis →
  set ≠ queryKey →
  redis_db w !! set = None ∧ old = [] ∨ redis_db w !! set = Some (RSet old) →
  member_of (redis_db w1) set queryKey
  ∧ redis_db w2 !! queryKey = None
  ∧ redis_db w2 !! set = None
  ∧ (∀ m, m ∈ old → redis_db w2 !! m = None)
  ∧ (∀ other, other ≠ set → other ≠ queryKey → other ∉ old →
       redis_db w2 !! other = redis_db w1 !! other)
  ∧ ∃ count, outcome_of (Queries.cleanQueriesEntityKind cache (Queries.KOne kind)) w1
             = Resolved count
             ∧ 1 ≤ count.
Proof. apply registration_invalidated. Qed.

End IndexRoundTrip.

Section IndexMoreWitnesses.
Import Mem Scenario Cases.

Lemma invalidate_stops_on_failed_read_witness :
  Queries.redisClient (with_broken_redis (one_store 0)) = Some broken_redis
  ∧ run (Queries.cleanQueriesEntityKind (with_broken_redis (one_store 0))
           (Queries.KMany ["Company"; "User"])) indexed_world
    = (Rejected (Error "Connection is closed."),
       (indexed_world, [EMulti [SMEMBERS "gcq:Company"; SMEMBERS "gcq:User"]]))
  ∧ run (Queries.cleanQueriesEntityKind (with_redis (one_store 0))
           (Queries.KMany ["User"; "Company"])) clashing_world
    = (Pending, (clashing_world, [EMulti [SMEMBERS "gcq:User"; SMEMBERS "gcq:Company"]])).
Proof.
  split; [reflexivity|]. split.
  - by_instance
      (proj1 (invalidate_stops_on_failed_read (with_broken_redis (one_store 0)) broken_redis
                (Queries.KMany ["Company"; "User"]) indexed_world indexed_world eq_refl)
         (Error "Connection is closed.") eq_refl).
  - assert (RError wrong_type ∈ [RArray []; RError wrong_type]) as Hbad by (right; left).
    by_instance
      (proj2 (invalidate_stops_on_failed_read (with_redis (one_store 0)) mem_redis
                (Queries.KMany ["User"; "Company"]) clashing_world clashing_world eq_refl)
         [RArray []; RError wrong_type] ltac:(vm_compute; reflexivity)
         (or_introl (ex_intro _ wrong_type Hbad))).
Defined.

Lemma register_then_invalidate_witness :
  (Queries.redisClient (with_redis (one_store 0)) = Some mem_redis
   ∧ "gcq:Company" ≠ "gcq:Company|orders=name||"
   ∧ redis_db indexed_world !! "gcq:Company"
     = Some (RSet ["gcq:Company|name=Acme||"; "gcq:Company|||"]))
  ∧ ∀ w1 w2,
      w1 = world_of (Queries.cacheQueryEntityKind (with_redis (one_store 0))
                       "gcq:Company|orders=name||" companies (Queries.KOne "Company")
                       no_options) indexed_world →
      w2 = world_of (Queries.cleanQueriesEntityKind (with_redis (one_store 0))
                       (Queries.KOne "Company")) w1 →
      member_of (redis_db w1) "gcq:Company" "gcq:Company|orders=name||"
      ∧ redis_db w2 !! "gcq:Company|orders=name||" = None
      ∧ redis_db w2 !! "gcq:Company" = None
      ∧ redis_db w2 !! "gcq:Company|name=Acme||" = None.
Proof.
  assert ("gcq:Company" ≠ "gcq:Company|orders=name||") as Hne by done.
  assert (redis_db indexed_world !! "gcq:Company"
          = Some (RSet ["gcq:Company|name=Acme||"; "gcq:Company|||"])) as Hset
    by (vm_compute; reflexivity).
  split; [done|]. intros w1 w2 -> ->.
  destruct (@register_then_invalidate utils_ref (with_redis (one_store 0))
              "gcq:Company|orders=name||" companies "Company" no_options
              ["gcq:Company|name=Acme||"; "gcq:Company|||"] indexed_world
              eq_refl Hne (or_intror Hset)) as (Hmember & Hkey & Hkind & Hold & _).
  split; [exact Hmember|]. split; [exact Hkey|]. split; [exact Hkind|].
  apply Hold. left.
Defined.

End IndexMoreWitnesses.

(** ** How [wrap] settles after the fetch (lib/queries.js) *)

Section WrapSettles.
Context {W : Type} {utils : Utils} {race : Race}.
Variables (cache : Queries.Cache W) (query : Queries.QueryObject W).
Variables (args_options : option Options) (args_fetchHandler : option (Handler W)).

Let queryKey : string := Queries.queryToString cache (Queries.q_spec query).
Let options : Options := Queries.call_options cache args_options.
Let fetched : Event := Queries.fetch_event query args_fetchHandler.

(** X8. [wrap] after a miss and a fetch that resolves, with a redis
    client: the transaction of the index is issued and, when there is a
    cache manager without redis, [primeCache] is called as well, whatever
    the transaction does.  The promise resolves with the fetched result,
    as the handler gave it, only when every write resolves; a write that is
    rejected rejects it, and when both are rejected the error is that of
    the rejection that happened first. *)
Theorem wrap_settles_after_writes (client : RedisClient W) (w w1 w2 w3 : W)
    (resultFetched : QueryData) (redisOptions : Options) (r1 : Outcome (list Reply)) :
  let commands :=
    map (λ kind, SADD (cachePrefix_queries (Queries.config cache) +:+ kind) queryKey)
      (option_list (kinds_0 (Queries.q_spec query)))
    ++ [Queries.write_command queryKey redisOptions
          (JSON_stringify (Queries.marshalled resultFetched))] in
  cm_get (Queries.cacheManager cache) queryKey options w = (Resolved None, w1) →
  Queries.fetch_call query args_fetchHandler w1 = (Resolved resultFetched, w2) →
  Queries.redisClient cache = Some client →
  Queries.redisOptions_of options = Normal redisOptions →
  multi_exec client commands w2 = (r1, w3) →
  (Queries.cacheManagerNoRedis cache = None →
   run (Queries.wrap cache query args_options args_fetchHandler) w
   = (match r1 with
      | Resolved _ => Resolved resultFetched
      | Rejected e => Rejected e
      | Pending => Pending
      end,
      (w3, [EGet queryKey options; fetched; EMulti commands])))
  ∧ (∀ (noRedis : string) (r2 : Outcome QueryData) (w4 : W),
       Queries.cacheManagerNoRedis cache = Some noRedis →
       Queries.primeCache cache queryKey resultFetched (with_cacheManager options noRedis) w3
       = (r2, w4) →
       run (Queries.wrap cache query args_options args_fetchHandler) w
       = (match r1, r2 with
          | Rejected e1, Rejected e2 => Rejected (if earlier e1 e2 then e1 else e2)
          | Rejected e, _ => Rejected e
          | _, Rejected e => Rejected e
          | Resolved _, Resolved _ => Resolved resultFetched
          | _, _ => Pending
          end,
          (w4, [EGet queryKey options; fetched; EMulti commands;
                EPrime queryKey resultFetched (with_cacheManager options noRedis)]))).
Proof.
  intros commands Hget Hfetch Hclient Hro Hexec.
  assert (Queries.arrify_kinds (Queries.kind_arg (kinds_0 (Queries.q_spec query)))
          = option_list (kinds_0 (Queries.q_spec query)))
    as Hkinds by (by destruct (kinds_0 (Queries.q_spec query))).
  split.
  - intros Hnone. unfold Queries.wrap. async_unfold. fold queryKey options fetched.
    rewrite Hget; simpl. rewrite Hfetch; simpl. rewrite Hclient, Hro; simpl.
    unfold Queries.cacheQueryEntityKind. rewrite Hclient. async_unfold.
    rewrite Hkinds, map_map, Hnone; simpl. fold commands. rewrite Hexec.
    by destruct r1.
  - intros noRedis r2 w4 Hsome Hprime. unfold Queries.wrap. async_unfold.
    fold queryKey options fetched.
    rewrite Hget; simpl. rewrite Hfetch; simpl. rewrite Hclient, Hro; simpl.
    unfold Queries.cacheQueryEntityKind. rewrite Hclient. async_unfold.
    rewrite Hkinds, map_map, Hsome; simpl. fold commands. rewrite Hexec.
    destruct r1; simpl; rewrite Hprime; by destruct r2.
Qed.

(** X9. [wrap] after a miss and a fetch that resolves, with a redis
    client and a TTL that is a function: when the function throws for the
    store [redis], the promise is rejected with what it threw, and nothing
    is written: the cache read and the fetch are the only calls. *)
Theorem wrap_ttl_resolver_throws (client : RedisClient W) (w w1 w2 : W)
    (resultFetched : QueryData) (f : string → Completion (option Z)) (e : JsError) :
  cm_get (Queries.cacheManager cache) queryKey options w = (Resolved None, w1) →
  Queries.fetch_call query args_fetchHandler w1 = (Resolved resultFetched, w2) →
  Queries.redisClient cache = Some client →
  opt_ttl options = Some (TtlFn f) →
  f "redis" = Throw e →
  run (Queries.wrap cache query args_options args_fetchHandler) w
  = (Rejected e, (w2, [EGet queryKey options; fetched])).
Proof.
  intros Hget Hfetch Hclient Httl Hthrow.
  unfold Queries.wrap. async_unfold. fold queryKey options fetched.
  rewrite Hget; simpl. rewrite Hfetch; simpl. rewrite Hclient.
  unfold Queries.redisOptions_of. by rewrite Httl, Hthrow.
Qed.

(** X10. [wrap] on a query that names no kind, after a miss and a fetch
    that resolves, with a redis client and no cache manager without redis:
    the transaction holds the write of the payload alone.  The cache key
    is added to no set. *)
Theorem wrap_kindless_query_unindexed (client : RedisClient W) (w w1 w2 : W)
    (resultFetched : QueryData) (redisOptions : Options) :
  kinds (Queries.q_spec query) = [] →
  cm_get (Queries.cacheManager cache) queryKey options w = (Resolved None, w1) →
  Queries.fetch_call query args_fetchHandler w1 = (Resolved resultFetched, w2) →
  Queries.redisClient cache = Some client →
  Queries.redisOptions_of options = Normal redisOptions →
  Queries.cacheManagerNoRedis cache = None →
  trace_of (Queries.wrap cache query args_options args_fetchHandler) w
  = [EGet queryKey options; fetched;
     EMulti [Queries.write_command queryKey redisOptions
               (JSON_stringify (Queries.marshalled resultFetched))]].
Proof.
  intros Hkinds Hget Hfetch Hclient Hro Hnone. unfold queryKey, options, fetched.
  rewrite (wrap_miss_with_redis cache query args_options args_fetchHandler w w1 w2 client
             resultFetched redisOptions Hget Hfetch Hclient Hro).
  unfold kinds_0. by rewrite Hkinds, Hnone.
Qed.

End WrapSettles.

Section WrapSettlesWitnesses.
Import Mem Scenario Cases.

Lemma wrap_settles_after_writes_witness :
  run (Queries.wrap (with_broken_redis (one_store 10)) (object_of by_name) None None)
    empty_world
  = (Rejected (Error "Connection is closed."),
     (empty_world,
      [EGet "gcq:Company|name=Acme||" (MkOptions (Some (TtlNum 10)) None None);
       ERun by_name;
       EMulti [SADD "gcq:Company" "gcq:Company|name=Acme||";
               SETEX "gcq:Company|name=Acme||" (TtlNum 10) "[Company,Company]"]]))
  ∧ outcome_of (Queries.wrap (with_redis_and_memory (one_store 10)) (object_of by_name)
                  None None) empty_world
    = Resolved companies
  ∧ outcome_of (Queries.wrap (race := array_order) (with_broken_stores (one_store 10))
                  (object_of by_name) None None) empty_world
    = Rejected (Error "Connection is closed.")
  ∧ outcome_of (Queries.wrap (race := reverse_order) (with_broken_stores (one_store 10))
                  (object_of by_name) None None) empty_world
    = Rejected (Error "prime failed").
Proof.
  split; [|split; [|split]].
  - by_instance
      (proj1 (@wrap_settles_after_writes World utils_ref array_order
                (with_broken_redis (one_store 10)) (object_of by_name) None None
                broken_redis empty_world empty_world empty_world empty_world companies
                (MkOptions (Some (TtlNum 10)) None None)
                (Rejected (Error "Connection is closed."))
                ltac:(vm_compute; reflexivity) ltac:(vm_compute; reflexivity)
                eq_refl ltac:(vm_compute; reflexivity) ltac:(vm_compute; reflexivity))
         eq_refl).
  - unfold outcome_of.
    rewrite (proj2 (@wrap_settles_after_writes World utils_ref array_order
                      (with_redis_and_memory (one_store 10)) (object_of by_name) None None
                      mem_redis empty_world empty_world empty_world
                      (multi_exec mem_redis
                         [SADD "gcq:Company" "gcq:Company|name=Acme||";
                          SETEX "gcq:Company|name=Acme||" (TtlNum 10) "[Company,Company]"]
                         empty_world).2
                      companies (MkOptions (Some (TtlNum 10)) None None)
                      (Resolved [RInt 1; RStatus "OK"])
                      ltac:(vm_compute; reflexivity) ltac:(vm_compute; reflexivity)
                      eq_refl ltac:(vm_compute; reflexivity) ltac:(vm_compute; reflexivity))
               "memory" (Resolved companies)
               (mem_prime "gcq:Company|name=Acme||" companies
                  (MkOptions (Some (TtlNum 10)) None (Some "memory"))
                  (multi_exec mem_redis
                     [SADD "gcq:Company" "gcq:Company|name=Acme||";
                      SETEX "gcq:Company|name=Acme||" (TtlNum 10) "[Company,Company]"]
                     empty_world).2).2
               eq_refl ltac:(vm_compute; reflexivity)).
    reflexivity.
  - unfold outcome_of.
    rewrite (proj2 (@wrap_settles_after_writes World utils_ref array_order
                      (with_broken_stores (one_store 10)) (object_of by_name) None None
                      broken_redis empty_world empty_world empty_world empty_world
                      companies (MkOptions (Some (TtlNum 10)) None None)
                      (Rejected (Error "Connection is closed."))
                      ltac:(vm_compute; reflexivity) ltac:(vm_compute; reflexivity)
                      eq_refl ltac:(vm_compute; reflexivity) ltac:(vm_compute; reflexivity))
               "memory" (Rejected (Error "prime failed")) empty_world
               eq_refl ltac:(vm_compute; reflexivity)).
    reflexivity.
  - unfold outcome_of.
    rewrite (proj2 (@wrap_settles_after_writes World utils_ref reverse_order
                      (with_broken_stores (one_store 10)) (object_of by_name) None None
                      broken_redis empty_world empty_world empty_world empty_world
                      companies (MkOptions (Some (TtlNum 10)) None None)
                      (Rejected (Error "Connection is closed."))
                      ltac:(vm_compute; reflexivity) ltac:(vm_compute; reflexivity)
                      eq_refl ltac:(vm_compute; reflexivity) ltac:(vm_compute; reflexivity))
               "memory" (Rejected (Error "prime failed")) empty_world
               eq_refl ltac:(vm_compute; reflexivity)).
    reflexivity.
Defined.

Lemma wrap_ttl_resolver_throws_witness :
  ∃ msg,
    run (Queries.wrap (with_redis two_stores_no_redis_ttl) (object_of by_name) None None)
      empty_world
    = (Rejected (TypeError msg),
       (empty_world,
        [EGet "gcq:Company|name=Acme||"
           (Queries.call_options (with_redis two_stores_no_redis_ttl) None);
         ERun by_name])).
Proof.
  destruct (opt_ttl (@Queries.call_options World utils_ref
                       (with_redis two_stores_no_redis_ttl) None))
    as [[n|f]|] eqn:Httl; [discriminate| |discriminate].
  assert (f "redis" = Throw (TypeError "Cannot read property of undefined")) as Hthrow.
  { injection Httl as <-. vm_compute. reflexivity. }
  exists "Cannot read property of undefined".
  exact (@wrap_ttl_resolver_throws World utils_ref array_order
           (with_redis two_stores_no_redis_ttl) (object_of by_name) None None
           mem_redis empty_world empty_world empty_world companies f
           (TypeError "Cannot read property of undefined")
           eq_refl eq_refl eq_refl Httl Hthrow).
Defined.

Lemma wrap_kindless_query_unindexed_witness :
  trace_of (Queries.wrap (with_redis (one_store 0)) (object_of no_kind) None None) empty_world
  = [EGet "gcq:|||" (MkOptions (Some (TtlNum 0)) None None);
     ERun no_kind;
     EMulti [SET "gcq:|||" "[Company,Company]"]].
Proof.
  by_instance
    (@wrap_kindless_query_unindexed World utils_ref array_order
       (with_redis (one_store 0)) (object_of no_kind) None None
       mem_redis empty_world empty_world empty_world companies
       (MkOptions (Some (TtlNum 0)) None None)
       eq_refl ltac:(vm_compute; reflexivity) ltac:(vm_compute; reflexivity)
       eq_refl ltac:(vm_compute; reflexivity) eq_refl).
Defined.

End WrapSettlesWitnesses.

(** ** More on [get] (src/unnamed/part_000) *)

Section GetMore.
Context {W : Type} {utils : Utils} {race : Race}.
Variables (cache : QueriesGet.Cache W) (query : Query).
Variables (args_options : option Options) (fetchHandler : Handler W).

Let queryKey : string := QueriesGet.keyToString cache query.
Let options : Options := QueriesGet.call_options cache args_options.

(** The switch of lines 65-70 is off when none of its tests holds; with
    several stores the TTL is a function, which is never [-1]. *)
Lemma cache_enabled_cases :
  (1 < stores_length (QueriesGet.config cache))%nat
  ∨ ttl_queries (QueriesGet.config cache) ≠ -1 →
  opt_cache (default no_options args_options) ≠ Some false →
  global (QueriesGet.config cache) = true
  ∨ opt_cache (default no_options args_options) = Some true →
  QueriesGet.cache_disabled (QueriesGet.config cache)
    (QueriesGet.get_ttl (QueriesGet.config cache)) options = false.
Proof.
  intros Httl Hcache Hglobal. unfold QueriesGet.cache_disabled.
  assert (QueriesGet.is_never_cache (QueriesGet.get_ttl (QueriesGet.config cache)) = false)
    as ->.
  { unfold QueriesGet.get_ttl. case_decide as Hmany; [done|].
    destruct Httl as [?|Hne]; [done|]. simpl. by apply Z.eqb_neq. }
  subst options. unfold QueriesGet.call_options; simpl.
  rewrite (bool_decide_eq_false_2 _ Hcache); simpl.
  destruct Hglobal as [->|Htrue]; [done|].
  rewrite (bool_decide_eq_true_2 _ Htrue). apply andb_false_r.
Qed.

(** X11. [get] with a cache manager reads the cache first, under the
    query's cache key and with the TTL it resolved, when the options do
    not say [cache: false], caching is on globally or the options say
    [cache: true], and the TTL is not the number -1.  With several stores
    the last condition always holds: a TTL of -1 for queries, globally and
    in every store, does not turn caching off. *)
Theorem get_reads_cache_when_enabled (manager : CacheManager W) (w : W) :
  QueriesGet.cacheManager cache = Some manager →
  (1 < stores_length (QueriesGet.config cache))%nat
  ∨ ttl_queries (QueriesGet.config cache) ≠ -1 →
  opt_cache (default no_options args_options) ≠ Some false →
  global (QueriesGet.config cache) = true
  ∨ opt_cache (default no_options args_options) = Some true →
  opt_ttl options = Some (QueriesGet.get_ttl (QueriesGet.config cache))
  ∧ ∃ rest, trace_of (QueriesGet.get cache query args_options fetchHandler) w
            = EGet queryKey options :: rest.
Proof.
  intros Hmanager Httl Hcache Hglobal.
  pose proof (cache_enabled_cases Httl Hcache Hglobal) as Hon.
  split; [done|].
  destruct (cm_get manager queryKey options w) as [[[cached|]|e|] w1] eqn:Hget.
  - exists []. unfold trace_of, queryKey, options.
    by rewrite (get_hit cache query args_options fetchHandler manager w w1 cached
                  Hmanager Hon Hget).
  - destruct (get_miss_fetches cache query args_options fetchHandler manager w w1
                Hmanager Hon Hget) as (rest & Htrace & _).
    eauto.
  - exists []. unfold QueriesGet.get. fold options queryKey.
    rewrite Hmanager, Hon. async_unfold. by rewrite Hget.
  - exists []. unfold QueriesGet.get. fold options queryKey.
    rewrite Hmanager, Hon. async_unfold. by rewrite Hget.
Qed.

(** X12. [get] after a miss and a fetch that resolves.  On the path of
    the index the promise resolves with the fetched result when the
    transaction resolves, is rejected with the transaction's error when it
    is rejected, and the world is the one the transaction leaves.  On the
    path of [primeCache] the promise settles as [primeCache] does: its
    value is what [primeCache] resolves with. *)
Theorem get_settles_after_write (manager : CacheManager W) (w w1 w2 : W)
    (fetchResult : QueryData) :
  QueriesGet.cacheManager cache = Some manager →
  QueriesGet.cache_disabled (QueriesGet.config cache)
    (QueriesGet.get_ttl (QueriesGet.config cache)) options = false →
  cm_get manager queryKey options w = (Resolved None, w1) →
  fetchHandler query w1 = (Resolved fetchResult, w2) →
  (∀ (client : RedisClient W) (r : Outcome (list Reply)) (w3 : W),
     QueriesGet.redisClient cache = Some client →
     QueriesGet.ttlQueries (QueriesGet.config cache) = Some 0 →
     multi_exec client
       [SADD (QueriesGet.concat_kind (cachePrefix_queries (QueriesGet.config cache))
                (kinds_0 query)) queryKey;
        SET queryKey (JSON_stringify fetchResult)] w2 = (r, w3) →
     outcome_of (QueriesGet.get cache query args_options fetchHandler) w
     = match r with
       | Resolved _ => Resolved fetchResult
       | Rejected e => Rejected e
       | Pending => Pending
       end
     ∧ world_of (QueriesGet.get cache query args_options fetchHandler) w = w3)
  ∧ (∀ (r : Outcome QueryData) (w3 : W),
       QueriesGet.redisClient cache = None
       ∨ QueriesGet.ttlQueries (QueriesGet.config cache) ≠ Some 0 →
       QueriesGet.primeCache cache queryKey fetchResult options w2 = (r, w3) →
       outcome_of (QueriesGet.get cache query args_options fetchHandler) w = r
       ∧ world_of (QueriesGet.get cache query args_options fetchHandler) w = w3).
Proof.
  intros Hmanager Hon Hget Hfetch. split.
  - intros client r w3 Hclient Hzero Hexec. unfold outcome_of, world_of.
    rewrite (get_miss_index cache query args_options fetchHandler manager client w w1 w2
               fetchResult Hmanager Hon Hget Hfetch Hclient Hzero).
    fold queryKey. by rewrite Hexec.
  - intros r w3 Hprime Hcall. unfold outcome_of, world_of.
    rewrite (get_miss_prime cache query args_options fetchHandler manager w w1 w2
               fetchResult Hmanager Hon Hget Hfetch Hprime).
    fold queryKey options. by rewrite Hcall.
Qed.

(** X13. [get] on a query that names no kind, on the path of the index:
    [query.kinds[0]] is [undefined], and the cache key is added to the set
    named by the prefix followed by the text [undefined]. *)
Theorem get_kindless_query_set_undefined (manager : CacheManager W) (client : RedisClient W)
    (w w1 w2 : W) (fetchResult : QueryData) :
  kinds query = [] →
  QueriesGet.cacheManager cache = Some manager →
  QueriesGet.cache_disabled (QueriesGet.config cache)
    (QueriesGet.get_ttl (QueriesGet.config cache)) options = false →
  cm_get manager queryKey options w = (Resolved None, w1) →
  fetchHandler query w1 = (Resolved fetchResult, w2) →
  QueriesGet.redisClient cache = Some client →
  QueriesGet.ttlQueries (QueriesGet.config cache) = Some 0 →
  trace_of (QueriesGet.get cache query args_options fetchHandler) w
  = [EGet queryKey options; EFetch query;
     EMulti [SADD (cachePrefix_queries (QueriesGet.config cache) +:+ "undefined") queryKey;
             SET queryKey (JSON_stringify fetchResult)]].
Proof.
  intros Hkinds Hmanager Hon Hget Hfetch Hclient Hzero. unfold trace_of.
  rewrite (get_miss_index cache query args_options fetchHandler manager client w w1 w2
             fetchResult Hmanager Hon Hget Hfetch Hclient Hzero).
  unfold kinds_0. by rewrite Hkinds.
Qed.

End GetMore.

Section GetMoreWitnesses.
Import Mem Scenario Cases.

Lemma get_reads_cache_when_enabled_witness :
  ((1 < stores_length two_stores_never)%nat
   ∧ ttl_queries two_stores_never = -1
   ∧ ∃ rest, trace_of (QueriesGet.get (get_with_redis two_stores_never) by_name None
                         (answering companies)) cached_world
             = EGet "gcq:Company|name=Acme||"
                 (QueriesGet.call_options (get_with_redis two_stores_never) None) :: rest)
  ∧ (global global_off = false
     ∧ ∃ rest, trace_of (QueriesGet.get (get_with_redis global_off) by_name
                           (Some (MkOptions None (Some true) None))
                           (answering companies)) cached_world
               = EGet "gcq:Company|name=Acme||"
                   (MkOptions (Some (TtlNum 5)) (Some true) None) :: rest).
Proof.
  assert (1 < stores_length two_stores_never)%nat as Hmany by (vm_compute; reflexivity).
  split.
  - split; [exact Hmany|]. split; [reflexivity|].
    exact (proj2 (@get_reads_cache_when_enabled World utils_ref
                    (get_with_redis two_stores_never) by_name None (answering companies)
                    mem_manager cached_world eq_refl (or_introl Hmany)
                    ltac:(discriminate) (or_introl eq_refl))).
  - split; [reflexivity|].
    assert (ttl_queries global_off ≠ -1) as Httl by (vm_compute; discriminate).
    exact (proj2 (@get_reads_cache_when_enabled World utils_ref
                    (get_with_redis global_off) by_name
                    (Some (MkOptions None (Some true) None)) (answering companies)
                    mem_manager cached_world eq_refl (or_intror Httl)
                    ltac:(discriminate) (or_intror eq_refl))).
Defined.

Lemma get_settles_after_write_witness :
  outcome_of (QueriesGet.get (get_with_redis (one_store 0)) by_name None
                (answering companies)) clashing_world
  = Resolved companies
  ∧ redis_db (world_of (QueriesGet.get (get_with_redis (one_store 0)) by_name None
                          (answering companies)) clashing_world)
      !! "gcq:Company|name=Acme||"
    = Some (RString "[Company,Company]")
  ∧ outcome_of (QueriesGet.get (get_without_redis (one_store 0)) by_name None
                  (answering companies)) empty_world
    = Resolved companies.
Proof.
  pose proof (@get_settles_after_write World utils_ref
                (get_with_redis (one_store 0)) by_name None (answering companies)
                mem_manager clashing_world clashing_world clashing_world companies
                eq_refl ltac:(vm_compute; reflexivity) ltac:(vm_compute; reflexivity)
                ltac:(vm_compute; reflexivity)) as [Hindex _].
  pose proof (@get_settles_after_write World utils_ref
                (get_without_redis (one_store 0)) by_name None (answering companies)
                mem_manager empty_world empty_world empty_world companies
                eq_refl ltac:(vm_compute; reflexivity) ltac:(vm_compute; reflexivity)
                ltac:(vm_compute; reflexivity)) as [_ Hprime].
  destruct (Hindex mem_redis (Resolved [RError wrong_type; RStatus "OK"])
              (with_db clashing_world
                 (<["gcq:Company|name=Acme||" := RString "[Company,Company]"]>
                    (redis_db clashing_world)))
              eq_refl ltac:(vm_compute; reflexivity) ltac:(vm_compute; reflexivity))
    as [Hout Hworld].
  destruct (Hprime (Resolved companies)
              (mem_prime "gcq:Company|name=Acme||" companies
                 (MkOptions (Some (TtlNum 0)) None None) empty_world).2
              (or_introl eq_refl) ltac:(vm_compute; reflexivity))
    as [Hout' _].
  split; [exact Hout|]. split; [|exact Hout'].
  rewrite Hworld. vm_compute. reflexivity.
Defined.

Lemma get_kindless_query_set_undefined_witness :
  trace_of (QueriesGet.get (get_with_redis (one_store 0)) no_kind None (answering companies))
    empty_world
  = [EGet "gcq:|||" (MkOptions (Some (TtlNum 0)) None None);
     EFetch no_kind;
     EMulti [SADD "gcq:undefined" "gcq:|||"; SET "gcq:|||" "[Company,Company]"]].
Proof.
  by_instance
    (@get_kindless_query_set_undefined World utils_ref
       (get_with_redis (one_store 0)) no_kind None (answering companies)
       mem_manager mem_redis empty_world empty_world empty_world companies
       eq_refl eq_refl ltac:(vm_compute; reflexivity) ltac:(vm_compute; reflexivity)
       ltac:(vm_compute; reflexivity) eq_refl ltac:(vm_compute; reflexivity)).
Defined.

End GetMoreWitnesses.

(** ** [set] and [mset] (lib/queries.js) *)

Section PromiseAll.
Context {W : Type} {race : Race}.

(** Handlers that each make their calls however they settle: joined, all
    the calls are made, in the order of the array. *)
Lemma promise_all_trace (cacheHandlers : list (Async W unit)) (calls : list (list Event)) :
  Forall2 (λ h evs, ∀ s, (h s).2.2 = s.2 ++ evs) cacheHandlers calls →
  ∀ s, (promise_all cacheHandlers s).2.2 = s.2 ++ concat calls.
Proof.
  induction 1 as [|h evs hs calls Hh _ IH]; intros s; simpl.
  - by rewrite app_nil_r.
  - specialize (Hh s). destruct (h s) as [r1 s1]. specialize (IH s1).
    destruct (promise_all hs s1) as [r2 s2]. simpl in *.
    by rewrite IH, Hh, app_assoc.
Qed.

Lemma promise_all_resolves (cacheHandlers : list (Async W unit)) :
  Forall (λ h, ∀ s, (h s).1 = Resolved tt) cacheHandlers →
  ∀ s, (promise_all cacheHandlers s).1 = Resolved tt.
Proof.
  induction 1 as [|h hs Hh _ IH]; intros s; simpl; [done|].
  specialize (Hh s). destruct (h s) as [r1 s1]. specialize (IH s1).
  destruct (promise_all hs s1) as [r2 s2]. simpl in *. by rewrite Hh, IH.
Qed.

(** A rejection of the first handler rejects the join: with its error when
    no other rejection happened before it. *)
Lemma promise_all_first_rejects (h : Async W unit) (rest : list (Async W unit))
    (e : JsError) (s : W * list Event) :
  (h s).1 = Rejected e →
  (∃ e', (promise_all (h :: rest) s).1 = Rejected e')
  ∧ ((∀ e', earlier e e' = true) → (promise_all (h :: rest) s).1 = Rejected e).
Proof.
  intros Hh; simpl. destruct (h s) as [r1 s1].
  destruct (promise_all rest s1) as [r2 s2]. simpl in *. rewrite Hh.
  destruct r2 as [?|e2|]; simpl; [by eauto| |by eauto].
  split; [by eauto|]. intros Hfirst. by rewrite Hfirst.
Qed.

(** [Promise.all(cacheHandlers).then(() => response)] *)
Lemma then_response {A} (cacheHandlers : list (Async W unit)) (response : A)
    (s : W * list Event) :
  (_ ← promise_all cacheHandlers; resolve response) s
  = (match (promise_all cacheHandlers s).1 with
     | Resolved _ => Resolved response
     | Rejected e => Rejected e
     | Pending => Pending
     end, (promise_all cacheHandlers s).2).
Proof.
  unfold mbind, async_bind, then_, resolve.
  by destruct (promise_all cacheHandlers s) as [[?|?|] s'].
Qed.

End PromiseAll.

Section MsetWithRedis.
Import QueriesStore.
Context {W R D : Type} {utils : Utils} {race : Race}.
Variables (cache : Queries.Cache W) (store : Store W R D) (client : RedisClient W).
Variables (_options redisOptions : Options).

(** The transaction of one pair. *)
Let commands_of (keyValue : Query * QueryData) : list Command :=
  map (λ kind, SADD (cachePrefix_queries (Queries.config cache) +:+ kind)
                 (Queries.queryToString cache keyValue.1))
    (option_list (kinds_0 keyValue.1))
  ++ [Queries.write_command (Queries.queryToString cache keyValue.1) redisOptions
        (JSON_stringify (Queries.marshalled keyValue.2))].

Lemma registered_run (query : Query) (queryData : QueryData) (s : W * list Event) :
  Queries.redisClient cache = Some client →
  started (Queries.cacheQueryEntityKind cache (Queries.queryToString cache query)
             (Queries.marshalled queryData) (Queries.kind_arg (kinds_0 query)) redisOptions) s
  = (match (multi_exec client (commands_of (query, queryData)) s.1).1 with
     | Resolved _ => Resolved tt
     | Rejected e => Rejected e
     | Pending => Pending
     end,
     ((multi_exec client (commands_of (query, queryData)) s.1).2,
      s.2 ++ [EMulti (commands_of (query, queryData))])).
Proof.
  intros Hclient. unfold Queries.cacheQueryEntityKind. rewrite Hclient.
  unfold started, perform, commands_of; simpl.
  assert (Queries.arrify_kinds (Queries.kind_arg (kinds_0 query)) = option_list (kinds_0 query))
    as -> by (by destruct (kinds_0 query)).
  rewrite map_map.
  by destruct (multi_exec client _ s.1) as [[?|?|] w'].
Qed.

Lemma primed_run (queryKey : string) (value : QueryData) (options : Options)
    (s : W * list Event) :
  started (perform (EPrime queryKey value options)
             (Queries.primeCache cache queryKey value options)) s
  = (match (Queries.primeCache cache queryKey value options s.1).1 with
     | Resolved _ => Resolved tt
     | Rejected e => Rejected e
     | Pending => Pending
     end,
     ((Queries.primeCache cache queryKey value options s.1).2,
      s.2 ++ [EPrime queryKey value options])).
Proof.
  unfold started, perform.
  by destruct (Queries.primeCache cache queryKey value options s.1) as [[?|?|] w'].
Qed.

(** The calls of the handlers of one pair in [msetWithKind]. *)
Let calls_of (keyValue : Query * QueryData) : list (list Event) :=
  [EMulti (commands_of keyValue)]
  :: match Queries.cacheManagerNoRedis cache with
     | Some noRedis =>
         [[EPrime (Queries.queryToString cache keyValue.1) (Queries.marshalled keyValue.2)
             (with_cacheManager _options noRedis)]]
     | None => []
     end.

Lemma handlers_of_calls (keysValues : list (Query * QueryData)) :
  Queries.redisClient cache = Some client →
  Forall2 (λ h evs, ∀ s, (h s).2.2 = s.2 ++ evs)
    (flat_map (handlers_of cache _options redisOptions) keysValues)
    (flat_map calls_of keysValues).
Proof.
  intros Hclient. induction keysValues as [|[query queryData] rest IH]; simpl; [constructor|].
  constructor.
  - intros s. by rewrite (registered_run query queryData s Hclient).
  - unfold calls_of at 1; simpl.
    destruct (Queries.cacheManagerNoRedis cache) as [noRedis|]; simpl; [|exact IH].
    constructor; [|exact IH]. intros s. by rewrite primed_run.
Qed.

Lemma msetWithKind_trace (keysValues : list (Query * QueryData)) (w : W) :
  Queries.redisClient cache = Some client →
  trace_of (msetWithKind cache keysValues _options redisOptions) w
  = concat (flat_map calls_of keysValues).
Proof.
  intros Hclient. unfold trace_of, run, msetWithKind. rewrite then_response; simpl.
  by rewrite (promise_all_trace _ _ (handlers_of_calls keysValues Hclient)).
Qed.

Lemma setWithKind_trace (query : Query) (queryData : QueryData) (w : W) :
  Queries.redisClient cache = Some client →
  trace_of (setWithKind cache query queryData _options redisOptions) w
  = EMulti (commands_of (query, queryData))
    :: match Queries.cacheManagerNoRedis cache with
       | Some noRedis =>
           [EPrime (Queries.queryToString cache query) queryData
              (with_cacheManager _options noRedis)]
       | None => []
       end.
Proof.
  intros Hclient. unfold trace_of, run, setWithKind. rewrite then_response; simpl.
  destruct (Queries.cacheManagerNoRedis cache) as [noRedis|].
  - rewrite (promise_all_trace _
               [[EMulti (commands_of (query, queryData))];
                [EPrime (Queries.queryToString cache query) queryData
                   (with_cacheManager _options noRedis)]]); [done|].
    repeat constructor; intros s.
    + by rewrite (registered_run query queryData s Hclient).
    + by rewrite primed_run.
  - rewrite (promise_all_trace _ [[EMulti (commands_of (query, queryData))]]); [done|].
    repeat constructor; intros s. by rewrite (registered_run query queryData s Hclient).
Qed.

Lemma handlers_of_resolve (keysValues : list (Query * QueryData)) :
  Queries.redisClient cache = Some client →
  (∀ commands w, ∃ replies, (multi_exec client commands w).1 = Resolved replies) →
  (∀ key value options w, ∃ v, (Queries.primeCache cache key value options w).1 = Resolved v) →
  Forall (λ h, ∀ s, (h s).1 = Resolved tt)
    (flat_map (handlers_of cache _options redisOptions) keysValues).
Proof.
  intros Hclient Hexec Hprime.
  induction keysValues as [|[query queryData] rest IH]; simpl; [constructor|].
  constructor.
  - intros s. rewrite (registered_run query queryData s Hclient); simpl.
    by destruct (Hexec (commands_of (query, queryData)) s.1) as [replies ->].
  - destruct (Queries.cacheManagerNoRedis cache) as [noRedis|]; simpl; [|exact IH].
    constructor; [|exact IH]. intros s. rewrite primed_run; simpl.
    by destruct (Hprime (Queries.queryToString cache query) (Queries.marshalled queryData)
                   (with_cacheManager _options noRedis) s.1) as [v ->].
Qed.

Lemma msetWithKind_resolves (keysValues : list (Query * QueryData)) (w : W) :
  Queries.redisClient cache = Some client →
  (∀ commands w, ∃ replies, (multi_exec client commands w).1 = Resolved replies) →
  (∀ key value options w, ∃ v, (Queries.primeCache cache key value options w).1 = Resolved v) →
  outcome_of (msetWithKind cache keysValues _options redisOptions) w
  = Resolved (map snd keysValues).
Proof.
  intros Hclient Hexec Hprime. unfold outcome_of, run, msetWithKind.
  rewrite then_response; simpl.
  by rewrite (promise_all_resolves _ (handlers_of_resolve keysValues Hclient Hexec Hprime)).
Qed.

Lemma setWithKind_resolves (query : Query) (queryData : QueryData) (w : W) :
  Queries.redisClient cache = Some client →
  (∀ commands w, ∃ replies, (multi_exec client commands w).1 = Resolved replies) →
  (∀ key value options w, ∃ v, (Queries.primeCache cache key value options w).1 = Resolved v) →
  outcome_of (setWithKind cache query queryData _options redisOptions) w
  = Resolved [queryData].
Proof.
  intros Hclient Hexec Hprime. unfold outcome_of, run, setWithKind.
  rewrite then_response; simpl.
  rewrite promise_all_resolves; [done|].
  assert (∀ s, (started (Queries.cacheQueryEntityKind cache (Queries.queryToString cache query)
                           (Queries.marshalled queryData) (Queries.kind_arg (kinds_0 query))
                           redisOptions) s).1 = Resolved tt) as Hregistered.
  { intros s. rewrite (registered_run query queryData s Hclient); simpl.
    by destruct (Hexec (commands_of (query, queryData)) s.1) as [replies ->]. }
  destruct (Queries.cacheManagerNoRedis cache) as [noRedis|]; repeat constructor; try done.
  intros s. rewrite primed_run; simpl.
  by destruct (Hprime (Queries.queryToString cache query) queryData
                 (with_cacheManager _options noRedis) s.1) as [v ->].
Qed.

Lemma msetWithKind_first_rejects (keyValue : Query * QueryData)
    (rest : list (Query * QueryData)) (e : JsError) (w : W) :
  Queries.redisClient cache = Some client →
  (multi_exec client (commands_of keyValue) w).1 = Rejected e →
  (∃ e', outcome_of (msetWithKind cache (keyValue :: rest) _options redisOptions) w
         = Rejected e')
  ∧ ((∀ e', earlier e e' = true) →
     outcome_of (msetWithKind cache (keyValue :: rest) _options redisOptions) w = Rejected e).
Proof.
  intros Hclient Hexec. unfold outcome_of, run, msetWithKind.
  rewrite then_response; cbn [fst flat_map handlers_of app].
  destruct keyValue as [query queryData].
  match goal with
  | |- context [promise_all (?h :: ?hs) ?s] =>
      destruct (promise_all_first_rejects h hs e s) as [[e' He'] Hfirst]
  end.
  { rewrite (registered_run query queryData _ Hclient); simpl. by rewrite Hexec. }
  split.
  - exists e'. by rewrite He'.
  - intros Hrace. by rewrite (Hfirst Hrace).
Qed.

Lemma setWithKind_first_rejects (query : Query) (queryData : QueryData) (e : JsError) (w : W) :
  Queries.redisClient cache = Some client →
  (multi_exec client (commands_of (query, queryData)) w).1 = Rejected e →
  (∃ e', outcome_of (setWithKind cache query queryData _options redisOptions) w = Rejected e')
  ∧ ((∀ e', earlier e e' = true) →
     outcome_of (setWithKind cache query queryData _options redisOptions) w = Rejected e).
Proof.
  intros Hclient Hexec. unfold outcome_of, run, setWithKind.
  rewrite then_response; cbn [fst].
  assert (∀ rest,
            (∃ e', (promise_all
                      (started (Queries.cacheQueryEntityKind cache
                                  (Queries.queryToString cache query)
                                  (Queries.marshalled queryData)
                                  (Queries.kind_arg (kinds_0 query)) redisOptions) :: rest)
                      (w, [])).1 = Rejected e')
            ∧ ((∀ e', earlier e e' = true) →
               (promise_all
                  (started (Queries.cacheQueryEntityKind cache
                              (Queries.queryToString cache query)
                              (Queries.marshalled queryData)
                              (Queries.kind_arg (kinds_0 query)) redisOptions) :: rest)
                  (w, [])).1 = Rejected e)) as Hall.
  { intros rest. apply promise_all_first_rejects.
    rewrite (registered_run query queryData _ Hclient); simpl. by rewrite Hexec. }
  destruct (Queries.cacheManagerNoRedis cache) as [noRedis|].
  - destruct (Hall [started (perform (EPrime (Queries.queryToString cache query) queryData
                                        (with_cacheManager _options noRedis))
                               (Queries.primeCache cache (Queries.queryToString cache query)
                                  queryData (with_cacheManager _options noRedis)))])
      as [[e' He'] Hfirst].
    split; [exists e'; by rewrite He'|]. intros Hrace. by rewrite (Hfirst Hrace).
  - destruct (Hall []) as [[e' He'] Hfirst].
    split; [exists e'; by rewrite He'|]. intros Hrace. by rewrite (Hfirst Hrace).
Qed.

End MsetWithRedis.

Section Mset.
Import QueriesStore.
Context {W R D : Type} {utils : Utils} {race : Race}.

Lemma indexed_calls {A B} (p : Async W A) (f : A → B) (w : W) :
  calls_in (then_value (indexed p) f) w = map EIndexed (trace_of p w).
Proof.
  unfold calls_in, then_value, indexed, trace_of.
  by destruct (run p w) as [r [w' trace]].
Qed.

Lemma indexed_outcome {A B} (p : Async W A) (f : A → B) (w : W) :
  outcome_in (then_value (indexed p) f) w
  = match outcome_of p w with
    | Resolved a => Resolved (f a)
    | Rejected e => Rejected e
    | Pending => Pending
    end.
Proof.
  unfold outcome_in, then_value, indexed, outcome_of.
  by destruct (run p w) as [r [w' trace]].
Qed.

(** X14. [mset] with a redis client: for each pair, in the order given,
    one transaction that adds the cache key of the query to the set of the
    query's first kind and writes the payload with its keys marshalled
    and, when there is a cache manager without redis, one [primeCache]
    under the same cache key.  What is primed is the data as given when
    there is one pair, and the data with its keys marshalled when there
    are several.  The calls are made however the earlier ones settle. *)
Theorem mset_registers_each_pair (cache : Queries.Cache W) (store : Store W R D)
    (client : RedisClient W) (keysValues : list (Query * QueryData))
    (args_options : option Options) (redisOptions : Options) (w : W) :
  let options :=
    with_ttl no_options
      (getTTL (Queries.config cache) (default no_options args_options) "queries") in
  let commands_of (keyValue : Query * QueryData) :=
    map (λ kind, SADD (cachePrefix_queries (Queries.config cache) +:+ kind)
                   (Queries.queryToString cache keyValue.1))
      (option_list (kinds_0 keyValue.1))
    ++ [Queries.write_command (Queries.queryToString cache keyValue.1) redisOptions
          (JSON_stringify (Queries.marshalled keyValue.2))] in
  let primed (keyValue : Query * QueryData) :=
    if decide (length keysValues = 1%nat) then keyValue.2
    else Queries.marshalled keyValue.2 in
  let calls_of (keyValue : Query * QueryData) :=
    EIndexed (EMulti (commands_of keyValue))
    :: match Queries.cacheManagerNoRedis cache with
       | Some noRedis =>
           [EIndexed (EPrime (Queries.queryToString cache keyValue.1) (primed keyValue)
                        (with_cacheManager options noRedis))]
       | None => []
       end in
  Queries.redisClient cache = Some client →
  Queries.redisOptions_of options = Normal redisOptions →
  ∃ p, mset cache store keysValues args_options = Normal p
       ∧ calls_in p w = flat_map calls_of keysValues.
Proof.
  intros options commands_of primed calls_of Hclient Hro.
  unfold mset. fold options. rewrite Hclient, Hro.
  assert (∀ l : list (Query * QueryData),
            map EIndexed
              (concat (flat_map
                 (λ keyValue,
                    [EMulti (commands_of keyValue)]
                    :: match Queries.cacheManagerNoRedis cache with
                       | Some noRedis =>
                           [[EPrime (Queries.queryToString cache keyValue.1)
                               (Queries.marshalled keyValue.2)
                               (with_cacheManager options noRedis)]]
                       | None => []
                       end) l))
            = flat_map
                (λ keyValue,
                   EIndexed (EMulti (commands_of keyValue))
                   :: match Queries.cacheManagerNoRedis cache with
                      | Some noRedis =>
                          [EIndexed (EPrime (Queries.queryToString cache keyValue.1)
                                       (Queries.marshalled keyValue.2)
                                       (with_cacheManager options noRedis))]
                      | None => []
                      end) l) as Hflat.
  { induction l as [|kv l IH]; simpl; [done|]. rewrite <- IH.
    destruct (Queries.cacheManagerNoRedis cache); simpl; by rewrite ?map_app. }
  destruct keysValues as [|[query queryData] [|keyValue rest]].
  - eexists; split; [reflexivity|]. rewrite indexed_calls.
    by rewrite (msetWithKind_trace cache client options redisOptions [] w Hclient).
  - eexists; split; [reflexivity|]. rewrite indexed_calls.
    rewrite (setWithKind_trace cache client options redisOptions query queryData w Hclient).
    subst calls_of primed; simpl.
    by destruct (Queries.cacheManagerNoRedis cache).
  - eexists; split; [reflexivity|]. rewrite indexed_calls.
    rewrite (msetWithKind_trace cache client options redisOptions _ w Hclient).
    rewrite Hflat. by subst calls_of primed.
Qed.

(** X15. [mset] with a redis client.  When the redis client resolves
    every transaction and [primeCache] every call, the promise resolves
    with the array of the data of the pairs, in the order given and as
    given: the keys are not marshalled in it.  When the transaction of the
    first pair is rejected, the promise is rejected: with the error of that
    transaction when no other rejection happened before it. *)
Theorem mset_resolves_values (cache : Queries.Cache W) (store : Store W R D)
    (client : RedisClient W) (keysValues : list (Query * QueryData))
    (args_options : option Options) (redisOptions : Options) (w : W) :
  let options :=
    with_ttl no_options
      (getTTL (Queries.config cache) (default no_options args_options) "queries") in
  let commands_of (keyValue : Query * QueryData) :=
    map (λ kind, SADD (cachePrefix_queries (Queries.config cache) +:+ kind)
                   (Queries.queryToString cache keyValue.1))
      (option_list (kinds_0 keyValue.1))
    ++ [Queries.write_command (Queries.queryToString cache keyValue.1) redisOptions
          (JSON_stringify (Queries.marshalled keyValue.2))] in
  Queries.redisClient cache = Some client →
  Queries.redisOptions_of options = Normal redisOptions →
  ∃ p, mset cache store keysValues args_options = Normal p
       ∧ ((∀ commands w', ∃ replies, (multi_exec client commands w').1 = Resolved replies) →
          (∀ key value options' w',
             ∃ v, (Queries.primeCache cache key value options' w').1 = Resolved v) →
          outcome_in p w = Resolved (SetValues (map snd keysValues)))
       ∧ (∀ keyValue rest e,
            keysValues = keyValue :: rest →
            (multi_exec client (commands_of keyValue) w).1 = Rejected e →
            (∃ e', outcome_in p w = Rejected e')
            ∧ ((∀ e', earlier e e' = true) → outcome_in p w = Rejected e)).
Proof.
  intros options commands_of Hclient Hro.
  unfold mset. fold options. rewrite Hclient, Hro.
  destruct keysValues as [|[query queryData] [|keyValue' rest']].
  - eexists; split; [reflexivity|]. split; [|done].
    intros Hexec Hprime. rewrite indexed_outcome.
    by rewrite (msetWithKind_resolves cache client options redisOptions [] w
                  Hclient Hexec Hprime).
  - eexists; split; [reflexivity|]. split.
    + intros Hexec Hprime. rewrite indexed_outcome.
      by rewrite (setWithKind_resolves cache client options redisOptions query queryData w
                    Hclient Hexec Hprime).
    + intros keyValue rest e [= <- <-] Hexec. rewrite indexed_outcome.
      destruct (setWithKind_first_rejects cache client options redisOptions query queryData
                  e w Hclient Hexec) as [[e' He'] Hfirst].
      split; [exists e'; by rewrite He'|]. intros Hrace. by rewrite (Hfirst Hrace).
  - eexists; split; [reflexivity|]. split.
    + intros Hexec Hprime. rewrite indexed_outcome.
      by rewrite (msetWithKind_resolves cache client options redisOptions _ w
                    Hclient Hexec Hprime).
    + intros keyValue rest e [= <- <-] Hexec. rewrite indexed_outcome.
      destruct (msetWithKind_first_rejects cache client options redisOptions
                  (query, queryData) (keyValue' :: rest') e w Hclient Hexec)
        as [[e' He'] Hfirst].
      split; [exists e'; by rewrite He'|]. intros Hrace. by rewrite (Hfirst Hrace).
Qed.

(** X16. [mset] without a redis client makes one call.  With one pair it
    is [cache.set] of the cache key of the query and the data, and the
    promise is the one [cache.set] returns.  Otherwise it is [cache.mset]
    of every cache key with its data, in the order given, and the promise
    resolves, when [cache.mset] resolves, with the array of the data,
    whatever [cache.mset] resolved with.  The data is passed as given,
    and the options passed hold the TTL alone: every other option of the
    caller is dropped. *)
Theorem mset_without_redis (cache : Queries.Cache W) (store : Store W R D)
    (keysValues : list (Query * QueryData)) (args_options : option Options) (w : W) :
  let options :=
    with_ttl no_options
      (getTTL (Queries.config cache) (default no_options args_options) "queries") in
  let args := map (λ kv, (Queries.queryToString cache kv.1, kv.2)) keysValues in
  Queries.redisClient cache = None →
  opt_cache options = None
  ∧ opt_cacheManager options = None
  ∧ ∃ p, mset cache store keysValues args_options = Normal p
         ∧ (∀ query queryData,
              keysValues = [(query, queryData)] →
              p w
              = (match (cache_set store (Queries.queryToString cache query) queryData
                          options w).1 with
                 | Resolved r => Resolved (SetValue r)
                 | Rejected e => Rejected e
                 | Pending => Pending
                 end,
                 ((cache_set store (Queries.queryToString cache query) queryData options w).2,
                  [ECacheSet (Queries.queryToString cache query) queryData options])))
         ∧ (length keysValues ≠ 1%nat →
            p w
            = (match (cache_mset store args options w).1 with
               | Resolved _ => Resolved (SetValues (map snd keysValues))
               | Rejected e => Rejected e
               | Pending => Pending
               end,
               ((cache_mset store args options w).2, [ECacheMset args options]))).
Proof.
  intros options args Hclient. split; [done|]. split; [done|].
  unfold mset. fold options. rewrite Hclient. fold args.
  assert (map snd args = map snd keysValues) as Hvalues.
  { subst args. rewrite map_map. by apply map_ext. }
  destruct keysValues as [|[query queryData] [|keyValue rest]]; simpl in *.
  - eexists; split; [reflexivity|]. split; [done|]. intros _.
    unfold then_value, call. by destruct (cache_mset store args options w) as [[?|?|] w'].
  - eexists; split; [reflexivity|]. split; [|done].
    intros query' queryData' [= <- <-]. unfold then_value, call.
    by destruct (cache_set store _ queryData options w) as [[?|?|] w'].
  - eexists; split; [reflexivity|]. split; [done|]. intros _.
    unfold then_value, call. rewrite Hvalues.
    by destruct (cache_mset store args options w) as [[?|?|] w'].
Qed.

(** X17. [mset] calls a TTL that is a function only when there is a redis
    client, and calls it before it returns a promise: when the function
    throws for the store [redis], [mset] itself throws what it threw, and
    no call is made.  Without a redis client [mset] returns a promise. *)
Theorem mset_ttl_resolver_throws (cache : Queries.Cache W) (store : Store W R D)
    (keysValues : list (Query * QueryData)) (args_options : option Options)
    (f : string → Completion (option Z)) (e : JsError) :
  getTTL (Queries.config cache) (default no_options args_options) "queries" = Some (TtlFn f) →
  f "redis" = Throw e →
  (is_Some (Queries.redisClient cache) →
   mset cache store keysValues args_options = Throw e)
  ∧ (Queries.redisClient cache = None →
     ∃ p, mset cache store keysValues args_options = Normal p).
Proof.
  intros Httl Hthrow. unfold mset. rewrite Httl. split.
  - intros [client ->]. unfold Queries.redisOptions_of; simpl. by rewrite Hthrow.
  - intros ->. destruct keysValues as [|[query queryData] [|keyValue rest]]; simpl; eauto.
Qed.

End Mset.

(** ** [get], [mget] and [del] (lib/queries.js) *)

Section Mget.
Import QueriesStore.
Context {W R D : Type} {utils : Utils} {race : Race}.

Lemma unmarshal_entity_falsy (e : Entity) :
  truthy (get_field e dsKey_prop) = false → unmarshal_entity e = e.
Proof. intros Hfalsy. unfold unmarshal_entity. by rewrite Hfalsy. Qed.

Lemma unmarshal_entity_truthy (e : Entity) :
  truthy (get_field e dsKey_prop) = true → unmarshal_entity e ≠ e.
Proof.
  intros Htruthy Heq.
  assert (fields (unmarshal_entity e) !! dsKey_prop = None) as Hnone.
  { unfold unmarshal_entity. rewrite Htruthy; simpl. apply lookup_delete_eq. }
  rewrite Heq in Hnone. unfold get_field in Htruthy. by rewrite Hnone in Htruthy.
Qed.

Lemma map_unmarshal_id (l : list Entity) :
  map unmarshal_entity l = l ↔ Forall (λ e, truthy (get_field e dsKey_prop) = false) l.
Proof.
  induction l as [|e l IH]; simpl; [by split|].
  split.
  - intros [= He Hl]. constructor; [|by apply IH].
    destruct (truthy (get_field e dsKey_prop)) eqn:Htruthy; [|done].
    by destruct (unmarshal_entity_truthy e Htruthy).
  - intros [He Hl]%Forall_cons. f_equal; [by apply unmarshal_entity_falsy|by apply IH].
Qed.

(** What is read back is what was stored exactly when no entity has a
    [__dsKey__] property that is truthy. *)
Lemma unmarshalled_id (r : QueryData) :
  unmarshalled r = r
  ↔ Forall (λ e, truthy (get_field e dsKey_prop) = false) (arrify_entities (qd_entities r)).
Proof.
  destruct r as [[|e|l] meta]; unfold unmarshalled, unMarshalKeys; simpl.
  - by split.
  - split.
    + intros [= He]. constructor; [|done].
      destruct (truthy (get_field e dsKey_prop)) eqn:Htruthy; [|done].
      by destruct (unmarshal_entity_truthy e Htruthy).
    + intros [He _]%Forall_cons. by rewrite (unmarshal_entity_falsy e He).
  - rewrite <- map_unmarshal_id. split; [by intros [= ->]|by intros ->].
Qed.

(** X18. [mget] with one key makes one call, [cache.get] of the cache key
    of the query.  When the key holds nothing the promise resolves with
    [undefined]; when it holds a pair whose first slot is an entity or an
    array of entities, it resolves with a pair: the second slot as stored,
    the first of the same shape and size, where every entity whose
    [__dsKey__] property holds a key has that key as its native key and
    no [__dsKey__] property.  A rejection of [cache.get] is the
    promise's. *)
Theorem mget_one_key (cache : Queries.Cache W) (store : Store W R D) (key : Query) (w : W) :
  let queryKey := Queries.queryToString cache key in
  calls_in (mget cache store key []) w = [ECacheGet queryKey]
  ∧ world_in (mget cache store key []) w = (cache_get store queryKey w).2
  ∧ ((cache_get store queryKey w).1 = Resolved None →
     outcome_in (mget cache store key []) w = Resolved GetUndefined)
  ∧ (∀ e, (cache_get store queryKey w).1 = Rejected e →
          outcome_in (mget cache store key []) w = Rejected e)
  ∧ (∀ r, (cache_get store queryKey w).1 = Resolved (Some r) →
          qd_entities r ≠ ENone →
          ∃ r', outcome_in (mget cache store key []) w = Resolved (GetOne r')
                ∧ qd_meta r' = qd_meta r
                ∧ is_array (qd_entities r') = is_array (qd_entities r)
                ∧ shape_size (qd_entities r') = shape_size (qd_entities r)
                ∧ Forall2 (λ e e', ∀ k, get_field e dsKey_prop = VKey k →
                                        sym_KEY e' = Some (VKey k)
                                        ∧ fields e' !! dsKey_prop = None)
                    (arrify_entities (qd_entities r)) (arrify_entities (qd_entities r'))).
Proof.
  intros queryKey. unfold calls_in, world_in, outcome_in, mget, then_value, call.
  fold queryKey. destruct (cache_get store queryKey w) as [r0 w'] eqn:Hget; simpl.
  split; [done|]. split; [done|]. split; [by intros ->|]. split; [by intros e ->|].
  intros r -> Hsome.
  assert (∀ l, Forall2 (λ e e', ∀ k, get_field e dsKey_prop = VKey k →
                                     sym_KEY e' = Some (VKey k)
                                     ∧ fields e' !! dsKey_prop = None)
                 l (map unmarshal_entity l)) as Hall.
  { induction l as [|e l IH]; simpl; constructor; [|done].
    intros k Hk. unfold unmarshal_entity. rewrite Hk; simpl.
    split; [done|apply lookup_delete_eq]. }
  destruct r as [[|e|l] meta]; simpl in *; [done|..];
    (eexists; split; [reflexivity|]; split; [done|]).
  - split; [done|]. split; [done|]. apply (Hall [e]).
  - unfold unMarshalKeys; simpl. split; [done|]. split; [by rewrite length_map|].
    apply Hall.
Qed.

Lemma omap_id_length {A} (l : list (option A)) : (length (omap id l) ≤ length l)%nat.
Proof.
  induction l as [|[a|] l IH]; [done|..].
  - change (omap id (Some a :: l)) with (a :: omap id l). simpl. lia.
  - change (omap id (None :: l)) with (omap id l). simpl. lia.
Qed.

Lemma omap_id_full {A} (l : list (option A)) :
  length (omap id l) = length l ↔ Forall is_Some l.
Proof.
  induction l as [|[a|] l IH].
  - by split.
  - rewrite Forall_cons. change (omap id (Some a :: l)) with (a :: omap id l). simpl.
    split; [intros [= Hlen]; split; [done|by apply IH]|intros [_ Hl]; f_equal; by apply IH].
  - rewrite Forall_cons. change (omap id (None :: l)) with (omap id l).
    pose proof (omap_id_length l). simpl. split; [lia|].
    intros [[a Ha] _]. discriminate.
Qed.

Lemma omap_id_none {A} (l : list (option A)) :
  Forall (λ r, r = None) l → omap id l = [].
Proof.
  induction 1 as [|r l -> _ IH]; [done|]. by change (omap id (None :: l)) with (omap id l).
Qed.

(** X19. [mget] with several keys makes one call, [cache.mget] of the
    cache keys of the queries in the order given.  The promise resolves
    with the pairs of the keys that hold something, each with its keys
    unmarshalled, in the order of the answer: the keys that hold nothing
    leave no place in the array, so it has as many elements as the answer
    only when no key missed, and it is the empty array, not [undefined],
    when every key missed. *)
Theorem mget_several_keys (cache : Queries.Cache W) (store : Store W R D)
    (key key' : Query) (more : list Query) (w : W) :
  let keys := map (Queries.queryToString cache) (key :: key' :: more) in
  calls_in (mget cache store key (key' :: more)) w = [ECacheMget keys]
  ∧ world_in (mget cache store key (key' :: more)) w = (cache_mget store keys w).2
  ∧ ((cache_mget store keys w).1 = Resolved None →
     outcome_in (mget cache store key (key' :: more)) w = Resolved GetUndefined)
  ∧ (∀ _response,
       (cache_mget store keys w).1 = Resolved (Some _response) →
       outcome_in (mget cache store key (key' :: more)) w
       = Resolved (GetMany (map unmarshalled (omap id _response)))
       ∧ (length (omap id _response) ≤ length _response)%nat
       ∧ (length (omap id _response) = length _response ↔ Forall is_Some _response)
       ∧ (Forall (λ r, r = None) _response → omap id _response = [])).
Proof.
  intros keys. unfold calls_in, world_in, outcome_in, mget, then_value, call.
  fold keys. destruct (cache_mget store keys w) as [r0 w'] eqn:Hget; simpl.
  split; [done|]. split; [done|]. split; [by intros ->|].
  intros _response ->. split; [done|].
  split; [apply omap_id_length|]. split; [apply omap_id_full|].
  apply omap_id_none.
Qed.

(** X20. Without a redis client, on a store that gives back under a key
    what was set under it: [set] of a query and its data, a pair whose
    first slot is an entity or an array of entities, then [get] of the
    query, resolves with the data with its keys unmarshalled.  That is the
    data as it was set exactly when no entity in it has a [__dsKey__]
    property that is truthy. *)
Theorem set_then_get (cache : Queries.Cache W) (store : Store W R D) (query : Query)
    (queryData : QueryData) (args_options : option Options) (r : R) (w w1 : W) :
  let queryKey := Queries.queryToString cache query in
  let options :=
    with_ttl no_options
      (getTTL (Queries.config cache) (default no_options args_options) "queries") in
  Queries.redisClient cache = None →
  qd_entities queryData ≠ ENone →
  cache_set store queryKey queryData options w = (Resolved r, w1) →
  (cache_get store queryKey w1).1 = Resolved (Some queryData) →
  ∃ p, mset cache store [(query, queryData)] args_options = Normal p
       ∧ outcome_in p w = Resolved (SetValue r)
       ∧ world_in p w = w1
       ∧ outcome_in (mget cache store query []) w1 = Resolved (GetOne (unmarshalled queryData))
       ∧ (unmarshalled queryData = queryData
          ↔ Forall (λ e, truthy (get_field e dsKey_prop) = false)
              (arrify_entities (qd_entities queryData))).
Proof.
  intros queryKey options Hclient Hsome Hset Hget.
  unfold mset. fold options. rewrite Hclient; simpl. fold queryKey.
  eexists; split; [reflexivity|].
  unfold outcome_in, world_in, mget, then_value, call. fold queryKey.
  rewrite Hset; simpl. split; [done|]. split; [done|].
  destruct (cache_get store queryKey w1) as [r0 w2]; simpl in *. subst r0.
  split; [|apply unmarshalled_id].
  unfold onResponse_one. by destruct (qd_entities queryData).
Qed.

(** X21. One cache key for a query, the prefix of queries followed by the
    string of the query: it is the key [wrap] reads, the key [get] reads,
    the key [set] writes without a redis client, and the key [del] hands
    to [cache.del].  [del] makes that one call, of the keys of all its
    queries in the order given, and its promise is the one [cache.del]
    returns. *)
Theorem one_cache_key_per_query (cache : Queries.Cache W) (store : Store W R D)
    (query : Queries.QueryObject W) (queryData : QueryData) (keys : list Query)
    (args_options : option Options) (args_fetchHandler : option (Handler W)) (w : W) :
  let key_of (q : Query) := cachePrefix_queries (Queries.config cache) +:+ dsQueryToString q in
  (∃ rest, trace_of (Queries.wrap cache query args_options args_fetchHandler) w
           = EGet (key_of (Queries.q_spec query)) (Queries.call_options cache args_options)
             :: rest)
  ∧ calls_in (mget cache store (Queries.q_spec query) []) w
    = [ECacheGet (key_of (Queries.q_spec query))]
  ∧ (Queries.redisClient cache = None →
     ∃ p options,
       mset cache store [(Queries.q_spec query, queryData)] args_options = Normal p
       ∧ calls_in p w = [ECacheSet (key_of (Queries.q_spec query)) queryData options])
  ∧ del cache store keys w
    = ((cache_del store (map key_of keys) w).1,
       ((cache_del store (map key_of keys) w).2, [ECacheDel (map key_of keys)])).
Proof.
  intros key_of. split; [|split; [|split]].
  - apply wrap_reads_first.
  - unfold calls_in, mget, then_value, call.
    by destruct (cache_get store _ w).
  - intros Hclient. unfold mset. rewrite Hclient; simpl.
    eexists; eexists; split; [reflexivity|].
    unfold calls_in, then_value, call. by destruct (cache_set store _ _ _ w).
  - unfold del, call. by destruct (cache_del store _ w).
Qed.

End Mget.

(** ** [set] and the invalidation of a kind *)

Section SetThenInvalidate.
Import Mem QueriesStore.
Context {R D : Type} {utils : Utils} {race : Race}.

Lemma setWithKind_alone (cache : Queries.Cache World) (query : Query) (queryData : QueryData)
    (_options redisOptions : Options) (w : World) :
  Queries.redisClient cache = Some mem_redis →
  Queries.cacheManagerNoRedis cache = None →
  world_of (setWithKind cache query queryData _options redisOptions) w
  = world_of (Queries.cacheQueryEntityKind cache (Queries.queryToString cache query)
                (Queries.marshalled queryData) (Queries.kind_arg (kinds_0 query))
                redisOptions) w
  ∧ outcome_of (setWithKind cache query queryData _options redisOptions) w
    = Resolved [queryData].
Proof.
  intros Hclient Hnone. unfold world_of, outcome_of, run, setWithKind.
  rewrite then_response, Hnone. cbn [promise_all].
  rewrite (registered_run cache mem_redis redisOptions query queryData (w, []) Hclient).
  unfold Queries.cacheQueryEntityKind. rewrite Hclient.
  assert (Queries.arrify_kinds (Queries.kind_arg (kinds_0 query)) = option_list (kinds_0 query))
    as -> by (by destruct (kinds_0 query)).
  unfold perform, resolve. rewrite map_map. cbn [fst snd mem_redis multi_exec].
  by destruct (exec_commands (redis_db w) _).
Qed.

(** X22. On a redis that runs the commands as documented, with no cache
    manager without redis: [set] of a query and its data resolves with the
    array of the data and leaves the cache key of the query in the set of
    the query's first kind; [cleanQueriesEntityKind] of that kind then
    leaves neither the cache key nor the set.  The set's key must be free
    or hold a set, and differ from the cache key. *)
Theorem set_then_invalidate (cache : Queries.Cache World) (store : Store World R D)
    (query : Query) (queryData : QueryData) (args_options : option Options)
    (redisOptions : Options) (kind : string) (old : list string) (w : World) :
  let queryKey := Queries.queryToString cache query in
  let set := cachePrefix_queries (Queries.config cache) +:+ kind in
  let options :=
    with_ttl no_options
      (getTTL (Queries.config cache) (default no_options args_options) "queries") in
  Queries.redisClient cache = Some mem_redis →
  Queries.cacheManagerNoRedis cache = None →
  Queries.redisOptions_of options = Normal redisOptions →
  kinds_0 query = Some kind →
  set ≠ queryKey →
  redis_db w !! set = None ∧ old = [] ∨ redis_db w !! set = Some (RSet old) →
  ∃ p, mset cache store [(query, queryData)] args_options = Normal p
       ∧ outcome_in p w = Resolved (SetValues [queryData])
       ∧ member_of (redis_db (world_in p w)) set queryKey
       ∧ redis_db (world_of (Queries.cleanQueriesEntityKind cache (Queries.KOne kind))
                     (world_in p w)) !! queryKey = None
       ∧ redis_db (world_of (Queries.cleanQueriesEntityKind cache (Queries.KOne kind))
                     (world_in p w)) !! set = None.
Proof.
  intros queryKey set options Hclient Hnone Hro Hkind Hne Hset.
  unfold mset. fold options. rewrite Hclient, Hro.
  eexists; split; [reflexivity|].
  destruct (setWithKind_alone cache query queryData options redisOptions w Hclient Hnone)
    as [Hworld Houtcome].
  rewrite Hkind in Hworld. cbn [Queries.kind_arg] in Hworld. fold queryKey in Hworld.
  assert (world_in (then_value (indexed (setWithKind cache query queryData options
                                           redisOptions)) SetValues) w
          = world_of (Queries.cacheQueryEntityKind cache queryKey
                        (Queries.marshalled queryData) (Queries.KOne kind) redisOptions) w)
    as ->.
  { rewrite <- Hworld. unfold world_in, then_value, indexed, world_of.
    by destruct (run _ w) as [r [w' trace]]. }
  split.
  { unfold outcome_in, then_value, indexed. unfold outcome_of in Houtcome.
    destruct (run _ w) as [r [w' trace]]. simpl in *. by rewrite Houtcome. }
  destruct (registration_invalidated cache queryKey (Queries.marshalled queryData) kind
              redisOptions old w Hclient Hne Hset)
    as (Hmember & Hkey & Hkind' & _).
  done.
Qed.

End SetThenInvalidate.

Section StoreWitnesses.
Import Mem Scenario Cases QueriesStore MemStore.

Lemma mem_redis_resolves (commands : list Command) (w : World) :
  ∃ replies, (multi_exec mem_redis commands w).1 = Resolved replies.
Proof. simpl. destruct (exec_commands (redis_db w) commands). eauto. Qed.

Lemma mem_prime_resolves (cache : Queries.Cache World) (key : string) (value : QueryData)
    (options : Options) (w : World) :
  Queries.primeCache cache = mem_prime →
  ∃ v, (Queries.primeCache cache key value options w).1 = Resolved v.
Proof. intros ->. simpl. eauto. Qed.

Lemma mset_registers_each_pair_witness :
  (∃ p, mset (with_redis_and_memory (one_store 10)) mem_store
          [(by_name, companies); (all_companies, stale)] None = Normal p
        ∧ calls_in p empty_world
          = [EIndexed (EMulti [SADD "gcq:Company" "gcq:Company|name=Acme||";
                               SETEX "gcq:Company|name=Acme||" (TtlNum 10)
                                 (JSON_stringify (Queries.marshalled companies))]);
             EIndexed (EPrime "gcq:Company|name=Acme||" (Queries.marshalled companies)
                         (MkOptions (Some (TtlNum 10)) None (Some "memory")));
             EIndexed (EMulti [SADD "gcq:Company" "gcq:Company|||";
                               SETEX "gcq:Company|||" (TtlNum 10)
                                 (JSON_stringify (Queries.marshalled stale))]);
             EIndexed (EPrime "gcq:Company|||" (Queries.marshalled stale)
                         (MkOptions (Some (TtlNum 10)) None (Some "memory")))])
  ∧ (∃ p, mset (with_redis_and_memory (one_store 10)) mem_store [(by_name, companies)] None
          = Normal p
          ∧ calls_in p empty_world
            = [EIndexed (EMulti [SADD "gcq:Company" "gcq:Company|name=Acme||";
                                 SETEX "gcq:Company|name=Acme||" (TtlNum 10)
                                   (JSON_stringify (Queries.marshalled companies))]);
               EIndexed (EPrime "gcq:Company|name=Acme||" companies
                           (MkOptions (Some (TtlNum 10)) None (Some "memory")))]).
Proof.
  split.
  - destruct (@mset_registers_each_pair World QueryData unit utils_ref array_order
                (with_redis_and_memory (one_store 10)) mem_store mem_redis
                [(by_name, companies); (all_companies, stale)] None
                (MkOptions (Some (TtlNum 10)) None None) empty_world
                eq_refl ltac:(vm_compute; reflexivity)) as (p & Hp & Hcalls).
    exists p. split; [exact Hp|]. rewrite Hcalls. vm_compute. reflexivity.
  - destruct (@mset_registers_each_pair World QueryData unit utils_ref array_order
                (with_redis_and_memory (one_store 10)) mem_store mem_redis
                [(by_name, companies)] None
                (MkOptions (Some (TtlNum 10)) None None) empty_world
                eq_refl ltac:(vm_compute; reflexivity)) as (p & Hp & Hcalls).
    exists p. split; [exact Hp|]. rewrite Hcalls. vm_compute. reflexivity.
Defined.

Lemma mset_resolves_values_witness :
  (∃ p, mset (with_redis_and_memory (one_store 10)) mem_store
          [(by_name, companies); (all_companies, stale)] None = Normal p
        ∧ outcome_in p empty_world = Resolved (SetValues [companies; stale]))
  ∧ (∃ p, mset (with_broken_redis (one_store 10)) mem_store
            [(by_name, companies); (all_companies, stale)] None = Normal p
          ∧ outcome_in p empty_world = Rejected (Error "Connection is closed.")).
Proof.
  split.
  - destruct (@mset_resolves_values World QueryData unit utils_ref array_order
                (with_redis_and_memory (one_store 10)) mem_store mem_redis
                [(by_name, companies); (all_companies, stale)] None
                (MkOptions (Some (TtlNum 10)) None None) empty_world
                eq_refl ltac:(vm_compute; reflexivity)) as (p & Hp & Hresolves & _).
    exists p. split; [exact Hp|].
    apply Hresolves; [apply mem_redis_resolves|].
    intros. by apply mem_prime_resolves.
  - destruct (@mset_resolves_values World QueryData unit utils_ref array_order
                (with_broken_redis (one_store 10)) mem_store broken_redis
                [(by_name, companies); (all_companies, stale)] None
                (MkOptions (Some (TtlNum 10)) None None) empty_world
                eq_refl ltac:(vm_compute; reflexivity)) as (p & Hp & _ & Hrejects).
    exists p. split; [exact Hp|].
    apply (Hrejects (by_name, companies) [(all_companies, stale)]
             (Error "Connection is closed.") eq_refl eq_refl).
    intros e'. reflexivity.
Defined.

Lemma mset_without_redis_witness :
  Queries.redisClient (without_redis (one_store 10)) = None
  ∧ (∃ p, mset (without_redis (one_store 10)) mem_store [(by_name, companies)]
            (Some (MkOptions None (Some false) (Some "memory"))) = Normal p
          ∧ outcome_in p empty_world = Resolved (SetValue companies)
          ∧ calls_in p empty_world
            = [ECacheSet "gcq:Company|name=Acme||" companies
                 (MkOptions (Some (TtlNum 10)) None None)])
  ∧ (∃ p, mset (without_redis (one_store 10)) mem_store
            [(by_name, companies); (all_companies, stale)] None = Normal p
          ∧ outcome_in p empty_world = Resolved (SetValues [companies; stale])
          ∧ calls_in p empty_world
            = [ECacheMset [("gcq:Company|name=Acme||", companies); ("gcq:Company|||", stale)]
                 (MkOptions (Some (TtlNum 10)) None None)]).
Proof.
  split; [reflexivity|]. split.
  - destruct (@mset_without_redis World QueryData unit utils_ref array_order
                (without_redis (one_store 10)) mem_store [(by_name, companies)]
                (Some (MkOptions None (Some false) (Some "memory"))) empty_world eq_refl)
      as (_ & _ & p & Hp & Hone & _).
    exists p. split; [exact Hp|].
    unfold outcome_in, calls_in. rewrite (Hone by_name companies eq_refl).
    split; vm_compute; reflexivity.
  - destruct (@mset_without_redis World QueryData unit utils_ref array_order
                (without_redis (one_store 10)) mem_store
                [(by_name, companies); (all_companies, stale)] None empty_world eq_refl)
      as (_ & _ & p & Hp & _ & Hmany).
    exists p. split; [exact Hp|].
    unfold outcome_in, calls_in. rewrite (Hmany ltac:(discriminate)).
    split; vm_compute; reflexivity.
Defined.

Lemma mset_ttl_resolver_throws_witness :
  (∃ msg, mset (with_redis two_stores_no_redis_ttl) mem_store [(by_name, companies)] None
          = Throw (TypeError msg))
  ∧ (∃ p, mset (without_redis two_stores_no_redis_ttl) mem_store [(by_name, companies)] None
          = Normal p).
Proof.
  destruct (getTTL two_stores_no_redis_ttl (default no_options None) "queries")
    as [[n|f]|] eqn:Httl; [discriminate| |discriminate].
  assert (f "redis" = Throw (TypeError "Cannot read property of undefined")) as Hthrow.
  { injection Httl as <-. vm_compute. reflexivity. }
  split.
  - exists "Cannot read property of undefined".
    exact (proj1 (@mset_ttl_resolver_throws World QueryData unit utils_ref array_order
                    (with_redis two_stores_no_redis_ttl) mem_store [(by_name, companies)]
                    None f _ Httl Hthrow) (ex_intro _ mem_redis eq_refl)).
  - exact (proj2 (@mset_ttl_resolver_throws World QueryData unit utils_ref array_order
                    (without_redis two_stores_no_redis_ttl) mem_store [(by_name, companies)]
                    None f _ Httl Hthrow) eq_refl).
Defined.

Lemma mget_one_key_witness :
  (cache_get mem_store "gcq:Company|name=Acme||" stored_world).1
  = Resolved (Some stored_companies)
  ∧ ∃ r', outcome_in (mget (without_redis (one_store 10)) mem_store by_name []) stored_world
          = Resolved (GetOne r')
          ∧ qd_meta r' = VStr "NO_MORE_RESULTS"
          ∧ Forall2 (λ e e', ∀ k, get_field e dsKey_prop = VKey k →
                                  sym_KEY e' = Some (VKey k)
                                  ∧ fields e' !! dsKey_prop = None)
              [acme_stored] (arrify_entities (qd_entities r')).
Proof.
  assert ((cache_get mem_store "gcq:Company|name=Acme||" stored_world).1
          = Resolved (Some stored_companies)) as Hget by (vm_compute; reflexivity).
  split; [exact Hget|].
  destruct (@mget_one_key World QueryData unit utils_ref
              (without_redis (one_store 10)) mem_store by_name stored_world)
    as (_ & _ & _ & _ & Hhit).
  destruct (Hhit stored_companies Hget ltac:(discriminate))
    as (r' & Hout & Hmeta & _ & _ & Hkeys).
  exists r'. split; [exact Hout|]. split; [exact Hmeta|exact Hkeys].
Defined.

Lemma mget_several_keys_witness :
  (cache_mget mem_store ["gcq:Company|||"; "gcq:Company|name=Acme||"] cached_world).1
  = Resolved (Some [None; Some stale])
  ∧ outcome_in (mget (without_redis (one_store 10)) mem_store all_companies [by_name])
      cached_world
    = Resolved (GetMany [stale])
  ∧ outcome_in (mget (without_redis (one_store 10)) mem_store all_companies [by_name])
      empty_world
    = Resolved (GetMany [])
  ∧ outcome_in (mget (without_redis (one_store 10)) mem_store all_companies []) empty_world
    = Resolved GetUndefined.
Proof.
  assert ((cache_mget mem_store ["gcq:Company|||"; "gcq:Company|name=Acme||"] cached_world).1
          = Resolved (Some [None; Some stale])) as Hget by (vm_compute; reflexivity).
  split; [exact Hget|].
  destruct (@mget_several_keys World QueryData unit utils_ref
              (without_redis (one_store 10)) mem_store all_companies by_name []
              cached_world) as (_ & _ & _ & Hhit).
  destruct (Hhit [None; Some stale] Hget) as (Hout & _).
  split; [rewrite Hout; vm_compute; reflexivity|].
  split; vm_compute; reflexivity.
Defined.

Lemma set_then_get_witness :
  ∃ p, mset (without_redis (one_store 10)) mem_store [(by_name, own_sidecar)] None = Normal p
       ∧ outcome_in p empty_world = Resolved (SetValue own_sidecar)
       ∧ outcome_in (mget (without_redis (one_store 10)) mem_store by_name [])
           (world_in p empty_world)
         = Resolved (GetOne (unmarshalled own_sidecar))
       ∧ sym_KEY <$> arrify_entities (qd_entities (unmarshalled own_sidecar))
         = [Some (VStr "mine")].
Proof.
  destruct (@set_then_get World QueryData unit utils_ref array_order
              (without_redis (one_store 10)) mem_store by_name own_sidecar None own_sidecar
              empty_world
              (cache_set mem_store "gcq:Company|name=Acme||" own_sidecar
                 (MkOptions (Some (TtlNum 10)) None None) empty_world).2
              eq_refl ltac:(discriminate) ltac:(vm_compute; reflexivity)
              ltac:(vm_compute; reflexivity))
    as (p & Hp & Hout & Hworld & Hget & _).
  exists p. split; [exact Hp|]. split; [exact Hout|]. rewrite Hworld.
  split; [exact Hget|]. vm_compute. reflexivity.
Defined.

Lemma one_cache_key_per_query_witness :
  calls_in (mget (without_redis (one_store 10)) mem_store by_name []) empty_world
  = [ECacheGet "gcq:Company|name=Acme||"]
  ∧ calls_in (del (without_redis (one_store 10)) mem_store [by_name; all_companies]) cached_world
    = [ECacheDel ["gcq:Company|name=Acme||"; "gcq:Company|||"]].
Proof.
  destruct (@one_cache_key_per_query World QueryData unit utils_ref array_order
              (without_redis (one_store 10)) mem_store (object_of by_name) companies
              [by_name; all_companies] None None empty_world) as (_ & Hget & _ & _).
  destruct (@one_cache_key_per_query World QueryData unit utils_ref array_order
              (without_redis (one_store 10)) mem_store (object_of by_name) companies
              [by_name; all_companies] None None cached_world) as (_ & _ & _ & Hdel).
  split.
  - vm_compute in Hget. vm_compute. exact Hget.
  - unfold calls_in. rewrite Hdel. vm_compute. reflexivity.
Defined.

Lemma set_then_invalidate_witness :
  ∃ p, mset (with_redis (one_store 0)) mem_store [(all_companies, companies)] None = Normal p
       ∧ outcome_in p indexed_world = Resolved (SetValues [companies])
       ∧ member_of (redis_db (world_in p indexed_world)) "gcq:Company" "gcq:Company|||"
       ∧ redis_db (world_of (Queries.cleanQueriesEntityKind (with_redis (one_store 0))
                               (Queries.KOne "Company"))
                     (world_in p indexed_world)) !! "gcq:Company|||" = None.
Proof.
  assert ("gcq:Company" ≠ "gcq:Company|||") as Hne by done.
  assert (redis_db indexed_world !! "gcq:Company"
          = Some (RSet ["gcq:Company|name=Acme||"; "gcq:Company|||"])) as Hset
    by (vm_compute; reflexivity).
  destruct (@set_then_invalidate QueryData unit utils_ref array_order
              (with_redis (one_store 0)) mem_store all_companies companies None
              (MkOptions (Some (TtlNum 0)) None None) "Company"
              ["gcq:Company|name=Acme||"; "gcq:Company|||"] indexed_world
              eq_refl eq_refl ltac:(vm_compute; reflexivity) eq_refl Hne (or_intror Hset))
    as (p & Hp & Hout & Hmember & Hkey & _).
  exists p. split; [exact Hp|]. split; [exact Hout|]. split; [exact Hmember|exact Hkey].
Defined.

End StoreWitnesses.

(** ** What an invalidation removes (lib/queries.js) *)

Section InvalidateExactly.
Import Mem.
Context {utils : Utils}.





End InvalidateExactly.

Section InvalidateExactlyWitnesses.
Import Mem Scenario Cases.


End InvalidateExactlyWitnesses.

(** ** The TTL of the write in redis, with several stores (lib/queries.js) *)

Section WrapRedisTtl.
Context {W : Type} {utils : Utils} {race : Race}.
Variables (cache : Queries.Cache W) (query : Queries.QueryObject W).
Variables (args_options : option Options) (args_fetchHandler : option (Handler W)).

Let queryKey : string := Queries.queryToString cache (Queries.q_spec query).
Let options : Options := Queries.call_options cache args_options.
Let fetched : Event := Queries.fetch_event query args_fetchHandler.

(** X24. [wrap] with a TTL that is a function, after a miss and a fetch
    that resolves, with a redis client: the cache manager is handed the
    function, and the payload is written in redis with what the function
    returns for the store [redis]: by [setex] with that number of seconds
    when it is not zero, by a plain [set] when it is zero or [undefined].
    A cache manager without redis, when there is one, is primed with the
    options that hold the function. *)
Theorem wrap_writes_with_redis_store_ttl (client : RedisClient W) (w w1 w2 : W)
    (resultFetched : QueryData) (f : string → Completion (option Z)) (ttl : option Z) :
  let json := JSON_stringify (Queries.marshalled resultFetched) in
  cm_get (Queries.cacheManager cache) queryKey options w = (Resolved None, w1) →
  Queries.fetch_call query args_fetchHandler w1 = (Resolved resultFetched, w2) →
  Queries.redisClient cache = Some client →
  opt_ttl options = Some (TtlFn f) →
  f "redis" = Normal ttl →
  trace_of (Queries.wrap cache query args_options args_fetchHandler) w
  = [EGet queryKey options; fetched;
     EMulti (map (λ kind, SADD (cachePrefix_queries (Queries.config cache) +:+ kind) queryKey)
               (option_list (kinds_0 (Queries.q_spec query)))
             ++ [match ttl with
                 | Some n => if Z.eqb n 0 then SET queryKey json
                             else SETEX queryKey (TtlNum n) json
                 | None => SET queryKey json
                 end])]
    ++ match Queries.cacheManagerNoRedis cache with
       | Some noRedis =>
           [EPrime queryKey resultFetched (with_cacheManager options noRedis)]
       | None => []
       end.
Proof.
  intros json Hget Hfetch Hclient Httl Hf.
  assert (Queries.redisOptions_of options = Normal (with_ttl options (TtlNum <$> ttl))) as Hro.
  { unfold Queries.redisOptions_of. by rewrite Httl, Hf. }
  unfold queryKey, options, fetched.
  rewrite (wrap_miss_with_redis cache query args_options args_fetchHandler w w1 w2 client
             resultFetched _ Hget Hfetch Hclient Hro).
  do 5 f_equal.
  unfold Queries.write_command; simpl. destruct ttl as [n|]; simpl; [|done].
  by destruct (Z.eqb n 0).
Qed.

End WrapRedisTtl.

Section WrapRedisTtlWitnesses.
Import Mem Scenario Cases.

Lemma wrap_writes_with_redis_store_ttl_witness :
  ∃ f, opt_ttl (Queries.call_options (with_redis_and_memory two_stores) None)
       = Some (TtlFn f)
       ∧ f "redis" = Normal (Some 2468)
       ∧ trace_of (Queries.wrap (with_redis_and_memory two_stores) (object_of by_name)
                     None None) empty_world
         = [EGet "gcq:Company|name=Acme||" (MkOptions (Some (TtlFn f)) None None);
            ERun by_name;
            EMulti [SADD "gcq:Company" "gcq:Company|name=Acme||";
                    SETEX "gcq:Company|name=Acme||" (TtlNum 2468) "[Company,Company]"];
            EPrime "gcq:Company|name=Acme||" companies
              (MkOptions (Some (TtlFn f)) None (Some "memory"))].
Proof.
  destruct (opt_ttl (@Queries.call_options World utils_ref
                       (with_redis_and_memory two_stores) None))
    as [[n|f]|] eqn:Httl; [discriminate| |discriminate].
  assert (f "redis" = Normal (Some 2468)) as Hf.
  { injection Httl as <-. vm_compute. reflexivity. }
  assert (Queries.call_options (with_redis_and_memory two_stores) None
          = MkOptions (Some (TtlFn f)) None None) as Hoptions.
  { destruct (Queries.call_options (with_redis_and_memory two_stores) None)
      as [t c m] eqn:Hcall.
    simpl in Httl. subst t.
    assert (c = None ∧ m = None) as [-> ->]; [|done].
    change c with (opt_cache (MkOptions (Some (TtlFn f)) c m)).
    change m with (opt_cacheManager (MkOptions (Some (TtlFn f)) c m)) at 2.
    rewrite <- Hcall. split; reflexivity. }
  exists f. split; [reflexivity|]. split; [exact Hf|].
  rewrite (@wrap_writes_with_redis_store_ttl World utils_ref array_order
             (with_redis_and_memory two_stores) (object_of by_name) None None
             mem_redis empty_world empty_world empty_world companies f (Some 2468)
             eq_refl eq_refl eq_refl Httl Hf).
  rewrite Hoptions. reflexivity.
Defined.

End WrapRedisTtlWitnesses.
